(** Chrome DevTools MCP server: the session / transport / dispatch runtime.

    A shallow embedding of [createServer] (tool catalogue, context resolver,
    invocation pipeline; the file that [main] imports as [./server.js]), of
    [loadConfig] ([config.ts]) and of the HTTP transport ([startHttpTransport],
    [handleMcpRequest], [createNewSession], [handleHealthCheck]; the second
    half of [transport/stdio.ts] in the sources, imported as
    [./transport/http.js]), with the properties of the runtime proved over
    it.

    External collaborators (the automation driver, the protocol SDK, the
    tool handlers, the clock, [String.prototype.localeCompare]) are not
    part of the embedding: what they answer is an input of the model. *)

From Stdlib Require Import ZArith Lia List Sorted Permutation OrderedTypeEx.
From stdpp Require Import base option gmap list strings sorting pretty.

Local Open Scope string_scope.
Local Open Scope list_scope.

(** * JavaScript values and promise outcomes *)

Module Js.

(** The values the runtime inspects at run time: what a collaborator throws,
    and what a loosely typed CLI argument holds.  [JsError name message] is an
    instance of [Error] (or of a subclass called [name]) whose message is a
    string.  Thrown values are taken among these five kinds; other objects,
    numbers and symbols, some of which have no string conversion, are not
    covered. *)
Inductive JsValue : Type :=
| JsUndefined
| JsNull
| JsBoolean (b : bool)
| JsString (s : string)
| JsError (name message : string).

(** How an awaited call ends: it returns, it throws, or its promise never
    settles. *)
Inductive completion (A : Type) : Type :=
| Normal (a : A)
| Throw (e : JsValue)
| Pending.

Arguments Normal {A} a.
Arguments Throw {A} e.
Arguments Pending {A}.

(** [String(v)], also the conversion a template literal applies. *)
Definition ToString (v : JsValue) : string :=
  match v with
  | JsUndefined => "undefined"
  | JsNull => "null"
  | JsBoolean true => "true"
  | JsBoolean false => "false"
  | JsString s => s
  | JsError name message =>
      if String.eqb name "" then message
      else if String.eqb message "" then name
      else name +:+ ": " +:+ message
  end.

(** [v instanceof Error] *)
Definition instanceofError (v : JsValue) : bool :=
  match v with
  | JsError _ _ => true
  | _ => false
  end.

(** [v.message]: reading a property of [undefined] or [null] throws a
    [TypeError]; a primitive has no such property. *)
Definition GetMessage (v : JsValue) : completion JsValue :=
  match v with
  | JsUndefined =>
      Throw (JsError "TypeError"
               "Cannot read properties of undefined (reading 'message')")
  | JsNull =>
      Throw (JsError "TypeError"
               "Cannot read properties of null (reading 'message')")
  | JsBoolean _ => Normal JsUndefined
  | JsString _ => Normal JsUndefined
  | JsError _ message => Normal (JsString message)
  end.

(** [v !== false] *)
Definition strict_neq_false (v : JsValue) : bool :=
  match v with
  | JsBoolean false => false
  | _ => true
  end.

(** Truthiness of an optional string: [undefined] and [''] are falsy. *)
Definition truthy (o : option string) : bool :=
  match o with
  | Some s => negb (String.eqb s "")
  | None => false
  end.

(** [o ?? d] *)
Definition nullish {A : Type} (o : option A) (d : A) : A :=
  match o with
  | Some a => a
  | None => d
  end.

(** [Array.prototype.sort(cmp)]: a stable sort; with a consistent comparator
    the result is the stable arrangement in the comparator's order.  An
    element moves behind the ones that compare strictly below it. *)
Section Sort.
Context {A : Type} (cmp : A -> A -> Z).

Fixpoint sort_insert (x : A) (l : list A) : list A :=
  match l with
  | [] => [x]
  | y :: l' =>
      if (0 <? cmp x y)%Z then y :: sort_insert x l' else x :: y :: l'
  end.

Definition array_sort (l : list A) : list A := foldr sort_insert [] l.

(** The ascending order of the comparator. *)
Definition ascending (a b : A) : Prop := (cmp a b <= 0)%Z.

End Sort.

(** Comparison by code units, a consistent comparator on strings. *)
Definition codeunit_compare (a b : string) : Z :=
  match String.compare a b with
  | Lt => (-1)%Z
  | Eq => 0%Z
  | Gt => 1%Z
  end.

End Js.

Import Js.

(** * config.ts *)

Module Configuration.

(** The parsed CLI arguments ([Record<string, unknown>]).  The three category
    switches are kept as raw values, since [loadConfig] compares them with
    [!== false]; the other entries have the types the argument parser gives
    them.  [arg_port] is a port given as an integer below 10^21 in
    magnitude, as [--port 8080] gives it: there [parseInt(args.port, 10)]
    reads the digits of the number back and is the number itself.
    Fractions and larger numbers, which [parseInt] cuts, are not
    covered. *)
Record Args : Type := {
  arg_browserUrl : option string;
  arg_wsEndpoint : option string;
  arg_wsHeaders : option (list (string * string));
  arg_headless : option bool;
  arg_executablePath : option string;
  arg_channel : option string;
  arg_isolated : option bool;
  arg_viewport : option (Z * Z);
  arg_chromeArg : option (list string);
  arg_proxyServer : option string;
  arg_acceptInsecureCerts : option bool;
  arg_port : option Z;
  arg_logFile : option string;
  arg_experimentalDevtools : option bool;
  arg_experimentalIncludeAllPages : option bool;
  arg_categoryEmulation : JsValue;
  arg_categoryPerformance : JsValue;
  arg_categoryNetwork : JsValue
}.

Inductive NodeEnv : Type := development | production.

Record Config : Type := {
  browserUrl : option string;
  wsEndpoint : option string;
  wsHeaders : option (list (string * string));
  headless : bool;
  executablePath : option string;
  channel : option string;
  isolated : bool;
  viewport : option (Z * Z);
  chromeArg : option (list string);
  proxyServer : option string;
  acceptInsecureCerts : option bool;
  port : option Z;
  version : string;
  logFile : option string;
  experimentalDevtools : option bool;
  experimentalIncludeAllPages : option bool;
  categoryEmulation : bool;
  categoryPerformance : bool;
  categoryNetwork : bool;
  nodeEnv : NodeEnv;
  isProduction : bool
}.

(** [loadConfig(args, version)]; [NODE_ENV] is [process.env.NODE_ENV]. *)
Definition loadConfig (NODE_ENV : option string) (args : Args)
    (version : string) : Config :=
  let nodeEnv :=
    match NODE_ENV with
    | Some s => if String.eqb s "production" then production else development
    | None => development
    end in
  {| browserUrl := arg_browserUrl args;
     wsEndpoint := arg_wsEndpoint args;
     wsHeaders := arg_wsHeaders args;
     headless := nullish (arg_headless args) false;
     executablePath := arg_executablePath args;
     channel := arg_channel args;
     isolated := nullish (arg_isolated args) false;
     viewport := arg_viewport args;
     chromeArg := arg_chromeArg args;
     proxyServer := arg_proxyServer args;
     acceptInsecureCerts := arg_acceptInsecureCerts args;
     port :=
       match arg_port args with
       | Some p => if (p =? 0)%Z then None else Some p
       | None => None
       end;
     version := version;
     logFile := arg_logFile args;
     experimentalDevtools := Some (nullish (arg_experimentalDevtools args) false);
     experimentalIncludeAllPages :=
       Some (nullish (arg_experimentalIncludeAllPages args) false);
     categoryEmulation := strict_neq_false (arg_categoryEmulation args);
     categoryPerformance := strict_neq_false (arg_categoryPerformance args);
     categoryNetwork := strict_neq_false (arg_categoryNetwork args);
     nodeEnv := nodeEnv;
     isProduction :=
       match nodeEnv with production => true | development => false end |}.

End Configuration.

Import Configuration.

(** * server.ts: the tool catalogue *)

Module Registry.

(** Modelled from the spec: [tools/categories.ts] is not part of the sources
    at hand.  The data model gives the category of a tool as the enumeration
    EMULATION, PERFORMANCE, NETWORK and further categories, which [OTHER]
    stands for, with the further category's label. *)
Inductive ToolCategory : Type :=
| EMULATION
| PERFORMANCE
| NETWORK
| OTHER (label : string).

Record ToolAnnotations : Type := {
  category : ToolCategory
}.

(** A tool definition, without its schema and its handler: what a handler
    does in a call is an input of the invocation pipeline below. *)
Record ToolDefinition : Type := {
  name : string;
  description : string;
  annotations : ToolAnnotations
}.

(** The SDK's [McpServer], as far as [createServer] uses it: the server
    information and the tools registered so far, in registration order.
    The SDK keys its registry by name; the names of the tools are distinct
    (the statements about names below say where they rely on it). *)
Record McpServer : Type := {
  serverVersion : string;
  registeredTools : list ToolDefinition
}.

Definition server_registerTool (tool : ToolDefinition) (server : McpServer)
    : McpServer :=
  {| serverVersion := serverVersion server;
     registeredTools := registeredTools server ++ [tool] |}.

Definition is_EMULATION (c : ToolCategory) : bool :=
  match c with EMULATION => true | _ => false end.
Definition is_PERFORMANCE (c : ToolCategory) : bool :=
  match c with PERFORMANCE => true | _ => false end.
Definition is_NETWORK (c : ToolCategory) : bool :=
  match c with NETWORK => true | _ => false end.

(** [registerTool(tool)] of [createServer]: the three early returns, then the
    registration. *)
Definition registerTool (config : Config) (tool : ToolDefinition)
    (server : McpServer) : McpServer :=
  if is_EMULATION (category (annotations tool))
     && negb (categoryEmulation config) then server
  else if is_PERFORMANCE (category (annotations tool))
     && negb (categoryPerformance config) then server
  else if is_NETWORK (category (annotations tool))
     && negb (categoryNetwork config) then server
  else server_registerTool tool server.

(** The log file stream handed to [createServer], by its identity. *)
Definition WriteStream : Type := nat.

Section CreateServer.

(** [a.localeCompare(b)]: negative, zero or positive. *)
Variable localeCompare : string -> string -> Z.

(** [createServer(config, logFile)].  [tools] is the array spread from the
    tool modules, which are not part of the sources at hand. *)
Definition createServer (config : Config) (logFile : option WriteStream)
    (tools : list ToolDefinition) : McpServer :=
  let server := {| serverVersion := version config; registeredTools := [] |} in
  let tools :=
    array_sort (fun a b => localeCompare (name a) (name b)) tools in
  foldl (fun server tool => registerTool config tool server) server tools.

(** The names a client enumerating the catalogue sees, in order. *)
Definition tool_names (server : McpServer) : list string :=
  name <$> registeredTools server.

End CreateServer.

(** Whether the configuration leaves a category switched on. *)
Definition category_enabled (config : Config) (c : ToolCategory) : bool :=
  match c with
  | EMULATION => categoryEmulation config
  | PERFORMANCE => categoryPerformance config
  | NETWORK => categoryNetwork config
  | OTHER _ => true
  end.

Definition tool_enabled (config : Config) (tool : ToolDefinition) : Prop :=
  category_enabled config (category (annotations tool)) = true.

(** A tool of a category with a switch, whose switch is off. *)
Definition switched_off (config : Config) (tool : ToolDefinition) : Prop :=
  (category (annotations tool) = EMULATION /\ categoryEmulation config = false)
  \/ (category (annotations tool) = PERFORMANCE
      /\ categoryPerformance config = false)
  \/ (category (annotations tool) = NETWORK /\ categoryNetwork config = false).

(** The SDK's [McpServer.registerTool] refuses a name that is registered
    already: it throws, and so does [createServer].  The tool modules name
    each tool once; on such lists the definitions above are these. *)
Module Strict.

Definition server_registerTool (tool : ToolDefinition) (server : McpServer)
    : completion McpServer :=
  if decide (name tool ∈ name <$> registeredTools server)
  then Throw (JsError "Error"
                ("Tool " +:+ name tool +:+ " is already registered"))
  else Normal {| serverVersion := serverVersion server;
                 registeredTools := registeredTools server ++ [tool] |}.

(** [registerTool(tool)] of [createServer]. *)
Definition registerTool (config : Config) (tool : ToolDefinition)
    (server : McpServer) : completion McpServer :=
  if is_EMULATION (category (annotations tool))
     && negb (categoryEmulation config) then Normal server
  else if is_PERFORMANCE (category (annotations tool))
     && negb (categoryPerformance config) then Normal server
  else if is_NETWORK (category (annotations tool))
     && negb (categoryNetwork config) then Normal server
  else server_registerTool tool server.

(** [for (const tool of tools) registerTool(tool)]: a throw leaves the
    loop. *)
Definition register_all (config : Config) (tools : list ToolDefinition)
    (server : McpServer) : completion McpServer :=
  foldl (fun acc tool =>
           match acc with
           | Normal server => registerTool config tool server
           | _ => acc
           end)
    (Normal server) tools.

(** [createServer(config, logFile)] *)
Definition createServer (localeCompare : string -> string -> Z)
    (config : Config) (logFile : option WriteStream)
    (tools : list ToolDefinition) : completion McpServer :=
  let server := {| serverVersion := version config; registeredTools := [] |} in
  let tools :=
    array_sort (fun a b => localeCompare (name a) (name b)) tools in
  register_all config tools server.

End Strict.

End Registry.

Import Registry.

(** * server.ts: context resolver and invocation pipeline *)

Module Pipeline.

(** The driver's browser handle, by its identity. *)
Definition Browser : Type := nat.

Record McpContext : Type := {
  context_id : nat;
  browser : Browser;
  experimentalDevToolsDebugging : bool;
  includeAllPages : option bool
}.

Record ConnectOptions : Type := {
  connect_browserURL : option string;
  connect_wsEndpoint : option string;
  connect_wsHeaders : option (list (string * string));
  connect_devtools : bool
}.

Record LaunchOptions : Type := {
  launch_headless : bool;
  launch_executablePath : option string;
  launch_channel : option string;
  launch_isolated : bool;
  launch_logFile : option WriteStream;
  launch_viewport : option (Z * Z);
  launch_args : list string;
  launch_acceptInsecureCerts : option bool;
  launch_devtools : bool
}.

(** The arguments of a call, as [JSON.stringify(params, null, '  ')] prints
    them. *)
Definition Params : Type := string.

Inductive Content : Type :=
| TextContent (text : string)
| ImageContent (data mimeType : string).

Record CallToolResult : Type := {
  content : list Content;
  isError : option bool
}.

(** Modelled from the spec: [Mutex.ts] is not part of the sources at hand.
    The Dispatch Guard is a strict mutual-exclusion primitive: [acquire]
    suspends the caller until any prior holder has released, waiters are
    served in arrival order, and releasing hands the guard to the first
    waiter if there is one. *)
Record Mutex : Type := {
  locked : bool;
  acquirers : list nat
}.

(** Modelled from the spec: [acquire()] of the absent [Mutex.ts], by call
    [who]: the new state, and whether the guard was granted at once; a
    caller that finds the guard held joins the waiters, last. *)
Definition Mutex_acquire (who : nat) (m : Mutex) : Mutex * bool :=
  if locked m
  then ({| locked := true; acquirers := acquirers m ++ [who] |}, false)
  else ({| locked := true; acquirers := acquirers m |}, true).

(** Modelled from the spec: [release()] of the absent [Mutex.ts]: the new
    state, and the waiter the guard passes to, the first in line. *)
Definition Mutex_release (m : Mutex) : Mutex * option nat :=
  match acquirers m with
  | [] => ({| locked := false; acquirers := [] |}, None)
  | w :: ws => ({| locked := true; acquirers := ws |}, Some w)
  end.

(** What the pipeline does that is visible outside it, in order. *)
Inductive Event : Type :=
| Logged (message : string)
| MutexAcquire (call : nat)
| GuardDispose (call : nat)
| EnsureBrowserConnected (options : ConnectOptions)
| EnsureBrowserLaunched (options : LaunchOptions)
| McpContextFrom (b : Browser)
| DetectOpenDevToolsWindows (c : McpContext)
| HandlerCalled (tool : string) (params : Params) (c : McpContext)
| ResponseHandle (tool : string) (c : McpContext).

(** The state one [createServer] call closes over: [let context],
    [const toolMutex], and the record of its visible actions.
    [next_object_id] numbers the context objects built so far. *)
Record ServerState : Type := {
  context : option McpContext;
  next_object_id : nat;
  toolMutex : Mutex;
  trace : list Event
}.

Definition initial_state : ServerState :=
  {| context := None;
     next_object_id := 0;
     toolMutex := {| locked := false; acquirers := [] |};
     trace := [] |}.

(** What the collaborators answer during one call. *)
Record CallBehaviour : Type := {
  ensureBrowser_result : completion Browser;
  McpContext_from_result : completion unit;
  detectOpenDevToolsWindows_result : completion unit;
  handler_result : completion unit;
  response_handle_result : completion (list Content)
}.

(** ** Asynchronous code over the server state *)

Definition M (A : Type) : Type := ServerState -> completion A * ServerState.

Definition ret {A : Type} (a : A) : M A := fun st => (Normal a, st).

Definition throw {A : Type} (e : JsValue) : M A := fun st => (Throw e, st).

Definition bind {A B : Type} (m : M A) (k : A -> M B) : M B :=
  fun st =>
    match m st with
    | (Normal a, st') => k a st'
    | (Throw e, st') => (Throw e, st')
    | (Pending, st') => (Pending, st')
    end.

Notation "x <- m ;; k" := (bind m (fun x => k))
  (at level 100, m at next level, right associativity).
Notation "m ;;; k" := (bind m (fun _ => k))
  (at level 100, right associativity).

(** [try { body } catch (e) { handler e }] *)
Definition try_catch {A : Type} (body : M A) (handler : JsValue -> M A) : M A :=
  fun st =>
    match body st with
    | (Throw e, st') => handler e st'
    | r => r
    end.

(** [try { body } finally { final }]: [final] runs however [body] ends, unless
    it never ends. *)
Definition try_finally {A : Type} (body : M A) (final : M unit) : M A :=
  fun st =>
    match body st with
    | (Pending, st') => (Pending, st')
    | (r, st') =>
        match final st' with
        | (Normal _, st'') => (r, st'')
        | (Throw e, st'') => (Throw e, st'')
        | (Pending, st'') => (Pending, st'')
        end
    end.

Definition emit (ev : Event) : M unit :=
  fun st =>
    (Normal tt,
     {| context := context st;
        next_object_id := next_object_id st;
        toolMutex := toolMutex st;
        trace := trace st ++ [ev] |}).

(** [logger(message)] *)
Definition logger (message : string) : M unit := emit (Logged message).

(** [await call]: the call is made, and ends as the collaborator decides. *)
Definition await {A : Type} (call : Event) (result : completion A) : M A :=
  emit call ;;; (fun st => (result, st)).

(** Lifting the outcome of a synchronous expression. *)
Definition eval {A : Type} (result : completion A) : M A :=
  fun st => (result, st).

Definition read_context : M (option McpContext) :=
  fun st => (Normal (context st), st).

Definition write_context (c : McpContext) : M unit :=
  fun st =>
    (Normal tt,
     {| context := Some c;
        next_object_id := next_object_id st;
        toolMutex := toolMutex st;
        trace := trace st |}).

(** The object [McpContext.from] returns: a new one at each call. *)
Definition new_McpContext (b : Browser) (devtools : bool)
    (allPages : option bool) : M McpContext :=
  fun st =>
    (Normal {| context_id := next_object_id st;
               browser := b;
               experimentalDevToolsDebugging := devtools;
               includeAllPages := allPages |},
     {| context := context st;
        next_object_id := S (next_object_id st);
        toolMutex := toolMutex st;
        trace := trace st |}).

(** [await McpContext.from(browser, logger, options)] *)
Definition McpContext_from (b : Browser) (devtools : bool)
    (allPages : option bool) (result : completion unit) : M McpContext :=
  await (McpContextFrom b) result ;;;
  new_McpContext b devtools allPages.

(** [context?.browser !== browser] *)
Definition browser_differs (memo : option McpContext) (b : Browser) : bool :=
  match memo with
  | Some c => negb (Nat.eqb (browser c) b)
  | None => true
  end.

Section Server.

Variable config : Config.
Variable logFile : option WriteStream.

Definition extraArgs : list string :=
  nullish (chromeArg config) []
  ++ (if truthy (proxyServer config)
      then ["--proxy-server=" +:+ nullish (proxyServer config) ""]
      else []).

Definition devtools : bool := nullish (experimentalDevtools config) false.

Definition connectOptions : ConnectOptions :=
  {| connect_browserURL := browserUrl config;
     connect_wsEndpoint := wsEndpoint config;
     connect_wsHeaders := wsHeaders config;
     connect_devtools := devtools |}.

Definition launchOptions : LaunchOptions :=
  {| launch_headless := headless config;
     launch_executablePath := executablePath config;
     launch_channel := channel config;
     launch_isolated := isolated config;
     launch_logFile := logFile;
     launch_viewport := viewport config;
     launch_args := extraArgs;
     launch_acceptInsecureCerts := acceptInsecureCerts config;
     launch_devtools := devtools |}.

(** The driver call [getContext] makes. *)
Definition ensureBrowser_call : Event :=
  if truthy (browserUrl config) || truthy (wsEndpoint config)
  then EnsureBrowserConnected connectOptions
  else EnsureBrowserLaunched launchOptions.

(** [getContext()].  The function returns the variable [context], which
    holds [undefined] until the first context is built. *)
Definition getContext (b : CallBehaviour) : M (option McpContext) :=
  browser <- await ensureBrowser_call (ensureBrowser_result b) ;;
  memo <- read_context ;;
  (if browser_differs memo browser then
     c <- McpContext_from browser devtools
            (experimentalIncludeAllPages config)
            (McpContext_from_result b) ;;
     write_context c
   else ret tt) ;;;
  read_context.

(** [await toolMutex.acquire()], in a call running on its own: when the
    guard is taken the call waits in the queue, and nothing here resumes
    it. *)
Definition acquire (call : nat) : M unit :=
  fun st =>
    let (m, granted) := Mutex_acquire call (toolMutex st) in
    (if granted then Normal tt else Pending,
     {| context := context st;
        next_object_id := next_object_id st;
        toolMutex := m;
        trace := trace st ++ [MutexAcquire call] |}).

(** [guard.dispose()] *)
Definition dispose (call : nat) : M unit :=
  fun st =>
    (Normal tt,
     {| context := context st;
        next_object_id := next_object_id st;
        toolMutex := fst (Mutex_release (toolMutex st));
        trace := trace st ++ [GuardDispose call] |}).

(** The receiver of [context.detectOpenDevToolsWindows()]: calling a method
    of [undefined] throws a [TypeError]. *)
Definition method_receiver (c : option McpContext) : completion McpContext :=
  match c with
  | Some c => Normal c
  | None =>
      Throw (JsError "TypeError"
               "Cannot read properties of undefined (reading 'detectOpenDevToolsWindows')")
  end.

(** [error instanceof Error ? error.message : String(error)] *)
Definition errorText (error : JsValue) : string :=
  match error with
  | JsError _ message => message
  | _ => ToString error
  end.

(** The outer [catch (err)] clause of the callback: [error.message] is read
    while the log line is built, then [err] is thrown again. *)
Definition catch_clause (t : ToolDefinition) (err : JsValue)
    : M CallToolResult :=
  message <- eval (GetMessage err) ;;
  logger (name t +:+ " error: " +:+ ToString message) ;;;
  throw err.

(** The callback [registerTool] hands to the SDK for [tool]: one tool
    invocation, numbered [call]. *)
Definition toolCallback (tool : ToolDefinition) (call : nat)
    (params : Params) (b : CallBehaviour) : M CallToolResult :=
  acquire call ;;;
  try_finally
    (try_catch
       (logger (name tool +:+ " request: " +:+ params) ;;;
        resolved <- getContext b ;;
        logger (name tool +:+ " context: resolved") ;;;
        context <- eval (method_receiver resolved) ;;
        await (DetectOpenDevToolsWindows context)
          (detectOpenDevToolsWindows_result b) ;;;
        await (HandlerCalled (name tool) params context)
          (handler_result b) ;;;
        try_catch
          (content <- await (ResponseHandle (name tool) context)
                        (response_handle_result b) ;;
           ret {| content := content; isError := None |})
          (fun error =>
             ret {| content := [TextContent (errorText error)];
                    isError := Some true |}))
       (catch_clause tool))
    (dispose call).

End Server.

(** Object identities are handed out in order: the memoized context was
    numbered before the next one to be built. *)
Definition well_numbered (st : ServerState) : Prop :=
  forall c, context st = Some c -> context_id c < next_object_id st.

(** The guard is free and nobody waits for it. *)
Definition guard_free (st : ServerState) : Prop :=
  toolMutex st = {| locked := false; acquirers := [] |}.

Definition is_guard_event (ev : Event) : bool :=
  match ev with
  | MutexAcquire _ | GuardDispose _ => true
  | _ => false
  end.

(** Events that touch the guard nowhere, then end with [dispose] by
    [call]. *)
Fixpoint body_then_dispose (call : nat) (evs : list Event) : bool :=
  match evs with
  | [] => false
  | [GuardDispose c] => Nat.eqb c call
  | ev :: rest => negb (is_guard_event ev) && body_then_dispose call rest
  end.

(** The events of a call that took the guard first, released it last, and
    did both once. *)
Definition acquire_body_dispose (call : nat) (evs : list Event) : bool :=
  match evs with
  | MutexAcquire c :: rest => Nat.eqb c call && body_then_dispose call rest
  | _ => false
  end.

(** How often [call] took and disposed the guard. *)
Definition is_acquire (call : nat) (ev : Event) : bool :=
  match ev with
  | MutexAcquire c => Nat.eqb c call
  | _ => false
  end.

Definition is_dispose (call : nat) (ev : Event) : bool :=
  match ev with
  | GuardDispose c => Nat.eqb c call
  | _ => false
  end.

Definition count_acquire (call : nat) (tr : list Event) : nat :=
  length (List.filter (is_acquire call) tr).

Definition count_dispose (call : nat) (tr : list Event) : nat :=
  length (List.filter (is_dispose call) tr).

(** What a call added to the record of the server. *)
Definition events_since (st st' : ServerState) : list Event :=
  drop (length (trace st)) (trace st').

Definition is_error_log (ev : Event) (t : ToolDefinition) : Prop :=
  exists text, ev = Logged (name t +:+ " error: " +:+ text).

End Pipeline.

Import Pipeline.

(** * server.ts: invocations of one server instance, interleaved *)

Module Dispatch.

(** Where a tool invocation stands.  The phases are the points at which the
    callback of [registerTool] awaits: the guard, the driver, the context
    build, the inspector check, the handler, the finalization.  An
    invocation moves from one phase to the next when the awaited promise
    settles, and other invocations may move in between. *)
Inductive Phase : Type :=
| Queued
| Waiting
| Guarded
| ContextResolving
| ContextBuilding (b : Browser)
| Detecting (c : McpContext)
| HandlerRunning (c : McpContext)
| ResponseBuilding (c : McpContext)
| Done (result : CallToolResult)
| Failed (e : JsValue).

Record Invocation : Type := {
  tool : ToolDefinition;
  params : Params;
  behaviour : CallBehaviour;
  phase : Phase
}.

Definition with_phase (inv : Invocation) (ph : Phase) : Invocation :=
  {| tool := tool inv;
     params := params inv;
     behaviour := behaviour inv;
     phase := ph |}.

(** The guard is held from the moment [acquire] returns to [dispose]. *)
Definition holds_guard (ph : Phase) : bool :=
  match ph with
  | Guarded | ContextResolving | ContextBuilding _ | Detecting _
  | HandlerRunning _ | ResponseBuilding _ => true
  | Queued | Waiting | Done _ | Failed _ => false
  end.

Definition finished (ph : Phase) : bool :=
  match ph with
  | Done _ | Failed _ => true
  | _ => false
  end.

Definition is_queued (ph : Phase) : bool :=
  match ph with
  | Queued => true
  | _ => false
  end.

(** What holds of the guard, the record of events and the phases of the
    invocations, whatever the interleaving.  [holder] is the invocation that
    holds the guard, if any. *)
Record guard_invariant (holder : option nat) (m : Mutex) (tr : list Event)
    (phs : list Phase) : Prop := {
  locked_iff_held : locked m = true <-> is_Some holder;
  holder_holds :
    forall i a, phs !! i = Some a -> (holds_guard a = true <-> holder = Some i);
  holder_is_a_call : forall i, holder = Some i -> i < length phs;
  waiters_wait : forall i, i ∈ acquirers m <-> phs !! i = Some Waiting;
  waiters_once : NoDup (acquirers m);
  free_no_waiters : holder = None -> acquirers m = [];
  guard_counts :
    forall i a,
      phs !! i = Some a ->
      count_acquire i tr = (if is_queued a then 0 else 1)
      /\ count_dispose i tr = (if finished a then 1 else 0);
  no_call_no_event :
    forall i,
      length phs <= i -> count_acquire i tr = 0 /\ count_dispose i tr = 0
}.

(** What a move of [call] adds to the counts of guard events. *)
Definition adds_guard_events (call : nat) (acquires disposes : nat)
    (tr tr' : list Event) : Prop :=
  forall k,
    count_acquire k tr' =
    count_acquire k tr + (if Nat.eqb call k then acquires else 0)
    /\ count_dispose k tr' =
       count_dispose k tr + (if Nat.eqb call k then disposes else 0).

Section Server.

Variable config : Config.
Variable logFile : option WriteStream.

(** Leaving the [try] statement: [leave] is what ends it (a [return], or the
    catch clause), then the [finally] clause disposes the guard, which
    resumes the first waiter. *)
Definition finish (call : nat) (leave : M CallToolResult) (st : ServerState)
    : option (ServerState * Phase * option nat) :=
  let (r, st1) := leave st in
  let woken := snd (Mutex_release (toolMutex st1)) in
  let st2 := snd (dispose call st1) in
  match r with
  | Normal result => Some (st2, Done result, woken)
  | Throw e => Some (st2, Failed e, woken)
  | Pending => None
  end.

(** From [return context] in [getContext] to the call of
    [detectOpenDevToolsWindows]. *)
Definition after_context (call : nat) (inv : Invocation) (st : ServerState)
    : option (ServerState * Phase * option nat) :=
  match (resolved <- read_context ;;
         logger (name (tool inv) +:+ " context: resolved") ;;;
         eval (method_receiver resolved)) st with
  | (Normal c, st1) =>
      Some (snd (emit (DetectOpenDevToolsWindows c) st1), Detecting c, None)
  | (Throw e, st1) => finish call (catch_clause (tool inv) e) st1
  | (Pending, _) => None
  end.

(** One move of invocation [call]: the new server state, the phase reached,
    and the waiter resumed by a [dispose].  [None]: the invocation cannot
    move (it waits for the guard, for a promise that never settles, or it is
    over). *)
Definition advance (call : nat) (inv : Invocation) (st : ServerState)
    : option (ServerState * Phase * option nat) :=
  let t := tool inv in
  let b := behaviour inv in
  match phase inv with
  | Queued =>
      match acquire call st with
      | (Normal _, st') => Some (st', Guarded, None)
      | (_, st') => Some (st', Waiting, None)
      end
  | Waiting => None
  | Guarded =>
      Some (snd ((logger (name t +:+ " request: " +:+ params inv) ;;;
                  emit (ensureBrowser_call config logFile)) st),
            ContextResolving, None)
  | ContextResolving =>
      match ensureBrowser_result b with
      | Normal browser =>
          if browser_differs (context st) browser
          then Some (snd (emit (McpContextFrom browser) st),
                     ContextBuilding browser, None)
          else after_context call inv st
      | Throw e => finish call (catch_clause t e) st
      | Pending => None
      end
  | ContextBuilding browser =>
      match McpContext_from_result b with
      | Normal _ =>
          after_context call inv
            (snd ((c <- new_McpContext browser (devtools config)
                          (experimentalIncludeAllPages config) ;;
                   write_context c) st))
      | Throw e => finish call (catch_clause t e) st
      | Pending => None
      end
  | Detecting c =>
      match detectOpenDevToolsWindows_result b with
      | Normal _ =>
          Some (snd (emit (HandlerCalled (name t) (params inv) c) st),
                HandlerRunning c, None)
      | Throw e => finish call (catch_clause t e) st
      | Pending => None
      end
  | HandlerRunning c =>
      match handler_result b with
      | Normal _ =>
          Some (snd (emit (ResponseHandle (name t) c) st),
                ResponseBuilding c, None)
      | Throw e => finish call (catch_clause t e) st
      | Pending => None
      end
  | ResponseBuilding c =>
      match response_handle_result b with
      | Normal content =>
          finish call (ret {| content := content; isError := None |}) st
      | Throw error =>
          finish call
            (ret {| content := [TextContent (errorText error)];
                    isError := Some true |}) st
      | Pending => None
      end
  | Done _ => None
  | Failed _ => None
  end.

(** The invocations of one server instance; an invocation is known by its
    position, the order of arrival. *)
Record Pool : Type := {
  server : ServerState;
  calls : list Invocation
}.

Definition initial_pool : Pool :=
  {| server := initial_state; calls := [] |}.

Definition phases (p : Pool) : list Phase := phase <$> calls p.

Definition resume_phases (woken : option nat) (phs : list Phase)
    : list Phase :=
  match woken with
  | Some w => <[w := Guarded]> phs
  | None => phs
  end.

(** The waiter [release] resumes gets the guard. *)
Definition resume (woken : option nat) (l : list Invocation)
    : list Invocation :=
  match woken with
  | Some w => alter (fun inv => with_phase inv Guarded) w l
  | None => l
  end.

(** The server instance at work: a client calls a tool, or one of the
    invocations under way moves on.  Any interleaving is allowed. *)
Inductive step : Pool -> Pool -> Prop :=
| step_arrive p t ps b :
    step p
      {| server := server p;
         calls := calls p ++ [{| tool := t; params := ps; behaviour := b;
                                 phase := Queued |}] |}
| step_advance p i inv st' ph' woken :
    calls p !! i = Some inv ->
    advance i inv (server p) = Some (st', ph', woken) ->
    step p
      {| server := st';
         calls := resume woken (<[i := with_phase inv ph']> (calls p)) |}.

Definition reachable (p : Pool) : Prop := rtc step initial_pool p.

(** A schedule: which client calls arrive and which invocations move, in
    order.  A move that is not possible leaves the pool as it is. *)
Inductive Move : Type :=
| Arrive (t : ToolDefinition) (ps : Params) (b : CallBehaviour)
| Advance (i : nat).

Definition apply_move (mv : Move) (p : Pool) : Pool :=
  match mv with
  | Arrive t ps b =>
      {| server := server p;
         calls := calls p ++ [{| tool := t; params := ps; behaviour := b;
                                 phase := Queued |}] |}
  | Advance i =>
      match calls p !! i with
      | Some inv =>
          match advance i inv (server p) with
          | Some (st', ph', woken) =>
              {| server := st';
                 calls := resume woken (<[i := with_phase inv ph']> (calls p)) |}
          | None => p
          end
      | None => p
      end
  end.

Definition run_schedule (moves : list Move) (p : Pool) : Pool :=
  foldl (fun p mv => apply_move mv p) p moves.

(** One invocation run on its own for [fuel] moves. *)
Fixpoint run_alone (fuel : nat) (call : nat) (inv : Invocation)
    (st : ServerState) : Invocation * ServerState :=
  match fuel with
  | O => (inv, st)
  | S fuel' =>
      match advance call inv st with
      | Some (st', ph', _) => run_alone fuel' call (with_phase inv ph') st'
      | None => (inv, st)
      end
  end.

End Server.

End Dispatch.

(** * The HTTP transport ([startHttpTransport] and its handlers) *)

Module Http.

Inductive Body : Type :=
| TextBody (text : string)
| JsonBody (fields : list (string * string)).

(** Node's [ServerResponse], as far as the handlers and the SDK use it.
    [sent] is the status line and the headers once they are fixed, which is
    what the client receives: [writeHead] fixes them, and so does the first
    write, flush or end, with an implicit head; until then [statusCode] is
    what an implicit head will carry, and afterwards setting it changes
    nothing for the client. *)
Record ServerResponse : Type := {
  statusCode : Z;
  sent : option (Z * list (string * string));
  body : list Body;
  writableEnded : bool
}.

(** The response Node hands to the request listener. *)
Definition fresh_response : ServerResponse :=
  {| statusCode := 200; sent := None; body := []; writableEnded := false |}.

(** [res.statusCode = code] *)
Definition set_statusCode (code : Z) (res : ServerResponse) : ServerResponse :=
  {| statusCode := code;
     sent := sent res;
     body := body res;
     writableEnded := writableEnded res |}.

(** [res.writeHead(code, headers)]: throws once the headers have left. *)
Definition writeHead (code : Z) (headers : list (string * string))
    (res : ServerResponse) : completion ServerResponse :=
  match sent res with
  | Some _ =>
      Throw (JsError "Error" "Cannot write headers after they are sent to the client")
  | None =>
      Normal {| statusCode := code;
                sent := Some (code, headers);
                body := body res;
                writableEnded := writableEnded res |}
  end.

(** [res.end(data)]: sends the implicit header if none has left, then the
    data; a response already ended stays as it is. *)
Definition end_response (data : Body) (res : ServerResponse) : ServerResponse :=
  if writableEnded res then res
  else
    {| statusCode := statusCode res;
       sent := match sent res with
               | Some h => Some h
               | None => Some (statusCode res, [])
               end;
       body := body res ++ [data];
       writableEnded := true |}.

(** [res.write(data)]: sends the implicit header if none has left, then the
    data, and leaves the response open; Node refuses a write after the end
    and the response stays as it is. *)
Definition write (data : Body) (res : ServerResponse) : ServerResponse :=
  if writableEnded res then res
  else
    {| statusCode := statusCode res;
       sent := match sent res with
               | Some h => Some h
               | None => Some (statusCode res, [])
               end;
       body := body res ++ [data];
       writableEnded := false |}.

(** [res.flushHeaders()]: sends the implicit header if none has left. *)
Definition flushHeaders (res : ServerResponse) : ServerResponse :=
  {| statusCode := statusCode res;
     sent := match sent res with
             | Some h => Some h
             | None => Some (statusCode res, [])
             end;
     body := body res;
     writableEnded := writableEnded res |}.

(** The status the client receives. *)
Definition status_sent (res : ServerResponse) : option Z := fst <$> sent res.

Record IncomingMessage : Type := {
  method : string;
  pathname : string;
  mcp_session_id : option string
}.

(** A transport adapter and a session, holding objects by identity. *)
Record Transport : Type := {
  sessionId : option string;
  owner : nat
}.

Record Session : Type := {
  transport : nat;
  server : nat
}.

(** The module state: the [sessions] map, the transports and server
    instances built so far, and the lines logged. *)
Record World : Type := {
  sessions : gmap string Session;
  transports : gmap nat Transport;
  next_transport : nat;
  servers_created : nat;
  logged : list string
}.

(** What the SDK does to a transport while a call into it runs: it
    initializes the session (it stores the generated identifier in
    [sessionId] and calls [onsessioninitialized]), it closes the transport
    (it calls [onclose]), or it uses the response: it sets the status code,
    writes the head, flushes it, writes data, or ends the response. *)
Inductive SdkAction : Type :=
| InitializeSession (id : string)
| Close
| SetStatus (code : Z)
| WriteHead (code : Z) (headers : list (string * string))
| FlushHeaders
| Write (data : Body)
| End (data : Body).

Record SdkCall : Type := {
  actions : list SdkAction;
  outcome : completion unit
}.

(** What the SDK does during one request. *)
Record SdkBehaviour : Type := {
  on_connect : SdkCall;
  on_handleRequest : SdkCall
}.

Definition initializes (a : SdkAction) : bool :=
  match a with InitializeSession _ => true | _ => false end.

Definition ends_response (a : SdkAction) : bool :=
  match a with End _ => true | _ => false end.

(** The actions after which the status line has left: the client's status
    is settled by the first of them. *)
Definition sends_head (a : SdkAction) : bool :=
  match a with
  | WriteHead _ _ | FlushHeaders | Write _ | End _ => true
  | _ => false
  end.

Definition closes (a : SdkAction) : bool :=
  match a with Close => true | _ => false end.

(** The actions by which the SDK itself makes the status 500. *)
Definition answers_500 (a : SdkAction) : bool :=
  match a with
  | SetStatus code | WriteHead code _ => (code =? 500)%Z
  | _ => false
  end.

Definition log (line : string) (w : World) : World :=
  {| sessions := sessions w;
     transports := transports w;
     next_transport := next_transport w;
     servers_created := servers_created w;
     logged := logged w ++ [line] |}.

Definition with_sessions (m : gmap string Session) (w : World) : World :=
  {| sessions := m;
     transports := transports w;
     next_transport := next_transport w;
     servers_created := servers_created w;
     logged := logged w |}.

(** The [onsessioninitialized] callback of [createNewSession], for the
    transport [t] of server instance [sv]. *)
Definition onsessioninitialized (t sv : nat) (id : string) (w : World) : World :=
  log ("New session created: " +:+ id)
    (with_sessions (<[id := {| transport := t; server := sv |}]> (sessions w)) w).

(** The [onclose] callback of [createNewSession], for the transport [t]. *)
Definition onclose (t : nat) (w : World) : World :=
  match transports w !! t with
  | Some tr =>
      if truthy (sessionId tr)
      then log ("Session closed: " +:+ nullish (sessionId tr) "")
             (with_sessions (delete (nullish (sessionId tr) "") (sessions w)) w)
      else w
  | None => w
  end.

Definition set_sessionId (t : nat) (id : string) (w : World) : World :=
  {| sessions := sessions w;
     transports :=
       alter (fun tr => {| sessionId := Some id; owner := owner tr |}) t
         (transports w);
     next_transport := next_transport w;
     servers_created := servers_created w;
     logged := logged w |}.

(** One action of the SDK on transport [t], on the response and the module
    state.  A [writeHead] that Node refuses throws inside the SDK and leaves
    the response as it was; how the call of the SDK ends is its
    [outcome]. *)
Definition run_action (t : nat) (a : SdkAction)
    (s : ServerResponse * World) : ServerResponse * World :=
  let (res, w) := s in
  match a with
  | InitializeSession id =>
      let w1 := set_sessionId t id w in
      match transports w1 !! t with
      | Some tr => (res, onsessioninitialized t (owner tr) id w1)
      | None => (res, w1)
      end
  | Close => (res, onclose t w)
  | SetStatus code => (set_statusCode code res, w)
  | WriteHead code headers =>
      match writeHead code headers res with
      | Normal res1 => (res1, w)
      | _ => (res, w)
      end
  | FlushHeaders => (flushHeaders res, w)
  | Write data => (write data res, w)
  | End data => (end_response data res, w)
  end.

(** A call into the SDK on transport [t]: [server.connect(transport)] or
    [transport.handleRequest(req, res)]. *)
Definition sdk_call (t : nat) (c : SdkCall) (res : ServerResponse) (w : World)
    : completion unit * ServerResponse * World :=
  let (res', w') := foldl (fun s a => run_action t a s) (res, w) (actions c) in
  (outcome c, res', w').

(** [serverFactory()], then [new StreamableHTTPServerTransport(...)]: the
    new server instance and the new transport. *)
Definition build_session (w : World) : nat * nat * World :=
  let sv := servers_created w in
  let t := next_transport w in
  (sv, t,
   {| sessions := sessions w;
      transports := <[t := {| sessionId := None; owner := sv |}]> (transports w);
      next_transport := S t;
      servers_created := S sv;
      logged := logged w |}).

(** [createNewSession(req, res, serverFactory)] *)
Definition createNewSession (req : IncomingMessage) (res : ServerResponse)
    (sdk : SdkBehaviour) (w : World) : completion unit * ServerResponse * World :=
  let '(sv, t, w0) := build_session w in
  match sdk_call t (on_connect sdk) res w0 with
  | (Normal _, res1, w1) =>
      match sdk_call t (on_handleRequest sdk) res1 w1 with
      | (Normal _, res2, w2) => (Normal tt, res2, w2)
      | (Throw error, res2, w2) =>
          (Normal tt,
           end_response (TextBody "Internal server error")
             (set_statusCode 500 res2),
           log ("HTTP connection error: " +:+ ToString error) w2)
      | (Pending, res2, w2) => (Pending, res2, w2)
      end
  | (Throw error, res1, w1) =>
      (Normal tt,
       end_response (TextBody "Internal server error") (set_statusCode 500 res1),
       log ("HTTP connection error: " +:+ ToString error) w1)
  | (Pending, res1, w1) => (Pending, res1, w1)
  end.

(** The actions of the SDK that [createNewSession] lives through: those of
    [connect], and those of [handleRequest] when [connect] returned. *)
Definition performed (sdk : SdkBehaviour) : list SdkAction :=
  match outcome (on_connect sdk) with
  | Normal _ => actions (on_connect sdk) ++ actions (on_handleRequest sdk)
  | _ => actions (on_connect sdk)
  end.

(** [handleMcpRequest(req, res, serverFactory)] *)
Definition handleMcpRequest (req : IncomingMessage) (res : ServerResponse)
    (sdk : SdkBehaviour) (w : World) : completion unit * ServerResponse * World :=
  let sessionId := mcp_session_id req in
  if truthy sessionId then
    match sessions w !! nullish sessionId "" with
    | None =>
        (Normal tt,
         end_response (TextBody "Session not found") (set_statusCode 404 res),
         w)
    | Some session =>
        sdk_call (transport session) (on_handleRequest sdk) res w
    end
  else if String.eqb (method req) "POST" then createNewSession req res sdk w
  else
    (Normal tt,
     end_response (TextBody "Invalid request") (set_statusCode 400 res),
     w).

(** [handleHealthCheck(res)]; [now] is [new Date().toISOString()], and the
    body is the object handed to [JSON.stringify]. *)
Definition handleHealthCheck (now : string) (res : ServerResponse)
    : completion unit * ServerResponse :=
  match writeHead 200 [("Content-Type", "application/json")] res with
  | Normal res1 =>
      (Normal tt,
       end_response (JsonBody [("status", "healthy"); ("timestamp", now)]) res1)
  | Throw e => (Throw e, res)
  | Pending => (Pending, res)
  end.

(** [handleNotFound(res)] *)
Definition handleNotFound (res : ServerResponse)
    : completion unit * ServerResponse :=
  match writeHead 404 [("Content-Type", "text/plain")] res with
  | Normal res1 => (Normal tt, end_response (TextBody "Not Found") res1)
  | Throw e => (Throw e, res)
  | Pending => (Pending, res)
  end.

(** The [request] listener of [startHttpTransport], on the response Node
    creates for the request.  [pathname req] is [url.pathname], the path of
    the URL that [new URL(req.url, ...)] makes of the request target and the
    [Host] header, in the form that constructor gives it.  Requests of which
    it makes no URL, for which it throws, are not covered. *)
Definition onRequest (req : IncomingMessage) (now : string)
    (sdk : SdkBehaviour) (w : World) : completion unit * ServerResponse * World :=
  let res := fresh_response in
  if String.eqb (pathname req) "/mcp" then handleMcpRequest req res sdk w
  else if String.eqb (pathname req) "/health" then
    (handleHealthCheck now res, w)
  else (handleNotFound res, w).

End Http.

(** * The start of the process: [main], [runStdioTransport], [startHttpTransport] *)

Module Startup.

(** [const VERSION] of the entry point. *)
Definition VERSION : string := "0.10.1".

(** What the start of the process writes: a [logger] line, a
    [console.error] text, or the report of a fatal error,
    [console.error('Fatal error running Chrome DevTools MCP server:', error)]. *)
Inductive Output : Type :=
| LoggerLine (line : string)
| ConsoleError (text : string)
| FatalError (error : JsValue).

(** The text [logDisclaimers] prints. *)
Definition disclaimer : string :=
  "chrome-devtools-mcp exposes content of the browser instance to the MCP clients allowing them to inspect,
debug, and modify any data in the browser or DevTools.
Avoid sharing sensitive or personal information that you do not want to share with MCP clients.".

(** [runStdioTransport(server)]; [connect_result] is how
    [server.connect(transport)] ends. *)
Definition runStdioTransport (connect_result : completion unit)
    : completion unit * list Output :=
  match connect_result with
  | Normal _ =>
      (Normal tt,
       [LoggerLine "Chrome DevTools MCP Server connected via STDIO";
        ConsoleError disclaimer])
  | Throw e => (Throw e, [])
  | Pending => (Pending, [])
  end.

(** Truthiness of an optional number: [undefined] and [0] are falsy. *)
Definition truthy_number (o : option Z) : bool :=
  match o with
  | Some n => negb (n =? 0)%Z
  | None => false
  end.

(** [config.port || 3000] *)
Definition listen_port (config : Config) : Z :=
  if truthy_number (port config) then nullish (port config) 0%Z else 3000%Z.

(** [config.isProduction ? '0.0.0.0' : 'localhost'] *)
Definition listen_host (config : Config) : string :=
  if isProduction config then "0.0.0.0" else "localhost".

(** Node's [listen] refuses, by throwing, a port outside 0..65535. *)
Definition valid_port (p : Z) : bool := (0 <=? p)%Z && (p <? 65536)%Z.

(** [startHttpTransport(config, serverFactory)], up to the call of [listen]:
    the address the server listens on.  The [request] listener it installs
    is [Http.onRequest]; what [logServerStart] prints once the server
    listens is left out, and so is a failure to bind, which Node reports
    later, as an event. *)
Definition startHttpTransport (config : Config) : completion (Z * string) :=
  if valid_port (listen_port config)
  then Normal (listen_port config, listen_host config)
  else
    Throw (JsError "RangeError"
             ("options.port should be >= 0 and < 65536. Received type number ("
              +:+ pretty (listen_port config) +:+ ").")).

(** What [main] finds around it: the environment variables, and how the
    calls it makes end. *)
Record Environment : Type := {
  env_NODE_ENV : option string;
  env_PORT : option string;
  parseArguments_result : completion Args;
  saveLogsToFile_result : completion WriteStream;
  connect_result : completion unit
}.

Inductive Started : Type :=
| HttpTransport (port : Z) (host : string)
| StdioTransport.

(** What a run of [main] comes to: the exit code if [process.exit] was
    called, what was written until [main] returned (the callback of
    [listen] prints later), the transport that serves, and the log file
    stream opened. *)
Record Run : Type := {
  exit_code : option Z;
  output : list Output;
  started : option Started;
  log_stream : option WriteStream
}.

(** The [catch (error)] clause of [main]. *)
Definition fatal (error : JsValue) (written : list Output)
    (stream : option WriteStream) : Run :=
  {| exit_code := Some 1%Z;
     output := written ++ [FatalError error];
     started := None;
     log_stream := stream |}.

(** A call of [main] that never returns from an awaited promise. *)
Definition hangs (written : list Output) (stream : option WriteStream) : Run :=
  {| exit_code := None;
     output := written;
     started := None;
     log_stream := stream |}.

(** [config.logFile ? saveLogsToFile(config.logFile) : undefined] *)
Definition open_log (config : Config) (result : completion WriteStream)
    : completion (option WriteStream) :=
  if truthy (logFile config) then
    match result with
    | Normal stream => Normal (Some stream)
    | Throw e => Throw e
    | Pending => Pending
    end
  else Normal None.

(** [main()] *)
Definition main (env : Environment) : Run :=
  match parseArguments_result env with
  | Normal args =>
      let config := loadConfig (env_NODE_ENV env) args VERSION in
      match open_log config (saveLogsToFile_result env) with
      | Normal stream =>
          if truthy_number (port config) || truthy (env_PORT env) then
            match startHttpTransport config with
            | Normal (p, h) =>
                {| exit_code := None;
                   output := [];
                   started := Some (HttpTransport p h);
                   log_stream := stream |}
            | Throw e => fatal e [] stream
            | Pending => hangs [] stream
            end
          else
            match runStdioTransport (connect_result env) with
            | (Normal _, written) =>
                {| exit_code := None;
                   output := written;
                   started := Some StdioTransport;
                   log_stream := stream |}
            | (Throw e, written) => fatal e written stream
            | (Pending, written) => hangs written stream
            end
      | Throw e => fatal e [] None
      | Pending => hangs [] None
      end
  | Throw e => fatal e [] None
  | Pending => hangs [] None
  end.

End Startup.

(** * The HTTP transport over many requests *)

Module HttpRuns.

Import Http.

(** [const sessions = new Map()], before any request. *)
Definition initial_world : World :=
  {| sessions := ∅;
     transports := ∅;
     next_transport := 0;
     servers_created := 0;
     logged := [] |}.

(** What the handlers do to the module state, one step at a time: they
    build a session, an SDK call they await runs a callback or writes to the
    response, they log.  Requests handled at the same time interleave such
    steps. *)
Inductive world_step : World -> World -> Prop :=
| step_build w : world_step w (snd (build_session w))
| step_action w t a res : world_step w (snd (run_action t a (res, w)))
| step_log w line : world_step w (log line w).

(** Every transport was built with a server instance of its own, and an
    entry of the registry pairs a transport with its server instance. *)
Record registry_ok (w : World) : Prop := {
  transports_known :
    forall t tr,
      transports w !! t = Some tr ->
      t < next_transport w /\ owner tr < servers_created w;
  owners_differ :
    forall t1 t2 tr1 tr2,
      transports w !! t1 = Some tr1 -> transports w !! t2 = Some tr2 ->
      owner tr1 = owner tr2 -> t1 = t2;
  sessions_paired :
    forall id s,
      sessions w !! id = Some s ->
      owner <$> transports w !! transport s = Some (server s)
}.

(** The SDK only uses the response. *)
Definition only_writes (a : SdkAction) : bool :=
  negb (initializes a) && negb (closes a).

(** A request as the listener meets it: the message, the clock, and what
    the SDK does while it is handled. *)
Record Exchange : Type := {
  request : IncomingMessage;
  clock : string;
  sdk : SdkBehaviour
}.

(** Requests handled one after the other. *)
Definition serve (l : list Exchange) (w : World) : World :=
  foldl (fun w x => snd (onRequest (request x) (clock x) (sdk x) w)) w l.

End HttpRuns.

(** * What a call shows *)

Module Observation.

Definition is_driver_call (ev : Event) : bool :=
  match ev with
  | EnsureBrowserConnected _ | EnsureBrowserLaunched _ => true
  | _ => false
  end.

Definition is_connect (ev : Event) : bool :=
  match ev with
  | EnsureBrowserConnected _ => true
  | _ => false
  end.

Definition is_context_build (ev : Event) : bool :=
  match ev with
  | McpContextFrom _ => true
  | _ => false
  end.

Definition is_inspector_check (ev : Event) : bool :=
  match ev with
  | DetectOpenDevToolsWindows _ => true
  | _ => false
  end.

Definition is_handler_call (ev : Event) : bool :=
  match ev with
  | HandlerCalled _ _ _ => true
  | _ => false
  end.

Definition is_finalization (ev : Event) : bool :=
  match ev with
  | ResponseHandle _ _ => true
  | _ => false
  end.

(** How many of the events are of a kind. *)
Definition count (kind : Event -> bool) (evs : list Event) : nat :=
  length (List.filter kind evs).

(** The thrown values whose [message] property can be read. *)
Definition readable (v : JsValue) : bool :=
  match v with
  | JsUndefined | JsNull => false
  | _ => true
  end.

(** The events that hand a context to a collaborator hand it [c]. *)
Definition uses_context (c : McpContext) (ev : Event) : Prop :=
  match ev with
  | DetectOpenDevToolsWindows c' | HandlerCalled _ _ c'
  | ResponseHandle _ c' => c' = c
  | _ => True
  end.

(** Whether an awaited promise settles. *)
Definition settles {A : Type} (r : completion A) : bool :=
  match r with
  | Pending => false
  | _ => true
  end.

End Observation.

(** * Sample data *)

Module Example.

Definition no_args : Args :=
  {| arg_browserUrl := None;
     arg_wsEndpoint := None;
     arg_wsHeaders := None;
     arg_headless := None;
     arg_executablePath := None;
     arg_channel := None;
     arg_isolated := None;
     arg_viewport := None;
     arg_chromeArg := None;
     arg_proxyServer := None;
     arg_acceptInsecureCerts := None;
     arg_port := None;
     arg_logFile := None;
     arg_experimentalDevtools := None;
     arg_experimentalIncludeAllPages := None;
     arg_categoryEmulation := JsUndefined;
     arg_categoryPerformance := JsUndefined;
     arg_categoryNetwork := JsUndefined |}.

(** [--no-category-emulation] *)
Definition no_emulation_args : Args :=
  {| arg_browserUrl := None;
     arg_wsEndpoint := None;
     arg_wsHeaders := None;
     arg_headless := None;
     arg_executablePath := None;
     arg_channel := None;
     arg_isolated := None;
     arg_viewport := None;
     arg_chromeArg := None;
     arg_proxyServer := None;
     arg_acceptInsecureCerts := None;
     arg_port := None;
     arg_logFile := None;
     arg_experimentalDevtools := None;
     arg_experimentalIncludeAllPages := None;
     arg_categoryEmulation := JsBoolean false;
     arg_categoryPerformance := JsUndefined;
     arg_categoryNetwork := JsUndefined |}.

Definition default_config : Config := loadConfig None no_args "0.10.1".

Definition no_emulation_config : Config :=
  loadConfig None no_emulation_args "0.10.1".

Definition click : ToolDefinition :=
  {| name := "click";
     description := "Clicks on the provided element";
     annotations := {| category := OTHER "Input automation" |} |}.

Definition emulate_cpu : ToolDefinition :=
  {| name := "emulate_cpu";
     description := "Emulates CPU throttling";
     annotations := {| category := EMULATION |} |}.

Definition list_network_requests : ToolDefinition :=
  {| name := "list_network_requests";
     description := "List all requests for the currently selected page";
     annotations := {| category := NETWORK |} |}.

Definition performance_start_trace : ToolDefinition :=
  {| name := "performance_start_trace";
     description := "Starts a performance trace recording";
     annotations := {| category := PERFORMANCE |} |}.

Definition static_tools : list ToolDefinition :=
  [emulate_cpu; click; list_network_requests; performance_start_trace].

Definition static_tools_other_order : list ToolDefinition :=
  [click; emulate_cpu; list_network_requests; performance_start_trace].

(** A call in which every collaborator answers. *)
Definition all_answer : CallBehaviour :=
  {| ensureBrowser_result := Normal 7;
     McpContext_from_result := Normal tt;
     detectOpenDevToolsWindows_result := Normal tt;
     handler_result := Normal tt;
     response_handle_result := Normal [TextContent "# click response"] |}.

(** The handler returns, and finalizing its response fails. *)
Definition finalization_fails : CallBehaviour :=
  {| ensureBrowser_result := Normal 7;
     McpContext_from_result := Normal tt;
     detectOpenDevToolsWindows_result := Normal tt;
     handler_result := Normal tt;
     response_handle_result := Throw (JsError "Error" "No page selected") |}.

(** The handler throws an [Error]. *)
Definition handler_throws_error : CallBehaviour :=
  {| ensureBrowser_result := Normal 7;
     McpContext_from_result := Normal tt;
     detectOpenDevToolsWindows_result := Normal tt;
     handler_result := Throw (JsError "Error" "Element not found");
     response_handle_result := Normal [] |}.

(** The handler's promise is rejected without a reason:
    [Promise.reject()], or [throw undefined]. *)
Definition handler_rejects_with_undefined : CallBehaviour :=
  {| ensureBrowser_result := Normal 7;
     McpContext_from_result := Normal tt;
     detectOpenDevToolsWindows_result := Normal tt;
     handler_result := Throw JsUndefined;
     response_handle_result := Normal [] |}.

(** The browser cannot be launched. *)
Definition launch_fails : CallBehaviour :=
  {| ensureBrowser_result := Throw (JsError "Error" "Could not find Chrome");
     McpContext_from_result := Normal tt;
     detectOpenDevToolsWindows_result := Normal tt;
     handler_result := Normal tt;
     response_handle_result := Normal [] |}.

(** The driver resolves to another browser handle. *)
Definition other_browser : CallBehaviour :=
  {| ensureBrowser_result := Normal 8;
     McpContext_from_result := Normal tt;
     detectOpenDevToolsWindows_result := Normal tt;
     handler_result := Normal tt;
     response_handle_result := Normal [] |}.

(** Two calls on one server instance: [click], whose handler throws, takes
    the guard; [emulate_cpu] arrives meanwhile and waits; [click] runs to
    its end. *)
Definition contended_schedule : list Dispatch.Move :=
  [Dispatch.Arrive click "{}" handler_throws_error;
   Dispatch.Arrive emulate_cpu "{}" all_answer;
   Dispatch.Advance 0; Dispatch.Advance 1;
   Dispatch.Advance 0; Dispatch.Advance 0; Dispatch.Advance 0;
   Dispatch.Advance 0; Dispatch.Advance 0].

Definition contended_pool : Dispatch.Pool :=
  Dispatch.run_schedule default_config None contended_schedule
    Dispatch.initial_pool.

Definition empty_world : Http.World :=
  {| Http.sessions := ∅;
     Http.transports := ∅;
     Http.next_transport := 0;
     Http.servers_created := 0;
     Http.logged := [] |}.

Definition get_health : Http.IncomingMessage :=
  {| Http.method := "GET";
     Http.pathname := "/health";
     Http.mcp_session_id := None |}.

Definition post_mcp : Http.IncomingMessage :=
  {| Http.method := "POST";
     Http.pathname := "/mcp";
     Http.mcp_session_id := None |}.

Definition get_mcp : Http.IncomingMessage :=
  {| Http.method := "GET";
     Http.pathname := "/mcp";
     Http.mcp_session_id := None |}.

Definition stale_session_request : Http.IncomingMessage :=
  {| Http.method := "POST";
     Http.pathname := "/mcp";
     Http.mcp_session_id := Some "0f8fad5b-d9cb-469f-a165-70867728950e" |}.

Definition quiet_call : Http.SdkCall :=
  {| Http.actions := []; Http.outcome := Normal tt |}.

(** The SDK does nothing that shows. *)
Definition sdk_quiet : Http.SdkBehaviour :=
  {| Http.on_connect := quiet_call; Http.on_handleRequest := quiet_call |}.

(** [connect] fails. *)
Definition sdk_connect_fails : Http.SdkBehaviour :=
  {| Http.on_connect :=
       {| Http.actions := [];
          Http.outcome := Throw (JsError "Error" "Transport already started") |};
     Http.on_handleRequest := quiet_call |}.

(** [handleRequest] initializes the session, then fails. *)
Definition sdk_fails_after_initialization : Http.SdkBehaviour :=
  {| Http.on_connect := quiet_call;
     Http.on_handleRequest :=
       {| Http.actions :=
            [Http.InitializeSession "7d1f2c1e-5f0b-4c57-9a53-0c6f8e7b1a42"];
          Http.outcome := Throw (JsError "Error" "write EPIPE") |} |}.

(** [handleRequest] initializes the session and writes the head of its
    answer, then fails. *)
Definition sdk_fails_after_head : Http.SdkBehaviour :=
  {| Http.on_connect := quiet_call;
     Http.on_handleRequest :=
       {| Http.actions :=
            [Http.InitializeSession "7d1f2c1e-5f0b-4c57-9a53-0c6f8e7b1a42";
             Http.WriteHead 200 [("Content-Type", "text/event-stream")]];
          Http.outcome := Throw (JsError "Error" "write EPIPE") |} |}.

Definition noon : string := "2025-10-01T12:00:00.000Z".

Definition session_a : string := "7d1f2c1e-5f0b-4c57-9a53-0c6f8e7b1a42".

Definition session_b : string := "0f8fad5b-d9cb-469f-a165-70867728950e".

(** The SDK answers an [initialize] request: it initializes the session
    [id], then writes its answer. *)
Definition sdk_initializes (id : string) : Http.SdkBehaviour :=
  {| Http.on_connect := quiet_call;
     Http.on_handleRequest :=
       {| Http.actions :=
            [Http.InitializeSession id;
             Http.End (Http.TextBody "event: message")];
          Http.outcome := Normal tt |} |}.

(** The SDK answers a DELETE request: it closes the transport. *)
Definition sdk_closes : Http.SdkBehaviour :=
  {| Http.on_connect := quiet_call;
     Http.on_handleRequest :=
       {| Http.actions := [Http.SetStatus 200; Http.End (Http.TextBody ""); Http.Close];
          Http.outcome := Normal tt |} |}.

Definition request_in_session (verb id : string) : Http.IncomingMessage :=
  {| Http.method := verb;
     Http.pathname := "/mcp";
     Http.mcp_session_id := Some id |}.

(** Two clients open a session each. *)
Definition two_sessions : list HttpRuns.Exchange :=
  [{| HttpRuns.request := post_mcp;
      HttpRuns.clock := noon;
      HttpRuns.sdk := sdk_initializes session_a |};
   {| HttpRuns.request := post_mcp;
      HttpRuns.clock := noon;
      HttpRuns.sdk := sdk_initializes session_b |}].

(** The process is started with [--port 8080] in production. *)
Definition production_on_8080 : Startup.Environment :=
  {| Startup.env_NODE_ENV := Some "production";
     Startup.env_PORT := None;
     Startup.parseArguments_result :=
       Normal
         {| arg_browserUrl := None;
            arg_wsEndpoint := None;
            arg_wsHeaders := None;
            arg_headless := Some true;
            arg_executablePath := None;
            arg_channel := None;
            arg_isolated := None;
            arg_viewport := None;
            arg_chromeArg := None;
            arg_proxyServer := None;
            arg_acceptInsecureCerts := None;
            arg_port := Some 8080%Z;
            arg_logFile := None;
            arg_experimentalDevtools := None;
            arg_experimentalIncludeAllPages := None;
            arg_categoryEmulation := JsUndefined;
            arg_categoryPerformance := JsUndefined;
            arg_categoryNetwork := JsUndefined |};
     Startup.saveLogsToFile_result := Normal 0;
     Startup.connect_result := Normal tt |}.

(** The process is started without arguments, with [PORT=8080] in its
    environment. *)
Definition port_in_environment : Startup.Environment :=
  {| Startup.env_NODE_ENV := None;
     Startup.env_PORT := Some "8080";
     Startup.parseArguments_result := Normal no_args;
     Startup.saveLogsToFile_result := Normal 0;
     Startup.connect_result := Normal tt |}.

(** The process is started without arguments, as an MCP client starts it. *)
Definition plain_start : Startup.Environment :=
  {| Startup.env_NODE_ENV := None;
     Startup.env_PORT := None;
     Startup.parseArguments_result := Normal no_args;
     Startup.saveLogsToFile_result := Normal 0;
     Startup.connect_result := Normal tt |}.

End Example.

(** * The model at work *)

Example catalogue_of_default_config :
  tool_names
    (createServer codeunit_compare Example.default_config None
       Example.static_tools) =
  ["click"; "emulate_cpu"; "list_network_requests"; "performance_start_trace"].
Proof. reflexivity. Qed.

Example catalogue_without_emulation :
  tool_names
    (createServer codeunit_compare Example.no_emulation_config None
       Example.static_tools) =
  ["click"; "list_network_requests"; "performance_start_trace"].
Proof. reflexivity. Qed.

Example duplicate_name_is_refused :
  Strict.createServer codeunit_compare Example.default_config None
    (Example.click :: Example.static_tools) =
  Throw (JsError "Error" "Tool click is already registered").
Proof. reflexivity. Qed.

Example head_written_before_the_fault_stays :
  Http.status_sent
    (snd (fst (Http.onRequest Example.post_mcp Example.noon
                 Example.sdk_fails_after_head Example.empty_world))) =
  Some 200%Z.
Proof. reflexivity. Qed.

Example finalization_failure_is_a_result :
  fst (toolCallback Example.default_config None Example.click 0 "{}"
         Example.finalization_fails initial_state) =
  Normal {| content := [TextContent "No page selected"];
            isError := Some true |}.
Proof. reflexivity. Qed.

Example handler_error_is_thrown_and_logged :
  fst (toolCallback Example.default_config None Example.click 0 "{}"
         Example.handler_throws_error initial_state) =
  Throw (JsError "Error" "Element not found")
  /\ Logged "click error: Element not found"
     ∈ trace (snd (toolCallback Example.default_config None Example.click 0
                     "{}" Example.handler_throws_error initial_state)).
Proof.
  split; [reflexivity|].
  vm_compute. repeat first [apply list_elem_of_here | apply list_elem_of_further].
Qed.

Example launch_failure_caches_nothing :
  context (snd (getContext Example.default_config None Example.launch_fails
                  initial_state)) = None.
Proof. reflexivity. Qed.

Example other_browser_rebuilds :
  context_id
    <$> context
          (snd (getContext Example.default_config None Example.other_browser
                  (snd (getContext Example.default_config None
                          Example.all_answer initial_state)))) = Some 1.
Proof. reflexivity. Qed.

Example second_call_waits_for_the_guard :
  Dispatch.phase
    <$> Dispatch.calls
          (Dispatch.run_schedule Example.default_config None
             (take 4 Example.contended_schedule) Dispatch.initial_pool) =
  [Dispatch.Guarded; Dispatch.Waiting].
Proof. reflexivity. Qed.

Example not_found_elsewhere :
  Http.status_sent
    (snd (fst (Http.onRequest
                 {| Http.method := "GET";
                    Http.pathname := "/metrics";
                    Http.mcp_session_id := None |}
                 Example.noon Example.sdk_quiet Example.empty_world))) =
  Some 404%Z.
Proof. reflexivity. Qed.

(** * Properties *)

(** ** Sorting *)

Section SortFacts.

Context {A : Type} (cmp : A -> A -> Z).

Hypothesis cmp_total : forall a b, (0 < cmp a b)%Z -> (cmp b a <= 0)%Z.
Hypothesis cmp_trans :
  forall a b c, ascending cmp a b -> ascending cmp b c -> ascending cmp a c.

Lemma sort_insert_perm (x : A) (l : list A) : sort_insert cmp x l ≡ₚ x :: l.
Proof.
  induction l as [|y l IH]; simpl; [done|].
  destruct (0 <? cmp x y)%Z; [|done].
  rewrite IH. apply Permutation_swap.
Qed.

Lemma array_sort_perm (l : list A) : array_sort cmp l ≡ₚ l.
Proof.
  induction l as [|x l IH]; simpl; [done|].
  rewrite sort_insert_perm. by rewrite IH.
Qed.

Lemma sort_insert_sorted (x : A) (l : list A) :
  Sorted (ascending cmp) l -> Sorted (ascending cmp) (sort_insert cmp x l).
Proof.
  induction 1 as [|y l Hs IH Hhd]; simpl.
  - repeat constructor.
  - destruct (0 <? cmp x y)%Z eqn:Hxy.
    + apply Z.ltb_lt in Hxy. constructor; [done|].
      destruct Hhd as [|z l Hyz]; simpl in *.
      * constructor. by apply cmp_total.
      * destruct (0 <? cmp x z)%Z; constructor; [done|by apply cmp_total].
    + apply Z.ltb_ge in Hxy. constructor; [by constructor|].
      by constructor.
Qed.

Lemma array_sort_sorted (l : list A) : Sorted (ascending cmp) (array_sort cmp l).
Proof.
  induction l as [|x l IH]; simpl; [constructor|].
  by apply sort_insert_sorted.
Qed.

Lemma array_sort_strongly_sorted (l : list A) :
  StronglySorted (ascending cmp) (array_sort cmp l).
Proof.
  apply Sorted.Sorted_StronglySorted; [|apply array_sort_sorted].
  intros a b c. apply cmp_trans.
Qed.

Lemma array_sort_of_sorted (l : list A) :
  Sorted (ascending cmp) l -> array_sort cmp l = l.
Proof.
  induction 1 as [|x l Hs IH Hhd]; [done|].
  unfold array_sort in *. simpl. rewrite IH.
  destruct Hhd as [|y l Hxy]; simpl; [done|].
  unfold ascending in Hxy.
  destruct (0 <? cmp x y)%Z eqn:E; [|done].
  apply Z.ltb_lt in E. lia.
Qed.

End SortFacts.

Lemma StronglySorted_filter_keeps {A : Type} (R : relation A) (P : A -> Prop)
    `{!forall x, Decision (P x)} (l : list A) :
  StronglySorted R l -> StronglySorted R (filter P l).
Proof.
  induction 1 as [|x l Hs IH Hall]; [constructor|].
  rewrite filter_cons. case_decide; [|done].
  constructor; [done|].
  apply Forall_forall. intros y Hy.
  apply list_elem_of_filter in Hy as [_ Hy].
  by eapply Forall_forall in Hall.
Qed.

(** ** The comparator by code units is consistent *)

Lemma codeunit_compare_antisym (a b : string) :
  Z.sgn (codeunit_compare b a) = (- Z.sgn (codeunit_compare a b))%Z.
Proof.
  unfold codeunit_compare. rewrite (String.compare_antisym a b).
  by destruct (String.compare b a).
Qed.

Lemma codeunit_compare_le (a b : string) :
  (codeunit_compare a b <= 0)%Z <-> a = b \/ OrderedTypeEx.String_as_OT.lt a b.
Proof.
  unfold codeunit_compare.
  destruct (String.compare a b) eqn:E.
  - apply OrderedTypeEx.String_as_OT.cmp_eq in E. split; [by left|lia].
  - apply OrderedTypeEx.String_as_OT.cmp_lt in E. split; [by right|lia].
  - split; [lia|]. intros [->|H].
    + assert (String.compare b b = Eq) as Hb
        by by apply OrderedTypeEx.String_as_OT.cmp_eq.
      congruence.
    + apply OrderedTypeEx.String_as_OT.cmp_lt in H.
      unfold OrderedTypeEx.String_as_OT.cmp in H. congruence.
Qed.

Lemma codeunit_compare_trans (a b c : string) :
  (codeunit_compare a b <= 0)%Z -> (codeunit_compare b c <= 0)%Z ->
  (codeunit_compare a c <= 0)%Z.
Proof.
  rewrite !codeunit_compare_le. intros [->|Hab] [->|Hbc]; auto.
  right. by eapply OrderedTypeEx.String_as_OT.lt_trans.
Qed.

(** ** The tool catalogue *)

#[global] Instance tool_enabled_dec (config : Config) (tool : ToolDefinition) :
  Decision (tool_enabled config tool).
Proof. unfold tool_enabled. apply _. Defined.

Lemma switched_off_not_enabled (config : Config) (tool : ToolDefinition) :
  switched_off config tool <-> ~ tool_enabled config tool.
Proof.
  unfold switched_off, tool_enabled, category_enabled.
  destruct (category (annotations tool)), (categoryEmulation config),
    (categoryPerformance config), (categoryNetwork config);
    split; intros H; try (intros ?; destruct H as [[? ?]|[[? ?]|[? ?]]]);
    try congruence; try (by exfalso; apply H); auto.
Qed.

Lemma registerTool_enabled (config : Config) (tool : ToolDefinition)
    (srv : McpServer) :
  registerTool config tool srv =
  if category_enabled config (category (annotations tool))
  then server_registerTool tool srv else srv.
Proof.
  unfold registerTool, category_enabled.
  by destruct (category (annotations tool)), (categoryEmulation config),
    (categoryPerformance config), (categoryNetwork config).
Qed.

Lemma foldl_registerTool (config : Config) (l : list ToolDefinition)
    (srv : McpServer) :
  registeredTools (foldl (fun s t => registerTool config t s) srv l) =
  registeredTools srv ++ filter (tool_enabled config) l.
Proof.
  revert srv. induction l as [|t l IH]; intros srv; simpl.
  - by rewrite app_nil_r.
  - rewrite IH, registerTool_enabled, filter_cons.
    case_decide as E; unfold tool_enabled in E;
      destruct (category_enabled _ _); try done.
    simpl. by rewrite <- app_assoc.
Qed.

Section CatalogueFacts.

Variable localeCompare : string -> string -> Z.

Let by_name (a b : ToolDefinition) : Z := localeCompare (name a) (name b).

Lemma createServer_registered (config : Config) (logFile : option WriteStream)
    (tools : list ToolDefinition) :
  registeredTools (createServer localeCompare config logFile tools) =
  filter (tool_enabled config) (array_sort by_name tools).
Proof. unfold createServer. by rewrite foldl_registerTool. Qed.

Lemma elem_of_createServer (config : Config) (logFile : option WriteStream)
    (tools : list ToolDefinition) (tool : ToolDefinition) :
  tool ∈ registeredTools (createServer localeCompare config logFile tools) <->
  tool_enabled config tool /\ tool ∈ tools.
Proof.
  rewrite createServer_registered, list_elem_of_filter.
  by rewrite array_sort_perm.
Qed.

End CatalogueFacts.

Lemma NoDup_fmap_elem_inj {A B : Type} (f : A -> B) (l : list A) (x y : A) :
  NoDup (f <$> l) -> x ∈ l -> y ∈ l -> f x = f y -> x = y.
Proof.
  induction l as [|a l IH]; simpl; intros Hnd Hx Hy Hf.
  - by apply elem_of_nil in Hx.
  - apply NoDup_cons in Hnd as [Ha Hnd].
    apply elem_of_cons in Hx as [->|Hx]; apply elem_of_cons in Hy as [->|Hy];
      auto.
    + exfalso. apply Ha. rewrite Hf. by apply list_elem_of_fmap_2.
    + exfalso. apply Ha. rewrite <- Hf. by apply list_elem_of_fmap_2.
Qed.

Section ConsistentComparator.

Variable localeCompare : string -> string -> Z.

Hypothesis localeCompare_antisym :
  forall a b, Z.sgn (localeCompare b a) = (- Z.sgn (localeCompare a b))%Z.
Hypothesis localeCompare_trans :
  forall a b c,
    (localeCompare a b <= 0)%Z -> (localeCompare b c <= 0)%Z ->
    (localeCompare a c <= 0)%Z.

Let by_name (a b : ToolDefinition) : Z := localeCompare (name a) (name b).

Lemma by_name_total (a b : ToolDefinition) :
  (0 < by_name a b)%Z -> (by_name b a <= 0)%Z.
Proof.
  unfold by_name. intros H.
  pose proof (localeCompare_antisym (name a) (name b)) as Hs.
  pose proof (Z.sgn_spec (localeCompare (name a) (name b))).
  pose proof (Z.sgn_spec (localeCompare (name b) (name a))).
  lia.
Qed.

Lemma by_name_trans (a b c : ToolDefinition) :
  ascending by_name a b -> ascending by_name b c -> ascending by_name a c.
Proof. unfold ascending, by_name. apply localeCompare_trans. Qed.

Lemma localeCompare_tie (a b : string) :
  ascending localeCompare a b -> ascending localeCompare b a ->
  localeCompare a b = 0%Z.
Proof.
  unfold ascending. intros Hab Hba.
  pose proof (localeCompare_antisym a b) as Hs.
  pose proof (Z.sgn_spec (localeCompare a b)).
  pose proof (Z.sgn_spec (localeCompare b a)).
  lia.
Qed.

Lemma registered_strongly_sorted (config : Config)
    (logFile : option WriteStream) (tools : list ToolDefinition) :
  StronglySorted (ascending by_name)
    (registeredTools (createServer localeCompare config logFile tools)).
Proof.
  rewrite createServer_registered.
  apply StronglySorted_filter_keeps.
  apply array_sort_strongly_sorted; [apply by_name_total|apply by_name_trans].
Qed.

Lemma tool_names_strongly_sorted (config : Config)
    (logFile : option WriteStream) (tools : list ToolDefinition) :
  StronglySorted (ascending localeCompare)
    (tool_names (createServer localeCompare config logFile tools)).
Proof.
  unfold tool_names.
  eapply StronglySorted_fmap; [|apply registered_strongly_sorted].
  by intros x y.
Qed.

Lemma createServer_idempotent (config : Config)
    (logFile : option WriteStream) (tools : list ToolDefinition) :
  registeredTools
    (createServer localeCompare config logFile
       (registeredTools (createServer localeCompare config logFile tools))) =
  registeredTools (createServer localeCompare config logFile tools).
Proof.
  rewrite (createServer_registered _ _ _ (registeredTools _)).
  rewrite array_sort_of_sorted.
  - rewrite createServer_registered. by apply list_filter_filter_l.
  - apply StronglySorted_Sorted, registered_strongly_sorted.
Qed.

(** C7: whatever the order in which the tool modules list their tools, the
    names of the registered tools are in ascending [localeCompare] order and
    are the same names; the catalogue depends on nothing but the
    configuration and the tools (assembling it again, also from its own
    result, gives the same list); and when no two different names compare
    equal, every input order gives the very same list of names. *)
Theorem catalogue_sorted_and_deterministic
    (config : Config) (logFile logFile' : option WriteStream)
    (tools tools' : list ToolDefinition) :
  tools' ≡ₚ tools ->
  StronglySorted (ascending localeCompare)
    (tool_names (createServer localeCompare config logFile tools'))
  /\ tool_names (createServer localeCompare config logFile tools')
     ≡ₚ tool_names (createServer localeCompare config logFile tools)
  /\ tool_names (createServer localeCompare config logFile' tools') =
     tool_names (createServer localeCompare config logFile tools')
  /\ registeredTools
       (createServer localeCompare config logFile
          (registeredTools (createServer localeCompare config logFile tools'))) =
     registeredTools (createServer localeCompare config logFile tools')
  /\ ((forall a b, a ∈ name <$> tools -> b ∈ name <$> tools ->
         localeCompare a b = 0%Z -> a = b) ->
      tool_names (createServer localeCompare config logFile tools') =
      tool_names (createServer localeCompare config logFile tools)).
Proof.
  intros Hperm.
  assert (tool_names (createServer localeCompare config logFile tools')
          ≡ₚ tool_names (createServer localeCompare config logFile tools))
    as Hnames.
  { unfold tool_names. rewrite !createServer_registered.
    apply fmap_Permutation, filter_Permutation.
    by rewrite !array_sort_perm. }
  split; [apply tool_names_strongly_sorted|].
  split; [done|].
  split; [done|].
  split; [apply createServer_idempotent|].
  intros Hties.
  apply (StronglySorted_unique_strong (ascending localeCompare));
    [|apply tool_names_strongly_sorted..|done].
  intros a b Ha Hb Hab Hba. rewrite Hnames in Ha.
  assert (forall x,
            x ∈ tool_names (createServer localeCompare config logFile tools) ->
            x ∈ name <$> tools) as Hsub.
  { intros x Hx. unfold tool_names in Hx.
    apply list_elem_of_fmap in Hx as (t & -> & Ht).
    apply elem_of_createServer in Ht as [_ Ht].
    by apply list_elem_of_fmap_2. }
  apply Hties; [by apply Hsub..|].
  by apply localeCompare_tie.
Qed.

End ConsistentComparator.

Lemma catalogue_sorted_and_deterministic_witness :
  Example.static_tools_other_order ≡ₚ Example.static_tools
  /\ tool_names
       (createServer codeunit_compare Example.no_emulation_config None
          Example.static_tools_other_order) =
     ["click"; "list_network_requests"; "performance_start_trace"]
  /\ StronglySorted (ascending codeunit_compare)
       (tool_names
          (createServer codeunit_compare Example.no_emulation_config None
             Example.static_tools_other_order)).
Proof.
  split; [apply Permutation_swap|].
  split; [reflexivity|].
  apply (catalogue_sorted_and_deterministic codeunit_compare
           codeunit_compare_antisym codeunit_compare_trans
           Example.no_emulation_config None None
           Example.static_tools Example.static_tools_other_order).
  apply Permutation_swap.
Defined.

(** C6: a tool of one of the three categories with a switch, whose switch is
    [false], is not registered: [registerTool] returns without touching the
    server, the catalogue [createServer] builds holds neither the tool nor
    any tool of its category, and (tool names being distinct) no entry
    carries its name.  In [loadConfig] each switch is off only when the
    argument is exactly [false]. *)
Theorem switched_off_tool_is_absent
    (localeCompare : string -> string -> Z) (config : Config)
    (logFile : option WriteStream) (tools : list ToolDefinition)
    (tool : ToolDefinition) :
  switched_off config tool ->
  (forall srv, registerTool config tool srv = srv)
  /\ (tool ∉ registeredTools (createServer localeCompare config logFile tools))
  /\ (forall t,
        t ∈ registeredTools (createServer localeCompare config logFile tools) ->
        category (annotations t) <> category (annotations tool))
  /\ (NoDup (name <$> tools) -> tool ∈ tools ->
      name tool ∉ tool_names (createServer localeCompare config logFile tools))
  /\ (forall NODE_ENV args version,
        (categoryEmulation (loadConfig NODE_ENV args version) = false
         <-> arg_categoryEmulation args = JsBoolean false)
        /\ (categoryPerformance (loadConfig NODE_ENV args version) = false
            <-> arg_categoryPerformance args = JsBoolean false)
        /\ (categoryNetwork (loadConfig NODE_ENV args version) = false
            <-> arg_categoryNetwork args = JsBoolean false)).
Proof.
  intros Hoff.
  pose proof (proj1 (switched_off_not_enabled config tool) Hoff) as Hdis.
  assert (tool ∉ registeredTools
            (createServer localeCompare config logFile tools)) as Habsent.
  { rewrite elem_of_createServer. by intros [? _]. }
  split.
  { intros srv. rewrite registerTool_enabled.
    unfold tool_enabled in Hdis. by destruct (category_enabled _ _). }
  split; [done|].
  split.
  { intros t Ht%elem_of_createServer Hcat. destruct Ht as [Hen _].
    apply Hdis. unfold tool_enabled in *. by rewrite <- Hcat. }
  split.
  { intros Hnd Hin Hname. unfold tool_names in Hname.
    apply list_elem_of_fmap in Hname as (t & Heq & Ht).
    apply Habsent.
    assert (t ∈ tools) as Ht' by (by apply elem_of_createServer in Ht as [_ ?]).
    by rewrite (NoDup_fmap_elem_inj name tools tool t Hnd Hin Ht' Heq). }
  intros NODE_ENV args version. simpl. unfold strict_neq_false.
  repeat split; intros H;
    repeat match goal with
           | H : context [match ?v with _ => _ end] |- _ => destruct v
           | b : bool |- _ => destruct b
           end; try done; by rewrite H.
Qed.

Lemma switched_off_tool_is_absent_witness :
  switched_off Example.no_emulation_config Example.emulate_cpu
  /\ Example.emulate_cpu ∉
       registeredTools
         (createServer codeunit_compare Example.no_emulation_config None
            Example.static_tools).
Proof.
  assert (switched_off Example.no_emulation_config Example.emulate_cpu) as H
    by (left; split; reflexivity).
  split; [exact H|].
  exact (proj1 (proj2 (switched_off_tool_is_absent codeunit_compare
                         Example.no_emulation_config None
                         Example.static_tools Example.emulate_cpu H))).
Defined.

(** C10: a tool whose category is none of the three with a switch is
    registered under every configuration; a tool of one of the three is
    registered exactly when its own switch is on, whatever the other two
    switches say. *)
Theorem other_categories_always_registered
    (localeCompare : string -> string -> Z) (config : Config)
    (logFile : option WriteStream) (tools : list ToolDefinition)
    (tool : ToolDefinition) :
  tool ∈ tools ->
  match category (annotations tool) with
  | EMULATION =>
      tool ∈ registeredTools (createServer localeCompare config logFile tools)
      <-> categoryEmulation config = true
  | PERFORMANCE =>
      tool ∈ registeredTools (createServer localeCompare config logFile tools)
      <-> categoryPerformance config = true
  | NETWORK =>
      tool ∈ registeredTools (createServer localeCompare config logFile tools)
      <-> categoryNetwork config = true
  | OTHER _ =>
      tool ∈ registeredTools (createServer localeCompare config logFile tools)
      /\ forall srv, registerTool config tool srv = server_registerTool tool srv
  end.
Proof.
  intros Hin.
  pose proof (elem_of_createServer localeCompare config logFile tools tool)
    as Hreg.
  pose proof (registerTool_enabled config tool) as Hrt.
  unfold tool_enabled, category_enabled in *.
  destruct (category (annotations tool)); [tauto..|].
  split; [tauto|done].
Qed.

Lemma other_categories_always_registered_witness :
  Example.click ∈ Example.static_tools
  /\ Example.click ∈
       registeredTools
         (createServer codeunit_compare Example.no_emulation_config None
            Example.static_tools).
Proof.
  assert (Example.click ∈ Example.static_tools) as H
    by (apply list_elem_of_further, list_elem_of_here).
  split; [exact H|].
  exact (proj1 (other_categories_always_registered codeunit_compare
                  Example.no_emulation_config None Example.static_tools
                  Example.click H)).
Defined.

(** ** The context resolver *)

Section ContextFacts.

Variable config : Config.
Variable logFile : option WriteStream.

Let call : Event := ensureBrowser_call config logFile.

(** [getContext], case by case on what the driver and [McpContext.from]
    answer. *)
Lemma getContext_cases (b : CallBehaviour) (st : ServerState) :
  getContext config logFile b st =
  match ensureBrowser_result b with
  | Normal br =>
      if browser_differs (context st) br then
        match McpContext_from_result b with
        | Normal _ =>
            let c := {| context_id := next_object_id st;
                        browser := br;
                        experimentalDevToolsDebugging := devtools config;
                        includeAllPages := experimentalIncludeAllPages config |} in
            (Normal (Some c),
             {| context := Some c;
                next_object_id := S (next_object_id st);
                toolMutex := toolMutex st;
                trace := (trace st ++ [call]) ++ [McpContextFrom br] |})
        | Throw e =>
            (Throw e,
             {| context := context st;
                next_object_id := next_object_id st;
                toolMutex := toolMutex st;
                trace := (trace st ++ [call]) ++ [McpContextFrom br] |})
        | Pending =>
            (Pending,
             {| context := context st;
                next_object_id := next_object_id st;
                toolMutex := toolMutex st;
                trace := (trace st ++ [call]) ++ [McpContextFrom br] |})
        end
      else
        (Normal (context st),
         {| context := context st;
            next_object_id := next_object_id st;
            toolMutex := toolMutex st;
            trace := trace st ++ [call] |})
  | Throw e =>
      (Throw e,
       {| context := context st;
          next_object_id := next_object_id st;
          toolMutex := toolMutex st;
          trace := trace st ++ [call] |})
  | Pending =>
      (Pending,
       {| context := context st;
          next_object_id := next_object_id st;
          toolMutex := toolMutex st;
          trace := trace st ++ [call] |})
  end.
Proof.
  unfold getContext, McpContext_from, await, bind, emit, read_context,
    write_context, new_McpContext, ret, call; simpl.
  destruct (ensureBrowser_result b) as [br|e|]; try reflexivity.
  destruct (browser_differs (context st) br); try reflexivity.
  destruct (McpContext_from_result b) as [u|e|]; reflexivity.
Qed.

Lemma getContext_well_numbered (b : CallBehaviour) (st : ServerState) :
  well_numbered st -> well_numbered (snd (getContext config logFile b st)).
Proof.
  intros Hwf. rewrite getContext_cases. unfold well_numbered in *.
  destruct (ensureBrowser_result b) as [br|e|]; simpl; auto.
  destruct (browser_differs (context st) br); simpl; auto.
  destruct (McpContext_from_result b) as [u|e|]; simpl; auto.
  intros c [= <-]. simpl. lia.
Qed.

(** [getContext] never returns the variable unset. *)
Lemma getContext_returns_a_context (b : CallBehaviour) (st : ServerState) :
  fst (getContext config logFile b st) <> Normal None.
Proof.
  rewrite getContext_cases.
  destruct (ensureBrowser_result b) as [br|e|]; simpl; try done.
  destruct (browser_differs (context st) br) eqn:E; simpl.
  - by destruct (McpContext_from_result b).
  - unfold browser_differs in E. by destruct (context st).
Qed.

(** C8: of two calls to [getContext] in a row, the second returns the
    memoized context object itself, and builds nothing, when the driver
    resolves to the browser handle that context holds; it builds, memoizes
    and returns a context object with a new identity when the handle is
    another one (and the build succeeds; a failed build leaves the memo as it
    was); and when the driver fails in the first call nothing is memoized,
    so the second call asks the driver again and ends as it would have
    without the failed one. *)
Theorem context_reused_or_rebuilt
    (b1 b2 : CallBehaviour) (st0 : ServerState) :
  well_numbered st0 ->
  let r1 := fst (getContext config logFile b1 st0) in
  let st1 := snd (getContext config logFile b1 st0) in
  let r2 := fst (getContext config logFile b2 st1) in
  let st2 := snd (getContext config logFile b2 st1) in
  (forall c br,
      context st1 = Some c -> ensureBrowser_result b2 = Normal br ->
      browser c = br ->
      r2 = Normal (Some c) /\ context st2 = Some c
      /\ next_object_id st2 = next_object_id st1
      /\ trace st2 = trace st1 ++ [call])
  /\ (forall c br,
        context st1 = Some c -> ensureBrowser_result b2 = Normal br ->
        browser c <> br ->
        (forall u, McpContext_from_result b2 = Normal u ->
           exists c',
             r2 = Normal (Some c') /\ context st2 = Some c'
             /\ browser c' = br /\ context_id c' <> context_id c
             /\ trace st2 = (trace st1 ++ [call]) ++ [McpContextFrom br])
        /\ (forall e, McpContext_from_result b2 = Throw e ->
              r2 = Throw e /\ context st2 = Some c))
  /\ (forall e,
        ensureBrowser_result b1 = Throw e ->
        r1 = Throw e /\ context st1 = context st0
        /\ next_object_id st1 = next_object_id st0
        /\ trace st1 = trace st0 ++ [call]
        /\ r2 = fst (getContext config logFile b2 st0)
        /\ context st2 = context (snd (getContext config logFile b2 st0))
        /\ exists rest, trace st2 = (trace st1 ++ [call]) ++ rest).
Proof.
  intros Hwf r1 st1 r2 st2.
  assert (well_numbered st1) as Hwf1 by by apply getContext_well_numbered.
  split; [|split].
  - intros c br Hc Hbr Heq. subst r2 st2.
    rewrite getContext_cases, Hbr. unfold browser_differs.
    rewrite Hc, Heq, Nat.eqb_refl. by simpl.
  - intros c br Hc Hbr Hne. subst r2 st2.
    rewrite getContext_cases, Hbr. unfold browser_differs. rewrite Hc.
    apply Nat.eqb_neq in Hne. rewrite Hne. simpl.
    split.
    + intros u ->. eexists. repeat split; simpl.
      specialize (Hwf1 c Hc). lia.
    + by intros e ->.
  - intros e He. subst r1 st1 r2 st2.
    rewrite (getContext_cases b1), He. simpl.
    rewrite !(getContext_cases b2). simpl.
    destruct (ensureBrowser_result b2) as [br|e2|]; simpl;
      [|by repeat split; exists []; rewrite app_nil_r..].
    destruct (browser_differs (context st0) br); simpl;
      [|by repeat split; exists []; rewrite app_nil_r].
    destruct (McpContext_from_result b2); simpl;
      by repeat split; eexists.
Qed.

End ContextFacts.

Lemma context_reused_or_rebuilt_witness :
  well_numbered initial_state
  /\ fst (getContext Example.default_config None Example.all_answer
            (snd (getContext Example.default_config None Example.all_answer
                    initial_state))) =
     Normal (Some {| context_id := 0;
                     browser := 7;
                     experimentalDevToolsDebugging := false;
                     includeAllPages := Some false |}).
Proof.
  assert (well_numbered initial_state) as H by (intros c Hc; discriminate Hc).
  split; [exact H|].
  refine (proj1 (proj1 (context_reused_or_rebuilt Example.default_config None
                          Example.all_answer Example.all_answer
                          initial_state H) _ 7 _ _ _)); reflexivity.
Defined.

(** ** The invocation pipeline, one call on its own *)

Ltac unfold_callback :=
  unfold toolCallback, catch_clause, acquire, dispose, try_finally,
    try_catch, logger,
    await, eval, bind, emit, ret, throw, Mutex_acquire, Mutex_release,
    method_receiver, events_since.

Lemma append_inj_l (s a b : string) : s +:+ a = s +:+ b -> a = b.
Proof.
  induction s as [|ch s IH]; simpl; [done|].
  intros [= H]. by apply IH.
Qed.

Create HintDb error_log.

Lemma request_line_not_error (t : ToolDefinition) (p : Params) :
  ~ is_error_log (Logged (name t +:+ " request: " +:+ p)) t.
Proof. intros [text [= H%append_inj_l]]. discriminate H. Qed.

Lemma resolved_line_not_error (t : ToolDefinition) :
  ~ is_error_log (Logged (name t +:+ " context: resolved")) t.
Proof. intros [text [= H%append_inj_l]]. discriminate H. Qed.

Lemma driver_call_not_error (config : Config) (logFile : option WriteStream)
    (t : ToolDefinition) :
  ~ is_error_log (ensureBrowser_call config logFile) t.
Proof.
  unfold ensureBrowser_call. intros [text H].
  by destruct (truthy (browserUrl config) || truthy (wsEndpoint config)).
Qed.

Lemma other_event_not_error (ev : Event) (t : ToolDefinition) :
  match ev with Logged _ => False | _ => True end -> ~ is_error_log ev t.
Proof. intros H [text ->]. done. Qed.

#[global] Hint Resolve request_line_not_error resolved_line_not_error
  driver_call_not_error : error_log.
#[global] Hint Extern 1 (~ is_error_log _ _) =>
  (apply other_event_not_error; exact I) : error_log.

Ltac in_events :=
  repeat first [apply list_elem_of_here | apply list_elem_of_further].

(** Case analysis on what the collaborators answer, in the order in which
    the callback asks them. *)
Ltac case_outcome :=
  match goal with
  | |- context [ensureBrowser_result ?b] =>
      destruct (ensureBrowser_result b) as [?br|?e|] eqn:?
  | |- context [browser_differs ?m ?br] =>
      destruct (browser_differs m br) eqn:?
  | |- context [Nat.eqb (browser ?c) ?br] =>
      destruct (Nat.eqb (browser c) br) eqn:?
  | |- context [McpContext_from_result ?b] =>
      destruct (McpContext_from_result b) as [[]|?e|] eqn:?
  | |- context [detectOpenDevToolsWindows_result ?b] =>
      destruct (detectOpenDevToolsWindows_result b) as [[]|?e|] eqn:?
  | |- context [handler_result ?b] =>
      destruct (handler_result b) as [[]|?e|] eqn:?
  | |- context [response_handle_result ?b] =>
      destruct (response_handle_result b) as [?content|?e|] eqn:?
  | |- context [GetMessage ?e] => destruct e
  end.

Section CallbackFacts.

Variable config : Config.
Variable logFile : option WriteStream.
Variable tool : ToolDefinition.
Variable call : nat.
Variable params : Params.

(** The handler returns and [response.handle] throws: the call returns the
    error-flagged result. *)
Lemma finalization_fault_soft_lands (b : CallBehaviour) (st : ServerState)
    (br : Browser) (error : JsValue) :
  locked (toolMutex st) = false ->
  ensureBrowser_result b = Normal br ->
  (browser_differs (context st) br = true ->
   McpContext_from_result b = Normal tt) ->
  detectOpenDevToolsWindows_result b = Normal tt ->
  handler_result b = Normal tt ->
  response_handle_result b = Throw error ->
  fst (toolCallback config logFile tool call params b st) =
  Normal {| content := [TextContent (errorText error)];
            isError := Some true |}.
Proof.
  intros Hfree Hbr Hfrom Hdet Hh Hfin.
  unfold_callback. rewrite Hfree. simpl.
  rewrite getContext_cases, Hbr. simpl.
  destruct (browser_differs (context st) br) eqn:Hd.
  - rewrite (Hfrom eq_refl). simpl. by rewrite Hdet, Hh, Hfin.
  - unfold browser_differs in Hd. simpl.
    destruct (context st) as [c|]; [|done]. simpl.
    by rewrite Hdet, Hh, Hfin.
Qed.

(** The handler throws [err]: the call throws.  It throws [err] itself,
    after logging it, when [err.message] can be read; when [err] is
    [undefined] or [null] it throws the [TypeError] of that read, and logs
    nothing. *)
Lemma handler_fault_is_call_fault (b : CallBehaviour) (st : ServerState)
    (br : Browser) (err : JsValue) :
  locked (toolMutex st) = false ->
  ensureBrowser_result b = Normal br ->
  (browser_differs (context st) br = true ->
   McpContext_from_result b = Normal tt) ->
  detectOpenDevToolsWindows_result b = Normal tt ->
  handler_result b = Throw err ->
  let r := fst (toolCallback config logFile tool call params b st) in
  let st' := snd (toolCallback config logFile tool call params b st) in
  match GetMessage err with
  | Normal message =>
      r = Throw err
      /\ Logged (name tool +:+ " error: " +:+ ToString message)
         ∈ events_since st st'
  | Throw type_error =>
      r = Throw type_error
      /\ Forall (fun ev => ~ is_error_log ev tool) (events_since st st')
  | Pending => False
  end.
Proof.
  intros Hfree Hbr Hfrom Hdet Hh r st'. subst r st'.
  unfold_callback. rewrite Hfree. simpl.
  rewrite getContext_cases, Hbr. simpl.
  destruct (browser_differs (context st) br) eqn:Hd.
  - rewrite (Hfrom eq_refl). simpl. rewrite Hdet, Hh. simpl.
    destruct err; simpl; rewrite <- ?app_assoc, drop_app_length; simpl;
      (split; [done|]); try (by in_events);
      repeat constructor; auto with error_log.
  - unfold browser_differs in Hd.
    destruct (context st) as [c|]; [|done]. simpl. rewrite Hdet, Hh. simpl.
    destruct err; simpl; rewrite <- ?app_assoc, drop_app_length; simpl;
      (split; [done|]); try (by in_events);
      repeat constructor; auto with error_log.
Qed.

End CallbackFacts.

(** C1, where the code departs from it: the handler's promise is rejected
    with [undefined].  The catch clause reads [error.message] before it
    logs, and that read throws: the call fails with the [TypeError] of the
    read and not with the handler's failure, and no error line is
    logged. *)
Theorem handler_rejecting_with_undefined_is_not_logged :
  let run :=
    toolCallback Example.default_config None Example.click 0 "{}"
      Example.handler_rejects_with_undefined initial_state in
  fst run =
  Throw (JsError "TypeError"
           "Cannot read properties of undefined (reading 'message')")
  /\ fst run <> Throw JsUndefined
  /\ Forall (fun ev => ~ is_error_log ev Example.click) (trace (snd run)).
Proof.
  pose proof (handler_fault_is_call_fault Example.default_config None
                Example.click 0 "{}" Example.handler_rejects_with_undefined
                initial_state 7 JsUndefined eq_refl eq_refl
                (fun _ => eq_refl) eq_refl eq_refl) as [Hr Hlog].
  cbv zeta. split; [exact Hr|]. split; [by rewrite Hr|exact Hlog].
Qed.

Section GuardFacts.

Variable config : Config.
Variable logFile : option WriteStream.
Variable tool : ToolDefinition.
Variable call : nat.
Variable params : Params.

(** A call that finds the guard free takes it before anything else, and,
    however it ends, disposes it once, as the last thing it does: the guard
    is free again afterwards.  Only a call that never ends keeps the
    guard. *)
Lemma callback_brackets_the_guard (b : CallBehaviour) (st : ServerState) :
  guard_free st ->
  let r := fst (toolCallback config logFile tool call params b st) in
  let st' := snd (toolCallback config logFile tool call params b st) in
  match r with
  | Pending =>
      locked (toolMutex st') = true
      /\ count_dispose call (events_since st st') = 0
  | _ =>
      acquire_body_dispose call (events_since st st') = true
      /\ guard_free st'
  end.
Proof.
  intros Hfree r st'. subst r st'. unfold guard_free in *.
  unfold_callback. rewrite Hfree. simpl.
  rewrite getContext_cases. unfold ensureBrowser_call.
  destruct (truthy (browserUrl config) || truthy (wsEndpoint config));
    destruct (context st) as [c|] eqn:Hctx;
    repeat (case_outcome; simpl);
    unfold count_dispose;
    rewrite <- ?app_assoc, ?drop_app_length; simpl;
    rewrite ?Nat.eqb_refl; simpl; try done.
Qed.

End GuardFacts.

(** ** The HTTP transport *)

Section HttpFacts.

Import Http.

(** An action of the SDK builds no server instance and no transport, and
    leaves the owner of every transport as it is. *)
Lemma run_action_frame (t : nat) (a : SdkAction) (res : ServerResponse)
    (w : World) :
  let w' := snd (run_action t a (res, w)) in
  servers_created w' = servers_created w
  /\ next_transport w' = next_transport w
  /\ forall k, owner <$> transports w' !! k = owner <$> transports w !! k.
Proof.
  assert (forall id k,
            owner <$> transports (set_sessionId t id w) !! k =
            owner <$> transports w !! k) as Hset.
  { intros id k. simpl. destruct (decide (t = k)) as [->|Hne].
    - rewrite lookup_alter_eq. by destruct (transports w !! k).
    - by rewrite lookup_alter_ne. }
  destruct a as [id| |code|code headers| |data|data]; simpl; try done.
  - destruct (alter _ t (transports w) !! t) eqn:E; simpl;
      repeat split; auto; apply Hset.
  - unfold onclose. destruct (transports w !! t) as [tr|]; [|done].
    by destruct (truthy (sessionId tr)).
  - by destruct (writeHead code headers res).
Qed.

Lemma sdk_call_nil (t : nat) (o : completion unit) (res : ServerResponse)
    (w : World) :
  sdk_call t {| actions := []; outcome := o |} res w = (o, res, w).
Proof. reflexivity. Qed.

Lemma sdk_call_cons (t : nat) (a : SdkAction) (l : list SdkAction)
    (o : completion unit) (res : ServerResponse) (w : World) :
  sdk_call t {| actions := a :: l; outcome := o |} res w =
  sdk_call t {| actions := l; outcome := o |}
    (fst (run_action t a (res, w))) (snd (run_action t a (res, w))).
Proof.
  unfold sdk_call. cbn [actions outcome foldl].
  by destruct (run_action t a (res, w)).
Qed.

Lemma sdk_call_outcome (t : nat) (c : SdkCall) (res : ServerResponse)
    (w : World) :
  fst (fst (sdk_call t c res w)) = outcome c.
Proof. unfold sdk_call. by destruct (foldl _ _ _). Qed.

Lemma sdk_call_frame (t : nat) (c : SdkCall) (res : ServerResponse)
    (w : World) :
  let w' := snd (sdk_call t c res w) in
  servers_created w' = servers_created w
  /\ next_transport w' = next_transport w
  /\ forall k, owner <$> transports w' !! k = owner <$> transports w !! k.
Proof.
  destruct c as [l o]. revert res w.
  induction l as [|a l IH]; intros res w; [done|].
  rewrite sdk_call_cons. cbv zeta.
  destruct (IH (fst (run_action t a (res, w))) (snd (run_action t a (res, w))))
    as (I1 & I2 & I3).
  destruct (run_action_frame t a res w) as (H1 & H2 & H3).
  split; [congruence|]. split; [congruence|].
  intros k. by rewrite I3.
Qed.

(** A session enters the registry through the session-initialization
    callback only, and as the session of the transport that runs it. *)
Lemma run_action_registers (t : nat) (a : SdkAction) (res : ServerResponse)
    (w : World) (id : string) (s : Session) :
  sessions (snd (run_action t a (res, w))) !! id = Some s ->
  sessions w !! id = Some s
  \/ (a = InitializeSession id /\ transport s = t
      /\ Some (server s) = owner <$> transports w !! t).
Proof.
  destruct a as [id'| |code|code headers| |data|data]; simpl; auto.
  - rewrite lookup_alter_eq.
    destruct (transports w !! t) as [tr|] eqn:Et; simpl; auto.
    destruct (decide (id' = id)) as [->|Hne].
    + rewrite lookup_insert_eq. intros [= <-]. right. by simpl.
    + rewrite lookup_insert_ne by done. auto.
  - unfold onclose. destruct (transports w !! t) as [tr|]; auto.
    destruct (truthy (sessionId tr)); auto. simpl.
    intros H. left. apply lookup_delete_Some in H. tauto.
  - destruct (writeHead code headers res); auto.
Qed.

Lemma sdk_call_registers (t : nat) (c : SdkCall) (res : ServerResponse)
    (w : World) (id : string) (s : Session) :
  sessions (snd (sdk_call t c res w)) !! id = Some s ->
  sessions w !! id = Some s
  \/ (InitializeSession id ∈ actions c /\ transport s = t
      /\ Some (server s) = owner <$> transports w !! t).
Proof.
  destruct c as [l o]. revert res w.
  induction l as [|a l IH]; intros res w; [auto|].
  rewrite sdk_call_cons. intros H.
  destruct (run_action_frame t a res w) as (_ & _ & Hown).
  destruct (IH _ _ H) as [Hold|(Hin & Ht & Hs)].
  - destruct (run_action_registers t a res w id s Hold)
      as [?|(-> & ? & ?)]; [by left|].
    right. split; [apply list_elem_of_here|done].
  - right. split; [by apply list_elem_of_further|].
    split; [done|]. by rewrite <- Hown.
Qed.

(** Without a session initialization the transport has no session
    identifier, so that its [onclose] removes nothing: the registry stays as
    it is. *)
Lemma sdk_call_without_initialization (t : nat) (c : SdkCall)
    (res : ServerResponse) (w : World) :
  forallb (fun a => negb (initializes a)) (actions c) = true ->
  (sessionId <$> transports w !! t) = Some None ->
  let w' := snd (sdk_call t c res w) in
  sessions w' = sessions w /\ logged w' = logged w
  /\ (sessionId <$> transports w' !! t) = Some None.
Proof.
  destruct c as [l o]. revert res w.
  induction l as [|a l IH]; intros res w; [done|].
  cbn [actions forallb]. intros [Ha Hl]%andb_prop Hsid.
  rewrite sdk_call_cons. cbv zeta.
  assert (sessions (snd (run_action t a (res, w))) = sessions w
          /\ logged (snd (run_action t a (res, w))) = logged w
          /\ (sessionId <$> transports (snd (run_action t a (res, w))) !! t)
             = Some None) as (Hs1 & Hl1 & Hsid1).
  { destruct a as [id| |code|code headers| |data|data]; simpl in *;
      try done.
    - unfold onclose.
      destruct (transports w !! t) as [tr|] eqn:Et; simpl in *; [|done].
      injection Hsid as Hsid. rewrite Hsid. simpl.
      by rewrite Et; simpl; rewrite Hsid.
    - by destruct (writeHead code headers res). }
  destruct (IH (fst (run_action t a (res, w))) _ Hl Hsid1) as (I1 & I2 & I3).
  repeat split; congruence.
Qed.

(** The SDK ends the response only through an [End] action. *)
Lemma sdk_call_without_end (t : nat) (c : SdkCall) (res : ServerResponse)
    (w : World) :
  forallb (fun a => negb (ends_response a)) (actions c) = true ->
  writableEnded (snd (fst (sdk_call t c res w))) = writableEnded res.
Proof.
  destruct c as [l o]. revert res w.
  induction l as [|a l IH]; intros res w; [done|].
  cbn [actions forallb]. intros [Ha Hl]%andb_prop.
  rewrite sdk_call_cons.
  rewrite (IH (fst (run_action t a (res, w))) (snd (run_action t a (res, w)))
             Hl).
  destruct a as [id| |code|code headers| |data|data]; simpl in *; try done.
  - by destruct (alter _ t (transports w) !! t).
  - unfold writeHead. by destruct (sent res).
  - unfold write. by destruct (writableEnded res) eqn:E; simpl; rewrite ?E.
Qed.

(** Nothing reaches the client as long as the SDK neither writes the head
    nor flushes it, writes data or ends the response. *)
Lemma sdk_call_without_head (t : nat) (c : SdkCall) (res : ServerResponse)
    (w : World) :
  forallb (fun a => negb (sends_head a)) (actions c) = true ->
  let res' := snd (fst (sdk_call t c res w)) in
  sent res' = sent res /\ body res' = body res
  /\ writableEnded res' = writableEnded res.
Proof.
  destruct c as [l o]. revert res w.
  induction l as [|a l IH]; intros res w; [done|].
  cbn [actions forallb]. intros [Ha Hl]%andb_prop.
  rewrite sdk_call_cons. cbv zeta.
  assert (sent (fst (run_action t a (res, w))) = sent res
          /\ body (fst (run_action t a (res, w))) = body res
          /\ writableEnded (fst (run_action t a (res, w))) = writableEnded res)
    as (H1 & H2 & H3).
  { destruct a as [id| |code|code headers| |data|data]; simpl in *;
      try done.
    by destruct (alter _ t (transports w) !! t). }
  destruct (IH (fst (run_action t a (res, w))) (snd (run_action t a (res, w))) Hl)
    as (I1 & I2 & I3).
  repeat split; congruence.
Qed.

(** A head that has left stays what the client got: no action of the SDK
    changes it. *)
Lemma run_action_head_is_final (t : nat) (a : SdkAction)
    (res : ServerResponse) (w : World) (h : Z * list (string * string)) :
  sent res = Some h -> sent (fst (run_action t a (res, w))) = Some h.
Proof.
  intros Hs.
  destruct a as [id| |code|code headers| |data|data]; simpl; try done.
  - by destruct (alter _ t (transports w) !! t).
  - unfold writeHead. by rewrite Hs.
  - by rewrite Hs.
  - unfold write. destruct (writableEnded res); [done|]. simpl. by rewrite Hs.
  - unfold end_response. destruct (writableEnded res); [done|]. simpl.
    by rewrite Hs.
Qed.

Lemma sdk_call_head_is_final (t : nat) (c : SdkCall) (res : ServerResponse)
    (w : World) (h : Z * list (string * string)) :
  sent res = Some h -> sent (snd (fst (sdk_call t c res w))) = Some h.
Proof.
  destruct c as [l o]. revert res w.
  induction l as [|a l IH]; intros res w Hs; [done|].
  rewrite sdk_call_cons. by apply IH, run_action_head_is_final.
Qed.

(** The actions of a call, one part after the other. *)
Lemma sdk_call_app (t : nat) (l1 l2 : list SdkAction) (o1 o2 : completion unit)
    (res : ServerResponse) (w : World) :
  sdk_call t {| actions := l1 ++ l2; outcome := o2 |} res w =
  sdk_call t {| actions := l2; outcome := o2 |}
    (snd (fst (sdk_call t {| actions := l1; outcome := o1 |} res w)))
    (snd (sdk_call t {| actions := l1; outcome := o1 |} res w)).
Proof.
  revert res w. induction l1 as [|a l1 IH]; intros res w; [done|].
  cbn [app]. by rewrite !sdk_call_cons, IH.
Qed.

(** How a call of the SDK ends has no part in what its actions do. *)
Lemma sdk_call_any_outcome (t : nat) (l : list SdkAction)
    (o : completion unit) (res : ServerResponse) (w : World) :
  sdk_call t {| actions := l; outcome := o |} res w =
  (o,
   snd (fst (sdk_call t {| actions := l; outcome := Normal tt |} res w)),
   snd (sdk_call t {| actions := l; outcome := Normal tt |} res w)).
Proof.
  unfold sdk_call. cbn [actions outcome]. by destruct (foldl _ _ l).
Qed.

(** Once the SDK has sent a head, and has not chosen the status 500 itself,
    the status the client gets is not 500. *)
Lemma sdk_call_head_not_500 (t : nat) (c : SdkCall) (res : ServerResponse)
    (w : World) :
  forallb (fun a => negb (answers_500 a)) (actions c) = true ->
  statusCode res <> 500%Z ->
  status_sent res <> Some 500%Z ->
  (writableEnded res = true -> sent res <> None) ->
  let res' := snd (fst (sdk_call t c res w)) in
  statusCode res' <> 500%Z
  /\ status_sent res' <> Some 500%Z
  /\ (writableEnded res' = true -> sent res' <> None)
  /\ (existsb sends_head (actions c) = true \/ sent res <> None ->
      sent res' <> None).
Proof.
  destruct c as [l o]. revert res w.
  induction l as [|a l IH]; intros res w.
  { cbn [actions forallb existsb]. intros _ H1 H2 H3. cbv zeta.
    rewrite sdk_call_nil. cbn [fst snd]. repeat split; try done.
    by intros [?|?]. }
  cbn [actions forallb existsb]. intros [Ha Hl]%andb_prop H1 H2 H3.
  cbv zeta. rewrite sdk_call_cons.
  set (res1 := fst (run_action t a (res, w))).
  assert (statusCode res1 <> 500%Z
          /\ status_sent res1 <> Some 500%Z
          /\ (writableEnded res1 = true -> sent res1 <> None)
          /\ (sends_head a = true \/ sent res <> None -> sent res1 <> None))
    as (J1 & J2 & J3 & J4).
  { subst res1. unfold status_sent in *.
    destruct a as [id| |code|code headers| |data|data]; simpl in *;
      try apply negb_true_iff, Z.eqb_neq in Ha;
      unfold writeHead, write, end_response;
      try destruct (alter _ t (transports w) !! t);
      destruct (writableEnded res) eqn:Ew;
      destruct (sent res) as [h|] eqn:Es; simpl; rewrite ?Es;
      repeat split; try done;
      try (intros _; by apply H3); try (by intros [?|?]);
      try (simpl; congruence). }
  destruct (IH res1 (snd (run_action t a (res, w))) Hl J1 J2 J3)
    as (I1 & I2 & I3 & I4).
  split; [done|]. split; [done|]. split; [done|].
  intros Hsome. apply I4.
  destruct Hsome as [[Hh|Hh]%orb_prop|Hs]; auto.
Qed.

(** The head the client gets is the one the SDK writes first. *)
Lemma sdk_call_writes_head (t : nat) (c : SdkCall) (res : ServerResponse)
    (w : World) (pre post : list SdkAction) (code : Z)
    (headers : list (string * string)) :
  actions c = pre ++ WriteHead code headers :: post ->
  forallb (fun a => negb (sends_head a)) pre = true ->
  sent res = None ->
  sent (snd (fst (sdk_call t c res w))) = Some (code, headers).
Proof.
  destruct c as [l o]. cbn [actions]. intros -> Hpre Hs.
  rewrite (sdk_call_app t pre _ o o).
  destruct (sdk_call_without_head t {| actions := pre; outcome := o |} res w
              Hpre) as (S1 & _).
  rewrite sdk_call_cons. apply sdk_call_head_is_final.
  simpl. unfold writeHead. by rewrite S1, Hs.
Qed.

(** What the SDK logs through the callbacks comes after what was logged. *)
Lemma sdk_call_logs_more (t : nat) (c : SdkCall) (res : ServerResponse)
    (w : World) :
  exists more, logged (snd (sdk_call t c res w)) = logged w ++ more.
Proof.
  destruct c as [l o]. revert res w.
  induction l as [|a l IH]; intros res w.
  - exists []. by rewrite app_nil_r.
  - rewrite sdk_call_cons.
    destruct (IH (fst (run_action t a (res, w)))
                (snd (run_action t a (res, w)))) as [more ->].
    assert (exists one, logged (snd (run_action t a (res, w)))
                        = logged w ++ one) as [one ->].
    { destruct a as [id| |code|code headers| |data|data]; simpl;
        try (by exists []; rewrite app_nil_r).
      - destruct (alter _ t (transports w) !! t); simpl; eauto.
        exists []. by rewrite app_nil_r.
      - unfold onclose. destruct (transports w !! t) as [tr|];
          [|by exists []; rewrite app_nil_r].
        destruct (truthy (sessionId tr)); simpl; eauto.
        exists []. by rewrite app_nil_r.
      - destruct (writeHead code headers res);
          by exists []; rewrite app_nil_r. }
    exists (one ++ more). by rewrite app_assoc.
Qed.

(** A registered session of the transport stays registered as long as the
    transport is not closed. *)
Lemma sdk_call_keeps_registered (t : nat) (c : SdkCall)
    (res : ServerResponse) (w : World) (id : string) (sv : nat) :
  forallb (fun a => negb (closes a)) (actions c) = true ->
  owner <$> transports w !! t = Some sv ->
  sessions w !! id = Some {| transport := t; server := sv |} ->
  sessions (snd (sdk_call t c res w)) !! id
  = Some {| transport := t; server := sv |}.
Proof.
  destruct c as [l o]. revert res w.
  induction l as [|a l IH]; intros res w; [done|].
  cbn [actions forallb]. intros [Ha Hl]%andb_prop Hown Hs.
  rewrite sdk_call_cons.
  destruct (run_action_frame t a res w) as (_ & _ & Hframe).
  apply IH; [done|by rewrite Hframe|].
  destruct a as [id'| |code|code headers| |data|data]; simpl in *;
    try done.
  - rewrite lookup_alter_eq.
    destruct (transports w !! t) as [tr|]; [|done].
    simpl in *. injection Hown as ->.
    destruct (decide (id' = id)) as [->|Hne].
    + by rewrite lookup_insert_eq.
    + by rewrite lookup_insert_ne.
  - by destruct (writeHead code headers res).
Qed.

(** The session the SDK initializes is registered with the transport and its
    server instance, and stays unless the transport is closed later. *)
Lemma sdk_call_registered (t : nat) (c : SdkCall) (res : ServerResponse)
    (w : World) (id : string) (sv : nat) (pre post : list SdkAction) :
  owner <$> transports w !! t = Some sv ->
  actions c = pre ++ InitializeSession id :: post ->
  forallb (fun a => negb (closes a)) post = true ->
  sessions (snd (sdk_call t c res w)) !! id
  = Some {| transport := t; server := sv |}
  /\ "New session created: " +:+ id ∈ logged (snd (sdk_call t c res w)).
Proof.
  destruct c as [l o]. cbn [actions]. intros Hown -> Hpost.
  rewrite (sdk_call_app t pre _ o o).
  set (p := sdk_call t {| actions := pre; outcome := o |} res w).
  destruct (sdk_call_frame t {| actions := pre; outcome := o |} res w)
    as (_ & _ & Hframe).
  fold p in Hframe. cbv zeta in Hframe.
  assert (owner <$> transports (snd p) !! t = Some sv) as Hown1
    by (by rewrite Hframe).
  clearbody p. rewrite sdk_call_cons.
  destruct (run_action_frame t (InitializeSession id) (snd (fst p)) (snd p))
    as (_ & _ & Hframe2).
  assert (sessions (snd (run_action t (InitializeSession id)
                           (snd (fst p), snd p))) !! id
          = Some {| transport := t; server := sv |}
          /\ "New session created: " +:+ id
             ∈ logged (snd (run_action t (InitializeSession id)
                              (snd (fst p), snd p)))) as [Hreg Hlog].
  { simpl. rewrite lookup_alter_eq.
    destruct (transports (snd p) !! t) as [tr|]; [|done].
    simpl in *. injection Hown1 as ->.
    rewrite lookup_insert_eq. split; [done|].
    apply elem_of_app. right. apply list_elem_of_here. }
  split.
  - apply sdk_call_keeps_registered; [done| |done].
    cbv zeta in Hframe2. by rewrite Hframe2.
  - destruct (sdk_call_logs_more t {| actions := post; outcome := o |}
                (fst (run_action t (InitializeSession id)
                        (snd (fst p), snd p)))
                (snd (run_action t (InitializeSession id)
                        (snd (fst p), snd p)))) as [more ->].
    apply elem_of_app. by left.
Qed.

End HttpFacts.

Section HttpProperties.

Import Http.

(** C5: whatever the session registry holds, also nothing, a request to
    [/health] is answered with status 200 and the JSON object with
    [status: 'healthy'] and the timestamp; the answer is the same for every
    state of the module, and the state is left as it was. *)
Theorem health_is_always_healthy (req : IncomingMessage) (now : string)
    (sdk : SdkBehaviour) (w : World) :
  pathname req = "/health" ->
  onRequest req now sdk w =
  (Normal tt,
   {| statusCode := 200;
      sent := Some (200%Z, [("Content-Type", "application/json")]);
      body := [JsonBody [("status", "healthy"); ("timestamp", now)]];
      writableEnded := true |},
   w)
  /\ status_sent (snd (fst (onRequest req now sdk w))) = Some 200%Z.
Proof. intros H. unfold onRequest. rewrite H. by simpl. Qed.

Lemma health_is_always_healthy_witness :
  status_sent
    (snd (fst (onRequest Example.get_health Example.noon Example.sdk_quiet
                 Example.empty_world))) = Some 200%Z.
Proof.
  exact (proj2 (health_is_always_healthy Example.get_health Example.noon
                  Example.sdk_quiet Example.empty_world eq_refl)).
Defined.

(** C3: a request to [/mcp] whose [mcp-session-id] header names a session
    the registry does not hold is answered 404 [Session not found]; no
    server instance or transport is built and the registry, like the rest
    of the module state, is left as it was. *)
Theorem unknown_session_is_rejected (req : IncomingMessage) (now : string)
    (sdk : SdkBehaviour) (w : World) (id : string) :
  pathname req = "/mcp" ->
  mcp_session_id req = Some id ->
  id <> "" ->
  sessions w !! id = None ->
  onRequest req now sdk w =
  (Normal tt,
   {| statusCode := 404;
      sent := Some (404%Z, []);
      body := [TextBody "Session not found"];
      writableEnded := true |},
   w).
Proof.
  intros Hpath Hid Hne Hnone. unfold onRequest, handleMcpRequest.
  rewrite Hpath, Hid. simpl.
  apply String.eqb_neq in Hne. rewrite Hne. simpl. by rewrite Hnone.
Qed.

Lemma unknown_session_is_rejected_witness :
  snd (onRequest Example.stale_session_request Example.noon Example.sdk_quiet
         Example.empty_world) = Example.empty_world
  /\ status_sent
       (snd (fst (onRequest Example.stale_session_request Example.noon
                    Example.sdk_quiet Example.empty_world))) = Some 404%Z.
Proof.
  rewrite (unknown_session_is_rejected Example.stale_session_request
             Example.noon Example.sdk_quiet Example.empty_world
             "0f8fad5b-d9cb-469f-a165-70867728950e" eq_refl eq_refl
             ltac:(discriminate) eq_refl).
  split; reflexivity.
Defined.

(** [createNewSession], told apart by how the two calls into the SDK end. *)
Lemma createNewSession_cases (req : IncomingMessage) (res : ServerResponse)
    (sdk : SdkBehaviour) (w : World) :
  let w0 := snd (build_session w) in
  let t := next_transport w in
  let c1 := sdk_call t (on_connect sdk) res w0 in
  let c2 := sdk_call t (on_handleRequest sdk) (snd (fst c1)) (snd c1) in
  createNewSession req res sdk w =
  match outcome (on_connect sdk) with
  | Normal _ =>
      match outcome (on_handleRequest sdk) with
      | Normal _ => (Normal tt, snd (fst c2), snd c2)
      | Throw error =>
          (Normal tt,
           end_response (TextBody "Internal server error")
             (set_statusCode 500 (snd (fst c2))),
           log ("HTTP connection error: " +:+ ToString error) (snd c2))
      | Pending => (Pending, snd (fst c2), snd c2)
      end
  | Throw error =>
      (Normal tt,
       end_response (TextBody "Internal server error")
         (set_statusCode 500 (snd (fst c1))),
       log ("HTTP connection error: " +:+ ToString error) (snd c1))
  | Pending => (Pending, snd (fst c1), snd c1)
  end.
Proof.
  cbv zeta. unfold createNewSession, build_session. simpl.
  pose proof (sdk_call_outcome (next_transport w) (on_connect sdk) res
                (snd (build_session w))) as H1.
  unfold build_session in H1. simpl in H1.
  destruct (sdk_call (next_transport w) (on_connect sdk) res _)
    as [[o1 res1] w1]. simpl in *. subst o1.
  destruct (outcome (on_connect sdk)); try done.
  pose proof (sdk_call_outcome (next_transport w) (on_handleRequest sdk)
                res1 w1) as H2.
  destruct (sdk_call (next_transport w) (on_handleRequest sdk) res1 w1)
    as [[o2 res2] w2]. simpl in *. subst o2.
  by destruct (outcome (on_handleRequest sdk)).
Qed.

(** What [createNewSession] leaves in the module state, however it ends: one
    more server instance, one more transport, owned by that instance, and in
    the registry nothing new but what the session-initialization callback
    of that transport put there. *)
Lemma createNewSession_world (req : IncomingMessage) (res : ServerResponse)
    (sdk : SdkBehaviour) (w : World) :
  let w' := snd (createNewSession req res sdk w) in
  servers_created w' = S (servers_created w)
  /\ next_transport w' = S (next_transport w)
  /\ owner <$> transports w' !! next_transport w = Some (servers_created w)
  /\ (forall id s,
        sessions w' !! id = Some s ->
        sessions w !! id = Some s
        \/ (InitializeSession id ∈ performed sdk
            /\ s = {| transport := next_transport w;
                      server := servers_created w |})).
Proof.
  cbv zeta. rewrite createNewSession_cases. cbv zeta.
  set (t := next_transport w).
  set (w0 := snd (build_session w)).
  set (c1 := sdk_call t (on_connect sdk) res w0).
  set (c2 := sdk_call t (on_handleRequest sdk) (snd (fst c1)) (snd c1)).
  destruct (sdk_call_frame t (on_connect sdk) res w0) as (F1 & F2 & F3).
  destruct (sdk_call_frame t (on_handleRequest sdk) (snd (fst c1)) (snd c1))
    as (G1 & G2 & G3).
  fold c1 in F1, F2, F3. fold c2 in G1, G2, G3.
  assert (owner <$> transports w0 !! t = Some (servers_created w)) as Hown.
  { subst w0 t. simpl. by rewrite lookup_insert_eq. }
  assert (forall id s, sessions (snd c1) !! id = Some s ->
            sessions w !! id = Some s
            \/ (InitializeSession id ∈ actions (on_connect sdk)
                /\ s = {| transport := next_transport w;
                          server := servers_created w |})) as R1.
  { intros id s H. apply sdk_call_registers in H as [H|(Hin & Ht & Hs)].
    - by left.
    - right. split; [done|]. rewrite Hown in Hs. injection Hs as Hs.
      destruct s as [st ss]. simpl in *. by subst. }
  assert (forall id s, sessions (snd c2) !! id = Some s ->
            sessions w !! id = Some s
            \/ (InitializeSession id
                  ∈ actions (on_connect sdk) ++ actions (on_handleRequest sdk)
                /\ s = {| transport := next_transport w;
                          server := servers_created w |})) as R2.
  { intros id s H. apply sdk_call_registers in H as [H|(Hin & Ht & Hs)].
    - destruct (R1 id s H) as [?|[? ?]]; [by left|].
      right. split; [|done]. apply elem_of_app. by left.
    - right. split; [apply elem_of_app; by right|].
      rewrite F3, Hown in Hs. injection Hs as Hs.
      destruct s as [st ss]. simpl in *. by subst. }
  assert (servers_created w0 = S (servers_created w)) as W1 by done.
  assert (next_transport w0 = S t) as W2 by done.
  clearbody c2 c1 w0. unfold performed.
  destruct (outcome (on_connect sdk));
    [destruct (outcome (on_handleRequest sdk))|..]; simpl;
    (split; [congruence|]);
    (split; [congruence|]);
    (split; [rewrite ?G3, ?F3; exact Hown|]); auto.
Qed.

(** [createNewSession] by the actions the SDK performs in it: the two calls
    are one run of these actions on the new transport, and the catch clause
    adds its log line and its answer. *)
Lemma createNewSession_performed (req : IncomingMessage)
    (res : ServerResponse) (sdk : SdkBehaviour) (w : World) :
  let p :=
    sdk_call (next_transport w)
      {| actions := performed sdk; outcome := Normal tt |} res
      (snd (build_session w)) in
  let failed error :=
    (Normal tt,
     end_response (TextBody "Internal server error")
       (set_statusCode 500 (snd (fst p))),
     log ("HTTP connection error: " +:+ ToString error) (snd p)) in
  createNewSession req res sdk w =
  match outcome (on_connect sdk) with
  | Normal _ =>
      match outcome (on_handleRequest sdk) with
      | Normal _ => p
      | Throw error => failed error
      | Pending => (Pending, snd (fst p), snd p)
      end
  | Throw error => failed error
  | Pending => (Pending, snd (fst p), snd p)
  end.
Proof.
  cbv zeta. rewrite createNewSession_cases. cbv zeta. unfold performed.
  destruct (on_connect sdk) as [l1 o1], (on_handleRequest sdk) as [l2 o2].
  cbn [actions outcome].
  destruct o1 as [[]|e1|].
  - rewrite (sdk_call_app _ l1 l2 (Normal tt) (Normal tt)).
    set (c1 := sdk_call (next_transport w)
                 {| actions := l1; outcome := Normal tt |} res
                 (snd (build_session w))).
    rewrite (sdk_call_any_outcome _ l2 o2). cbn [fst snd].
    destruct o2 as [[]|e2|]; try done.
    symmetry. apply sdk_call_any_outcome.
  - by rewrite (sdk_call_any_outcome _ l1 (Throw e1)).
  - by rewrite (sdk_call_any_outcome _ l1 Pending).
Qed.

(** C4: a request to [/mcp] without a session identifier.  With the method
    POST a new session is set up: one server instance and one transport are
    built and handed to the SDK, whose actions during [connect] and
    [handleRequest] are performed on that transport.  The session the SDK
    initializes enters the registry, as the session of that transport and
    that instance, and is logged (it stays unless the SDK closes the
    transport afterwards); an entry enters the registry only through this
    callback, so that without an initialization the registry stays as it
    was; and when both calls return, the answer and the state are what the
    SDK made them.  With any other method the answer is 400 and the module
    state is left as it was. *)
Theorem sessionless_request_creates_or_rejects (req : IncomingMessage)
    (now : string) (sdk : SdkBehaviour) (w : World) :
  pathname req = "/mcp" ->
  truthy (mcp_session_id req) = false ->
  let out := onRequest req now sdk w in
  (method req = "POST" ->
   servers_created (snd out) = S (servers_created w)
   /\ next_transport (snd out) = S (next_transport w)
   /\ owner <$> transports (snd out) !! next_transport w
      = Some (servers_created w)
   /\ (forall id s,
         sessions (snd out) !! id = Some s ->
         sessions w !! id = Some s
         \/ (InitializeSession id ∈ performed sdk
             /\ s = {| transport := next_transport w;
                       server := servers_created w |}))
   /\ (forall id pre post,
         performed sdk = pre ++ InitializeSession id :: post ->
         forallb (fun a => negb (closes a)) post = true ->
         sessions (snd out) !! id
         = Some {| transport := next_transport w;
                   server := servers_created w |}
         /\ "New session created: " +:+ id ∈ logged (snd out))
   /\ (forallb (fun a => negb (initializes a)) (performed sdk) = true ->
       sessions (snd out) = sessions w)
   /\ (outcome (on_connect sdk) = Normal tt ->
       outcome (on_handleRequest sdk) = Normal tt ->
       out =
       sdk_call (next_transport w)
         {| actions := performed sdk; outcome := Normal tt |}
         fresh_response (snd (build_session w))))
  /\ (method req <> "POST" ->
      out =
      (Normal tt,
       {| statusCode := 400;
          sent := Some (400%Z, []);
          body := [TextBody "Invalid request"];
          writableEnded := true |},
       w)).
Proof.
  intros Hpath Hsid out. subst out. unfold onRequest, handleMcpRequest.
  rewrite Hpath, Hsid. simpl. split.
  - intros ->. simpl.
    destruct (createNewSession_world req fresh_response sdk w)
      as (W1 & W2 & W3 & W4).
    do 4 (split; [done|]). clear W1 W2 W3 W4.
    rewrite createNewSession_performed. cbv zeta.
    set (t := next_transport w).
    set (w0 := snd (build_session w)).
    set (p := sdk_call t {| actions := performed sdk; outcome := Normal tt |}
                fresh_response w0).
    assert (owner <$> transports w0 !! t = Some (servers_created w)) as Hown.
    { subst w0 t. simpl. by rewrite lookup_insert_eq. }
    assert ((sessionId <$> transports w0 !! t) = Some None) as Hnew.
    { subst w0 t. simpl. by rewrite lookup_insert_eq. }
    split; [|split].
    + intros id pre post Hp Hpost.
      destruct (sdk_call_registered t
                  {| actions := performed sdk; outcome := Normal tt |}
                  fresh_response w0 id (servers_created w) pre post
                  Hown Hp Hpost) as [Hreg Hlog].
      fold p in Hreg, Hlog.
      destruct (outcome (on_connect sdk)) as [[]|e1|];
        [destruct (outcome (on_handleRequest sdk)) as [[]|e2|]|..];
        simpl; (split; [done|]); rewrite ?elem_of_app; auto.
    + intros Hinit.
      destruct (sdk_call_without_initialization t
                  {| actions := performed sdk; outcome := Normal tt |}
                  fresh_response w0 Hinit Hnew) as (Hs & _).
      fold p in Hs.
      destruct (outcome (on_connect sdk)) as [[]|e1|];
        [destruct (outcome (on_handleRequest sdk)) as [[]|e2|]|..];
        simpl; exact Hs.
    + by intros -> ->.
  - intros Hm. apply String.eqb_neq in Hm. by rewrite Hm.
Qed.

Lemma sessionless_request_creates_or_rejects_witness :
  sessions
    (snd (onRequest Example.post_mcp Example.noon
            (Example.sdk_initializes Example.session_a) Example.empty_world))
    !! Example.session_a = Some {| transport := 0; server := 0 |}
  /\ onRequest Example.get_mcp Example.noon Example.sdk_quiet
       Example.empty_world =
     (Normal tt,
      {| statusCode := 400;
         sent := Some (400%Z, []);
         body := [TextBody "Invalid request"];
         writableEnded := true |},
      Example.empty_world).
Proof.
  split.
  - pose proof (proj1 (sessionless_request_creates_or_rejects
                         Example.post_mcp Example.noon
                         (Example.sdk_initializes Example.session_a)
                         Example.empty_world eq_refl eq_refl) eq_refl)
      as (_ & _ & _ & _ & Hreg & _).
    exact (proj1 (Hreg Example.session_a []
                    [End (TextBody "event: message")] eq_refl eq_refl)).
  - exact (proj2 (sessionless_request_creates_or_rejects
                    Example.get_mcp Example.noon Example.sdk_quiet
                    Example.empty_world eq_refl eq_refl)
             ltac:(discriminate)).
Defined.

(** C9 as stated fails, in both halves of what it promises.  First run:
    the SDK runs the session-initialization callback while it handles the
    first request, then the handling fails; the request is answered 500,
    and the session the callback registered is still in the registry:
    nothing on the error path removes it.  Second run: the SDK has also
    written the head of its answer before the handling fails; the status
    code set in the catch clause comes too late, and the client has been
    sent 200. *)
Lemma failed_session_creation_keeps_session_and_head :
  let out :=
    onRequest Example.post_mcp Example.noon
      Example.sdk_fails_after_initialization Example.empty_world in
  let out2 :=
    onRequest Example.post_mcp Example.noon
      Example.sdk_fails_after_head Example.empty_world in
  (outcome (on_handleRequest Example.sdk_fails_after_initialization) =
   Throw (JsError "Error" "write EPIPE")
   /\ status_sent (snd (fst out)) = Some 500%Z
   /\ logged (snd out) =
      ["New session created: 7d1f2c1e-5f0b-4c57-9a53-0c6f8e7b1a42";
       "HTTP connection error: Error: write EPIPE"]
   /\ sessions Example.empty_world
        !! "7d1f2c1e-5f0b-4c57-9a53-0c6f8e7b1a42" = None
   /\ sessions (snd out) !! "7d1f2c1e-5f0b-4c57-9a53-0c6f8e7b1a42" =
      Some {| transport := 0; server := 0 |})
  /\ (outcome (on_handleRequest Example.sdk_fails_after_head) =
      Throw (JsError "Error" "write EPIPE")
      /\ fst (fst out2) = Normal tt
      /\ status_sent (snd (fst out2)) = Some 200%Z
      /\ statusCode (snd (fst out2)) = 500%Z
      /\ body (snd (fst out2)) = [TextBody "Internal server error"]
      /\ logged (snd out2) =
         ["New session created: 7d1f2c1e-5f0b-4c57-9a53-0c6f8e7b1a42";
          "HTTP connection error: Error: write EPIPE"]
      /\ sessions (snd out2) !! "7d1f2c1e-5f0b-4c57-9a53-0c6f8e7b1a42" =
         Some {| transport := 0; server := 0 |}).
Proof. cbv zeta. repeat split; vm_compute; reflexivity. Qed.

(** C9, amended: when [connect] or the handling of the first request fails
    in a session-less POST, the fault is logged, the status code is set to
    500 and the response is ended.  The client is sent the 500 with
    [Internal server error] when the SDK had sent nothing before the fault;
    a head the SDK had written before stays what the client got, and once
    the SDK has sent anything the client gets no 500 unless the SDK chose
    that status itself.  The
    registry is not rolled back: it stays as it was when the SDK had not
    initialized the session (as when [connect] fails), and it holds the
    session the SDK had initialized, unless the SDK closed the transport
    afterwards; nothing else enters it. *)
Theorem failed_session_creation_answers_500 (req : IncomingMessage)
    (now : string) (sdk : SdkBehaviour) (w : World) (e : JsValue) :
  pathname req = "/mcp" ->
  truthy (mcp_session_id req) = false ->
  method req = "POST" ->
  outcome (on_connect sdk) = Throw e
  \/ (outcome (on_connect sdk) = Normal tt
      /\ outcome (on_handleRequest sdk) = Throw e) ->
  let out := onRequest req now sdk w in
  fst (fst out) = Normal tt
  /\ last (logged (snd out)) = Some ("HTTP connection error: " +:+ ToString e)
  /\ statusCode (snd (fst out)) = 500%Z
  /\ writableEnded (snd (fst out)) = true
  /\ (forallb (fun a => negb (sends_head a)) (performed sdk) = true ->
      status_sent (snd (fst out)) = Some 500%Z
      /\ body (snd (fst out)) = [TextBody "Internal server error"])
  /\ (forall pre code headers post,
        performed sdk = pre ++ WriteHead code headers :: post ->
        forallb (fun a => negb (sends_head a)) pre = true ->
        sent (snd (fst out)) = Some (code, headers))
  /\ (existsb sends_head (performed sdk) = true ->
      forallb (fun a => negb (answers_500 a)) (performed sdk) = true ->
      status_sent (snd (fst out)) <> Some 500%Z)
  /\ (forallb (fun a => negb (initializes a)) (performed sdk) = true ->
      sessions (snd out) = sessions w)
  /\ (forall id pre post,
        performed sdk = pre ++ InitializeSession id :: post ->
        forallb (fun a => negb (closes a)) post = true ->
        sessions (snd out) !! id
        = Some {| transport := next_transport w;
                  server := servers_created w |})
  /\ (forall id s,
        sessions (snd out) !! id = Some s ->
        sessions w !! id = Some s
        \/ (InitializeSession id ∈ performed sdk
            /\ s = {| transport := next_transport w;
                      server := servers_created w |})).
Proof.
  intros Hpath Hsid Hpost Hfail out.
  assert (out = createNewSession req fresh_response sdk w) as Hout.
  { subst out. unfold onRequest, handleMcpRequest.
    by rewrite Hpath, Hsid, Hpost. }
  rewrite Hout. clear Hout out.
  destruct (createNewSession_world req fresh_response sdk w)
    as (_ & _ & _ & Hreg).
  revert Hreg. rewrite createNewSession_performed. cbv zeta.
  set (t := next_transport w).
  set (w0 := snd (build_session w)).
  set (c := {| actions := performed sdk; outcome := Normal tt |}).
  set (p := sdk_call t c fresh_response w0).
  assert (owner <$> transports w0 !! t = Some (servers_created w)) as Hown.
  { subst w0 t. simpl. by rewrite lookup_insert_eq. }
  assert ((sessionId <$> transports w0 !! t) = Some None) as Hnew.
  { subst w0 t. simpl. by rewrite lookup_insert_eq. }
  assert (sessions w0 = sessions w) as Hw0 by done.
  assert (match outcome (on_connect sdk) with
          | Normal _ =>
              match outcome (on_handleRequest sdk) with
              | Normal _ => p
              | Throw error =>
                  (Normal tt,
                   end_response (TextBody "Internal server error")
                     (set_statusCode 500 (snd (fst p))),
                   log ("HTTP connection error: " +:+ ToString error) (snd p))
              | Pending => (Pending, snd (fst p), snd p)
              end
          | Throw error =>
              (Normal tt,
               end_response (TextBody "Internal server error")
                 (set_statusCode 500 (snd (fst p))),
               log ("HTTP connection error: " +:+ ToString error) (snd p))
          | Pending => (Pending, snd (fst p), snd p)
          end
          = (Normal tt,
             end_response (TextBody "Internal server error")
               (set_statusCode 500 (snd (fst p))),
             log ("HTTP connection error: " +:+ ToString e) (snd p))) as ->.
  { destruct Hfail as [->|[-> ->]]; done. }
  cbn [fst snd]. intros Hreg.
  split; [done|]. split; [by simpl; rewrite last_snoc|].
  assert (statusCode
            (end_response (TextBody "Internal server error")
               (set_statusCode 500 (snd (fst p)))) = 500%Z
          /\ writableEnded
               (end_response (TextBody "Internal server error")
                  (set_statusCode 500 (snd (fst p)))) = true) as [Hc He].
  { unfold end_response, set_statusCode. simpl.
    by destruct (writableEnded (snd (fst p))) eqn:Ew. }
  split; [exact Hc|]. split; [exact He|].
  split; [|split; [|split; [|split; [|split; [|exact Hreg]]]]].
  - intros Hno.
    destruct (sdk_call_without_head t c fresh_response w0 Hno)
      as (S1 & B1 & W1). fold p in S1, B1, W1. simpl in S1, B1, W1.
    unfold end_response, set_statusCode, status_sent. simpl.
    by rewrite W1, S1, B1.
  - intros pre code headers post Hp Hpre.
    pose proof (sdk_call_writes_head t c fresh_response w0 pre post code
                  headers Hp Hpre eq_refl) as Hs. fold p in Hs.
    unfold end_response, set_statusCode. simpl.
    destruct (writableEnded (snd (fst p))); simpl; by rewrite Hs.
  - intros Hhead Hnot.
    destruct (sdk_call_head_not_500 t c fresh_response w0 Hnot)
      as (_ & S2 & _ & S4); [done|done|done|].
    fold p in S2, S4. cbv zeta in S2, S4.
    specialize (S4 (or_introl Hhead)).
    unfold end_response, set_statusCode, status_sent in *. simpl.
    destruct (writableEnded (snd (fst p))); simpl; [exact S2|].
    by destruct (sent (snd (fst p))).
  - intros Hinit.
    destruct (sdk_call_without_initialization t c fresh_response w0
                Hinit Hnew) as (Hs & _).
    fold p in Hs. simpl. congruence.
  - intros id pre post Hp Hcl.
    destruct (sdk_call_registered t c fresh_response w0 id
                (servers_created w) pre post Hown Hp Hcl) as [Hs _].
    exact Hs.
Qed.

Lemma failed_session_creation_answers_500_witness :
  let out :=
    onRequest Example.post_mcp Example.noon Example.sdk_connect_fails
      Example.empty_world in
  status_sent (snd (fst out)) = Some 500%Z
  /\ sessions (snd out) = sessions Example.empty_world.
Proof.
  cbv zeta.
  pose proof (failed_session_creation_answers_500 Example.post_mcp
                Example.noon Example.sdk_connect_fails Example.empty_world
                (JsError "Error" "Transport already started")
                eq_refl eq_refl eq_refl (or_introl eq_refl))
    as (_ & _ & _ & _ & Hsent & _ & _ & Hreg & _).
  split; [exact (proj1 (Hsent eq_refl))|exact (Hreg eq_refl)].
Defined.

End HttpProperties.

(** ** The dispatch guard under interleaving *)

Import Dispatch.

Section GuardInvariant.

Lemma invariant_initial :
  guard_invariant None {| locked := false; acquirers := [] |} [] [].
Proof.
  constructor; simpl; try done.
  - intros i. split; [by intros ?%elem_of_nil|done].
  - constructor.
Qed.

Lemma invariant_arrive (h : option nat) (m : Mutex) (tr : list Event)
    (phs : list Phase) :
  guard_invariant h m tr phs -> guard_invariant h m tr (phs ++ [Queued]).
Proof.
  intros [H1 H2 H3 H4 H5 H6 H7 H8]. constructor; auto.
  - intros i a [Hi|[Hge Hi]]%lookup_app_Some; [by apply H2|].
    destruct (i - length phs) as [|n]; [|done]. injection Hi as <-.
    simpl. split; [done|]. intros Hh%H3. lia.
  - intros i Hi%H3. rewrite length_app. lia.
  - intros i. rewrite H4. split.
    + intros Hi. by apply lookup_app_l_Some.
    + intros [Hi|[Hge Hi]]%lookup_app_Some; [done|].
      by destruct (i - length phs) as [|n].
  - intros i a [Hi|[Hge Hi]]%lookup_app_Some; [by apply H7|].
    destruct (i - length phs) as [|n]; [|done]. injection Hi as <-.
    simpl. by apply H8.
  - intros i. rewrite length_app. simpl. intros Hi. apply H8. lia.
Qed.

Lemma invariant_grant (h : option nat) (m : Mutex) (tr tr' : list Event)
    (phs : list Phase) (i : nat) :
  guard_invariant h m tr phs ->
  phs !! i = Some Queued ->
  locked m = false ->
  adds_guard_events i 1 0 tr tr' ->
  guard_invariant (Some i) {| locked := true; acquirers := acquirers m |} tr'
    (<[i := Guarded]> phs).
Proof.
  intros [H1 H2 H3 H4 H5 H6 H7 H8] Hi Hfree Hadd.
  assert (h = None) as ->.
  { destruct h as [j|]; [|done].
    assert (locked m = true) by (apply H1; eauto). congruence. }
  pose proof (lookup_lt_Some _ _ _ Hi) as Hlt.
  constructor; simpl.
  - split; [eauto|done].
  - intros j a [(<- & <- & _)|[Hne Hj]]%list_lookup_insert_Some; [done|].
    rewrite (H2 j a Hj). split; [done|]. intros [= ->]. done.
  - intros j [= <-]. by rewrite length_insert.
  - intros j. rewrite H4. split.
    + intros Hj. rewrite list_lookup_insert_ne; [done|]. congruence.
    + intros [(_ & ? & _)|[_ Hj]]%list_lookup_insert_Some; done.
  - done.
  - done.
  - intros j a [(<- & <- & _)|[Hne Hj]]%list_lookup_insert_Some.
    + destruct (Hadd i) as [Ha Hd]. rewrite Nat.eqb_refl in Ha, Hd.
      destruct (H7 i Queued Hi) as [Ha0 Hd0]. simpl in *. lia.
    + destruct (Hadd j) as [Ha Hd].
      apply Nat.eqb_neq in Hne. rewrite Hne in Ha, Hd.
      destruct (H7 j a Hj). lia.
  - intros j. rewrite length_insert. intros Hj.
    destruct (Hadd j) as [Ha Hd].
    assert (Nat.eqb i j = false) as Hne by (apply Nat.eqb_neq; lia).
    rewrite Hne in Ha, Hd. destruct (H8 j Hj). lia.
Qed.

Lemma invariant_block (h : option nat) (m : Mutex) (tr tr' : list Event)
    (phs : list Phase) (i : nat) :
  guard_invariant h m tr phs ->
  phs !! i = Some Queued ->
  locked m = true ->
  adds_guard_events i 1 0 tr tr' ->
  guard_invariant h {| locked := true; acquirers := acquirers m ++ [i] |} tr'
    (<[i := Waiting]> phs).
Proof.
  intros [H1 H2 H3 H4 H5 H6 H7 H8] Hi Hlocked Hadd.
  pose proof (lookup_lt_Some _ _ _ Hi) as Hlt.
  assert (i ∉ acquirers m) as Hnotin.
  { rewrite H4. congruence. }
  constructor; simpl.
  - split; [intros _; by apply H1|done].
  - intros j a [(<- & <- & _)|[Hne Hj]]%list_lookup_insert_Some;
      [|by apply H2].
    simpl. rewrite <- (H2 i Queued Hi). done.
  - intros j Hj%H3. by rewrite length_insert.
  - intros j. rewrite elem_of_app, list_elem_of_singleton, H4. split.
    + intros [Hj| ->]; [|by apply list_lookup_insert_eq].
      rewrite list_lookup_insert_ne; [done|]. congruence.
    + intros [(<- & _ & _)|[_ Hj]]%list_lookup_insert_Some; auto.
  - apply NoDup_app. split; [done|]. split; [|apply NoDup_singleton].
    intros j Hj ->%list_elem_of_singleton. done.
  - intros ->. apply H1 in Hlocked. by destruct Hlocked.
  - intros j a [(<- & <- & _)|[Hne Hj]]%list_lookup_insert_Some.
    + destruct (Hadd i) as [Ha Hd]. rewrite Nat.eqb_refl in Ha, Hd.
      destruct (H7 i Queued Hi) as [Ha0 Hd0]. simpl in *. lia.
    + destruct (Hadd j) as [Ha Hd].
      apply Nat.eqb_neq in Hne. rewrite Hne in Ha, Hd.
      destruct (H7 j a Hj). lia.
  - intros j. rewrite length_insert. intros Hj.
    destruct (Hadd j) as [Ha Hd].
    assert (Nat.eqb i j = false) as Hne by (apply Nat.eqb_neq; lia).
    rewrite Hne in Ha, Hd. destruct (H8 j Hj). lia.
Qed.

Lemma invariant_progress (h : option nat) (m : Mutex) (tr tr' : list Event)
    (phs : list Phase) (i : nat) (a a' : Phase) :
  guard_invariant h m tr phs ->
  phs !! i = Some a ->
  holds_guard a = true ->
  holds_guard a' = true ->
  adds_guard_events i 0 0 tr tr' ->
  guard_invariant h m tr' (<[i := a']> phs).
Proof.
  intros [H1 H2 H3 H4 H5 H6 H7 H8] Hi Ha Ha' Hadd.
  pose proof (lookup_lt_Some _ _ _ Hi) as Hlt.
  assert (forall k, count_acquire k tr' = count_acquire k tr
                    /\ count_dispose k tr' = count_dispose k tr) as Hsame.
  { intros k. destruct (Hadd k) as [? ?]. destruct (Nat.eqb i k); lia. }
  constructor; auto.
  - intros j b [(<- & <- & _)|[Hne Hj]]%list_lookup_insert_Some;
      [|by apply H2].
    rewrite <- (H2 i a Hi). by rewrite Ha, Ha'.
  - intros j Hj%H3. by rewrite length_insert.
  - intros j. rewrite H4. split.
    + intros Hj. rewrite list_lookup_insert_ne; [done|].
      intros <-. rewrite Hi in Hj. injection Hj as ->. done.
    + intros [(<- & -> & _)|[_ Hj]]%list_lookup_insert_Some; done.
  - intros j b [(<- & <- & _)|[Hne Hj]]%list_lookup_insert_Some.
    + destruct (Hsame i) as [-> ->]. destruct (H7 i a Hi) as [-> ->].
      by destruct a, a'.
    + destruct (Hsame j) as [-> ->]. by apply H7.
  - intros j. rewrite length_insert. intros Hj.
    destruct (Hsame j) as [-> ->]. by apply H8.
Qed.

Lemma invariant_exit (h : option nat) (m : Mutex) (tr tr' : list Event)
    (phs : list Phase) (i : nat) (a a' : Phase) :
  guard_invariant h m tr phs ->
  phs !! i = Some a ->
  holds_guard a = true ->
  finished a' = true ->
  adds_guard_events i 0 1 tr tr' ->
  guard_invariant (snd (Mutex_release m)) (fst (Mutex_release m)) tr'
    (resume_phases (snd (Mutex_release m)) (<[i := a']> phs)).
Proof.
  intros [H1 H2 H3 H4 H5 H6 H7 H8] Hi Ha Ha' Hadd.
  pose proof (lookup_lt_Some _ _ _ Hi) as Hlt.
  assert (h = Some i) as -> by by apply (H2 i a Hi).
  assert (holds_guard a' = false /\ is_queued a' = false /\ a' <> Waiting)
    as (Hg' & Hq' & Hw') by (by destruct a').
  assert (is_queued a = false /\ finished a = false /\ a <> Waiting)
    as (Hq & Hf & Hw) by (by destruct a).
  assert (forall k, k <> i ->
            count_acquire k tr' = count_acquire k tr
            /\ count_dispose k tr' = count_dispose k tr) as Hother.
  { intros k Hk. destruct (Hadd k) as [? ?].
    assert (Nat.eqb i k = false) as E by (apply Nat.eqb_neq; congruence).
    rewrite E in *. lia. }
  assert (count_acquire i tr' = 1 /\ count_dispose i tr' = 1) as [Hai Hdi].
  { destruct (Hadd i) as [? ?]. rewrite Nat.eqb_refl in *.
    destruct (H7 i a Hi) as [? ?]. rewrite Hq, Hf in *. lia. }
  unfold Mutex_release. destruct (acquirers m) as [|w ws] eqn:Eacq; simpl.
  - constructor; simpl; try done.
    + intros j b [(<- & <- & _)|[Hne Hj]]%list_lookup_insert_Some.
      * by rewrite Hg'.
      * rewrite (H2 j b Hj). split; [|done]. intros [= ->]. done.
    + intros j. split; [by intros ?%elem_of_nil|].
      intros [(<- & -> & _)|[_ Hj]]%list_lookup_insert_Some; [done|].
      apply H4 in Hj. by apply elem_of_nil in Hj.
    + intros j b [(<- & <- & _)|[Hne Hj]]%list_lookup_insert_Some.
      * by rewrite Hq', Ha'.
      * destruct (Hother j) as [-> ->]; [congruence|]. by apply H7.
    + intros j. rewrite length_insert. intros Hj.
      destruct (Hother j) as [-> ->]; [lia|]. by apply H8.
  - assert (phs !! w = Some Waiting) as Hwait.
    { apply H4. apply list_elem_of_here. }
    assert (w <> i) as Hwi.
    { intros ->. rewrite Hi in Hwait. injection Hwait as ->. done. }
    pose proof (lookup_lt_Some _ _ _ Hwait) as Hwlt.
    apply NoDup_cons in H5 as [Hnotin Hnd].
    constructor; simpl.
    + split; [eauto|done].
    + intros j b [(<- & <- & _)|[Hne Hj]]%list_lookup_insert_Some; [done|].
      apply list_lookup_insert_Some in Hj as [(<- & <- & _)|[Hne' Hj]].
      * rewrite Hg'. split; [done|]. intros [= ->]. done.
      * rewrite (H2 j b Hj). split; intros [= ->]; done.
    + intros j [= <-]. by rewrite !length_insert.
    + intros j. split.
      * intros Hj. assert (j <> w) by (intros ->; done).
        assert (phs !! j = Some Waiting) as Hjw
          by (apply H4; by apply list_elem_of_further).
        rewrite list_lookup_insert_ne by done.
        rewrite list_lookup_insert_ne; [done|].
        intros <-. rewrite Hi in Hjw. injection Hjw as ->. done.
      * intros [(<- & ? & _)|[Hne Hj]]%list_lookup_insert_Some; [done|].
        apply list_lookup_insert_Some in Hj as [(<- & -> & _)|[Hne' Hj]];
          [done|].
        apply H4 in Hj. apply elem_of_cons in Hj as [->|Hj]; done.
    + done.
    + done.
    + intros j b [(<- & <- & _)|[Hne Hj]]%list_lookup_insert_Some.
      * destruct (Hother w Hwi) as [-> ->].
        destruct (H7 w Waiting Hwait) as [-> ->]. done.
      * apply list_lookup_insert_Some in Hj as [(<- & <- & _)|[Hne' Hj]].
        -- by rewrite Hq', Ha'.
        -- destruct (Hother j) as [-> ->]; [congruence|]. by apply H7.
    + intros j. rewrite !length_insert. intros Hj.
      destruct (Hother j) as [-> ->]; [lia|]. by apply H8.
Qed.

End GuardInvariant.

Section AdvanceFacts.

Variable config : Config.
Variable logFile : option WriteStream.

Lemma count_acquire_app (k : nat) (l1 l2 : list Event) :
  count_acquire k (l1 ++ l2) = count_acquire k l1 + count_acquire k l2.
Proof. unfold count_acquire. by rewrite List.filter_app, length_app. Qed.

Lemma count_dispose_app (k : nat) (l1 l2 : list Event) :
  count_dispose k (l1 ++ l2) = count_dispose k l1 + count_dispose k l2.
Proof. unfold count_dispose. by rewrite List.filter_app, length_app. Qed.

Lemma driver_call_counts (k : nat) :
  count_acquire k [ensureBrowser_call config logFile] = 0
  /\ count_dispose k [ensureBrowser_call config logFile] = 0.
Proof.
  unfold ensureBrowser_call.
  by destruct (truthy (browserUrl config) || truthy (wsEndpoint config)).
Qed.

Ltac solve_counts :=
  try intros ?k; cbn [trace]; rewrite <- ?app_assoc;
  rewrite ?count_acquire_app, ?count_dispose_app;
  repeat match goal with
         | |- context [count_acquire ?k [ensureBrowser_call _ _]] =>
             rewrite (proj1 (driver_call_counts k))
         | |- context [count_dispose ?k [ensureBrowser_call _ _]] =>
             rewrite (proj2 (driver_call_counts k))
         end;
  unfold count_acquire, count_dispose; simpl;
  repeat match goal with
         | |- context [Nat.eqb ?i ?k] => destruct (Nat.eqb i k)
         end; simpl; lia.

(** The four kinds of moves: the guard is granted, the invocation joins the
    waiters, it goes on under the guard, or it ends and disposes the
    guard. *)
Lemma advance_cases (i : nat) (inv : Invocation) (st st' : ServerState)
    (ph' : Phase) (woken : option nat) :
  advance config logFile i inv st = Some (st', ph', woken) ->
  (phase inv = Queued /\ locked (toolMutex st) = false /\ ph' = Guarded
   /\ woken = None
   /\ toolMutex st' =
      {| locked := true; acquirers := acquirers (toolMutex st) |}
   /\ adds_guard_events i 1 0 (trace st) (trace st'))
  \/ (phase inv = Queued /\ locked (toolMutex st) = true /\ ph' = Waiting
      /\ woken = None
      /\ toolMutex st' =
         {| locked := true; acquirers := acquirers (toolMutex st) ++ [i] |}
      /\ adds_guard_events i 1 0 (trace st) (trace st'))
  \/ (holds_guard (phase inv) = true /\ holds_guard ph' = true
      /\ woken = None /\ toolMutex st' = toolMutex st
      /\ adds_guard_events i 0 0 (trace st) (trace st'))
  \/ (holds_guard (phase inv) = true /\ finished ph' = true
      /\ woken = snd (Mutex_release (toolMutex st))
      /\ toolMutex st' = fst (Mutex_release (toolMutex st))
      /\ adds_guard_events i 0 1 (trace st) (trace st')).
Proof.
  unfold advance, after_context, finish, catch_clause.
  unfold_callback. unfold read_context, write_context, new_McpContext.
  intros H.
  destruct (phase inv) eqn:Hph; simpl in H.
  - destruct (locked (toolMutex st)) eqn:Hl; simpl in H;
      injection H as <- <- <-; [right; left|left];
      repeat split; try done; solve_counts.
  - done.
  - injection H as <- <- <-. right. right. left.
    repeat split; try done; solve_counts.
  - destruct (ensureBrowser_result (behaviour inv)) as [br|e|]; [| |done].
    + destruct (browser_differs (context st) br).
      * injection H as <- <- <-. right. right. left.
        repeat split; try done; solve_counts.
      * destruct (context st) as [c|]; simpl in H;
          injection H as <- <- <-; right; right; [left|right];
          repeat split; try done; solve_counts.
    + destruct e; simpl in H; injection H as <- <- <-;
        right; right; right; repeat split; try done; solve_counts.
  - destruct (McpContext_from_result (behaviour inv)) as [[]|e|]; [| |done].
    + simpl in H. injection H as <- <- <-. right. right. left.
      repeat split; try done; solve_counts.
    + destruct e; simpl in H; injection H as <- <- <-;
        right; right; right; repeat split; try done; solve_counts.
  - destruct (detectOpenDevToolsWindows_result (behaviour inv))
      as [[]|e|]; [| |done].
    + injection H as <- <- <-. right. right. left.
      repeat split; try done; solve_counts.
    + destruct e; simpl in H; injection H as <- <- <-;
        right; right; right; repeat split; try done; solve_counts.
  - destruct (handler_result (behaviour inv)) as [[]|e|]; [| |done].
    + injection H as <- <- <-. right. right. left.
      repeat split; try done; solve_counts.
    + destruct e; simpl in H; injection H as <- <- <-;
        right; right; right; repeat split; try done; solve_counts.
  - destruct (response_handle_result (behaviour inv)) as [content|e|];
      [| |done]; simpl in H; injection H as <- <- <-;
      right; right; right; repeat split; try done; solve_counts.
  - done.
  - done.
Qed.

End AdvanceFacts.

Section PoolFacts.

Variable config : Config.
Variable logFile : option WriteStream.

Lemma phases_resume (woken : option nat) (l : list Invocation) :
  phase <$> resume woken l = resume_phases woken (phase <$> l).
Proof.
  destruct woken as [w|]; [|done]. simpl. revert w.
  induction l as [|inv l IH]; intros w; [done|].
  destruct w as [|w]; simpl; [done|]. f_equal. apply IH.
Qed.

Lemma phases_advance (woken : option nat) (i : nat) (inv : Invocation)
    (ph' : Phase) (l : list Invocation) :
  phase <$> resume woken (<[i := with_phase inv ph']> l) =
  resume_phases woken (<[i := ph']> (phase <$> l)).
Proof. by rewrite phases_resume, list_fmap_insert. Qed.

Lemma step_keeps_invariant (p p' : Pool) (h : option nat) :
  step config logFile p p' ->
  guard_invariant h (toolMutex (server p)) (trace (server p)) (phases p) ->
  exists h',
    guard_invariant h' (toolMutex (server p')) (trace (server p')) (phases p').
Proof.
  intros Hstep Hinv. destruct Hstep as [p t ps b|p i inv st' ph' woken Hi Hadv].
  - exists h. unfold phases. simpl. rewrite fmap_app. simpl.
    by apply invariant_arrive.
  - assert (phases p !! i = Some (phase inv)) as Hph.
    { unfold phases. by rewrite list_lookup_fmap, Hi. }
    unfold phases in *. simpl. rewrite phases_advance.
    apply advance_cases in Hadv
      as [(Hq & Hl & -> & -> & -> & Hadd)
         |[(Hq & Hl & -> & -> & -> & Hadd)
          |[(Hg & Hg' & -> & -> & Hadd)
           |(Hg & Hf & -> & -> & Hadd)]]]; simpl.
    + exists (Some i). rewrite Hq in Hph. by eapply invariant_grant.
    + exists h. rewrite Hq in Hph. by eapply invariant_block.
    + exists h. by eapply invariant_progress.
    + eexists. by eapply invariant_exit.
Qed.

Lemma reachable_invariant (p : Pool) :
  reachable config logFile p ->
  exists h,
    guard_invariant h (toolMutex (server p)) (trace (server p)) (phases p).
Proof.
  unfold reachable. revert p.
  apply (rtc_ind_r
           (fun p => exists h,
              guard_invariant h (toolMutex (server p)) (trace (server p))
                (phases p))).
  - exists None. apply invariant_initial.
  - intros p p' _ Hstep [h IH]. by eapply step_keeps_invariant.
Qed.

Lemma apply_move_steps (mv : Move) (p : Pool) :
  rtc (step config logFile) p (apply_move config logFile mv p).
Proof.
  destruct mv as [t ps b|i]; simpl.
  - apply rtc_once. apply step_arrive.
  - destruct (calls p !! i) as [inv|] eqn:Hi; [|done].
    destruct (advance config logFile i inv (server p)) as [[[st' ph'] woken]|]
      eqn:Hadv; [|done].
    apply rtc_once. by eapply step_advance.
Qed.

Lemma run_schedule_reachable (moves : list Move) (p : Pool) :
  rtc (step config logFile) p (run_schedule config logFile moves p).
Proof.
  revert p. induction moves as [|mv moves IH]; intros p; simpl; [done|].
  etrans; [apply apply_move_steps|apply IH].
Qed.

(** C2: however the invocations of one server instance interleave, no two
    of them are between [acquire] and [dispose] at the same time, so that
    no two handler bodies, context resolutions or finalizations overlap; an
    invocation has taken the guard once as soon as it is past the queue and
    has disposed it exactly once when it is over, whether it returned a
    result, returned the error-flagged result or threw, and not before; the
    guard is locked exactly while some invocation holds it.  And one call
    seen on its own takes the guard before anything else and disposes it
    last, once, however it ends, leaving the guard free. *)
Theorem dispatch_guard_discipline (p : Pool) :
  reachable config logFile p ->
  (forall i j a b,
      calls p !! i = Some a -> calls p !! j = Some b ->
      holds_guard (phase a) = true -> holds_guard (phase b) = true -> i = j)
  /\ (forall i a,
        calls p !! i = Some a ->
        count_acquire i (trace (server p)) =
        (if is_queued (phase a) then 0 else 1)
        /\ count_dispose i (trace (server p)) =
           (if finished (phase a) then 1 else 0))
  /\ (locked (toolMutex (server p)) = true <->
      exists i a, calls p !! i = Some a /\ holds_guard (phase a) = true)
  /\ (forall tool call params b st,
        guard_free st ->
        match fst (toolCallback config logFile tool call params b st) with
        | Pending =>
            locked
              (toolMutex
                 (snd (toolCallback config logFile tool call params b st)))
            = true
        | _ =>
            acquire_body_dispose call
              (events_since st
                 (snd (toolCallback config logFile tool call params b st)))
            = true
            /\ guard_free
                 (snd (toolCallback config logFile tool call params b st))
        end).
Proof.
  intros [h [H1 H2 H3 H4 H5 H6 H7 H8]]%reachable_invariant.
  assert (forall i a, calls p !! i = Some a -> phases p !! i = Some (phase a))
    as Hph.
  { intros i a Hi. unfold phases. by rewrite list_lookup_fmap, Hi. }
  split; [|split; [|split]].
  - intros i j a b Hi Hj Ha Hb.
    apply (H2 i _ (Hph i a Hi)) in Ha. apply (H2 j _ (Hph j b Hj)) in Hb.
    congruence.
  - intros i a Hi. by apply H7, Hph.
  - rewrite H1. split.
    + intros [i Hh]. pose proof (H3 i Hh) as Hlt.
      assert (i < length (calls p)) as Hlt'
        by (unfold phases in Hlt; by rewrite length_fmap in Hlt).
      apply lookup_lt_is_Some in Hlt' as [a Hi].
      exists i, a. split; [done|]. by apply (H2 i _ (Hph i a Hi)).
    + intros (i & a & Hi & Ha). exists i.
      by apply (H2 i _ (Hph i a Hi)).
  - intros tool call params b st Hfree.
    pose proof (callback_brackets_the_guard config logFile tool call params
                  b st Hfree) as Hb.
    cbv zeta in Hb.
    destruct (fst (toolCallback config logFile tool call params b st));
      tauto.
Qed.

End PoolFacts.

Lemma dispatch_guard_discipline_witness :
  reachable Example.default_config None Example.contended_pool
  /\ phase <$> calls Example.contended_pool =
     [Failed (JsError "Error" "Element not found"); Guarded]
  /\ count_dispose 0 (trace (server Example.contended_pool)) = 1
  /\ count_dispose 1 (trace (server Example.contended_pool)) = 0.
Proof.
  assert (reachable Example.default_config None Example.contended_pool) as H
    by apply run_schedule_reachable.
  split; [exact H|]. split; [reflexivity|].
  pose proof (proj1 (proj2 (dispatch_guard_discipline Example.default_config
                              None Example.contended_pool H))) as Hcounts.
  split.
  - exact (proj2 (Hcounts 0 _ eq_refl)).
  - exact (proj2 (Hcounts 1 _ eq_refl)).
Defined.

Section Agreement.

Variable config : Config.
Variable logFile : option WriteStream.

(** X21: the callback and the phases are one pipeline: an invocation run
    on its own through its phases ends as the callback does, with the same
    result and in the same server state; when the callback never returns,
    the invocation stays in a phase before the end. *)
Lemma phases_agree_with_callback (t : ToolDefinition) (call : nat)
    (ps : Params) (b : CallBehaviour) (st : ServerState) :
  guard_free st ->
  let alone :=
    run_alone config logFile 7 call
      {| tool := t; params := ps; behaviour := b; phase := Queued |} st in
  let direct := toolCallback config logFile t call ps b st in
  snd alone = snd direct
  /\ match fst direct with
     | Normal result => phase (fst alone) = Done result
     | Throw e => phase (fst alone) = Failed e
     | Pending => finished (phase (fst alone)) = false
     end.
Proof.
  intros Hfree alone direct. subst alone direct. unfold guard_free in Hfree.
  unfold run_alone, advance, after_context, finish, catch_clause.
  unfold_callback. unfold read_context, write_context, new_McpContext.
  rewrite Hfree. simpl. rewrite getContext_cases.
  destruct (context st) as [c|] eqn:Hctx;
    repeat (case_outcome; simpl; rewrite ?Hctx; simpl);
    rewrite <- ?app_assoc; simpl; done.
Qed.

End Agreement.

(** * Further properties *)

Import Observation.

(** ** One tool call *)

Section CallProperties.

Variable config : Config.
Variable logFile : option WriteStream.
Variable tool : ToolDefinition.
Variable call : nat.
Variable params : Params.

Ltac enter_callback Hfree :=
  unfold guard_free in *; unfold_callback; unfold count;
  rewrite Hfree; simpl; rewrite getContext_cases;
  unfold ensureBrowser_call;
  destruct (truthy (browserUrl config) || truthy (wsEndpoint config)).

Ltac since_start :=
  rewrite <- ?app_assoc, ?drop_app_length; simpl.

(** X1: a call in which the driver, the context build, the inspector
    check, the handler and the finalization all return gives back the
    content [response.handle] produced, unflagged; the handler and the
    finalization ran once each, no error line was logged, and the guard is
    free again. *)
Theorem successful_call_returns_the_content (b : CallBehaviour)
    (st : ServerState) (br : Browser) (produced : list Content) :
  guard_free st ->
  ensureBrowser_result b = Normal br ->
  (browser_differs (context st) br = true ->
   McpContext_from_result b = Normal tt) ->
  detectOpenDevToolsWindows_result b = Normal tt ->
  handler_result b = Normal tt ->
  response_handle_result b = Normal produced ->
  let r := fst (toolCallback config logFile tool call params b st) in
  let st' := snd (toolCallback config logFile tool call params b st) in
  r = Normal {| content := produced; isError := None |}
  /\ guard_free st'
  /\ count is_driver_call (events_since st st') = 1
  /\ count is_handler_call (events_since st st') = 1
  /\ count is_finalization (events_since st st') = 1
  /\ Forall (fun ev => ~ is_error_log ev tool) (events_since st st').
Proof.
  intros Hfree Hbr Hfrom Hdet Hh Hfin r st'. subst r st'.
  enter_callback Hfree; rewrite Hbr; simpl;
    (destruct (browser_differs (context st) br) eqn:Hd;
     [rewrite (Hfrom eq_refl)
     |unfold browser_differs in Hd; destruct (context st) as [c|]; [|done]]);
    simpl; rewrite Hdet, Hh, Hfin; simpl; since_start;
    repeat split; repeat constructor; auto with error_log.
Qed.

(** X2: when the handler returns and [response.handle] throws an [Error],
    a string, a boolean, [undefined] or [null], the call returns one text
    item flagged [isError]: the message of the [Error], the string
    conversion of the others.  The outer catch clause is not entered: no
    error line is logged; and the guard is free again. *)
Theorem finalization_failure_is_an_error_result (b : CallBehaviour)
    (st : ServerState) (br : Browser) (error : JsValue) :
  guard_free st ->
  ensureBrowser_result b = Normal br ->
  (browser_differs (context st) br = true ->
   McpContext_from_result b = Normal tt) ->
  detectOpenDevToolsWindows_result b = Normal tt ->
  handler_result b = Normal tt ->
  response_handle_result b = Throw error ->
  let r := fst (toolCallback config logFile tool call params b st) in
  let st' := snd (toolCallback config logFile tool call params b st) in
  r = Normal {| content :=
                  [TextContent
                     match error with
                     | JsError _ message => message
                     | JsString s => s
                     | JsUndefined => "undefined"
                     | JsNull => "null"
                     | JsBoolean true => "true"
                     | JsBoolean false => "false"
                     end];
                isError := Some true |}
  /\ guard_free st'
  /\ count is_handler_call (events_since st st') = 1
  /\ Forall (fun ev => ~ is_error_log ev tool) (events_since st st').
Proof.
  intros Hfree Hbr Hfrom Hdet Hh Hfin r st'. subst r st'.
  enter_callback Hfree; rewrite Hbr; simpl;
    (destruct (browser_differs (context st) br) eqn:Hd;
     [rewrite (Hfrom eq_refl)
     |unfold browser_differs in Hd; destruct (context st) as [c|]; [|done]]);
    simpl; rewrite Hdet, Hh, Hfin; simpl; since_start;
    (split; [by destruct error as [| |[]| |]|]);
    repeat split; repeat constructor; auto with error_log.
Qed.

(** X3: when the handler throws a value whose [message] can be read
    (anything but [undefined] and [null]), the call throws that very value,
    after logging one error line: with the message of an [Error], with
    [undefined] for a thrown string or boolean.  [response.handle] is never
    called, and the guard is free again. *)
Theorem handler_failure_is_logged_and_thrown_again (b : CallBehaviour)
    (st : ServerState) (br : Browser) (err : JsValue) :
  guard_free st ->
  ensureBrowser_result b = Normal br ->
  (browser_differs (context st) br = true ->
   McpContext_from_result b = Normal tt) ->
  detectOpenDevToolsWindows_result b = Normal tt ->
  handler_result b = Throw err ->
  readable err = true ->
  let r := fst (toolCallback config logFile tool call params b st) in
  let st' := snd (toolCallback config logFile tool call params b st) in
  r = Throw err
  /\ guard_free st'
  /\ Logged (name tool +:+ " error: "
             +:+ match err with
                 | JsError _ message => message
                 | _ => "undefined"
                 end) ∈ events_since st st'
  /\ count is_handler_call (events_since st st') = 1
  /\ count is_finalization (events_since st st') = 0.
Proof.
  intros Hfree Hbr Hfrom Hdet Hh Hread r st'. subst r st'.
  enter_callback Hfree; rewrite Hbr; simpl;
    (destruct (browser_differs (context st) br) eqn:Hd;
     [rewrite (Hfrom eq_refl)
     |unfold browser_differs in Hd; destruct (context st) as [c|]; [|done]]);
    simpl; rewrite Hdet, Hh; simpl;
    destruct err; try discriminate Hread; simpl; since_start;
    repeat split; in_events.
Qed.

(** X4: when the driver fails to connect or launch, or the context cannot
    be built, with a value whose [message] can be read, the call throws
    that value and logs it; the inspector check, the handler and the
    finalization are never reached, the memoized context stays what it was,
    and the guard is free again. *)
Theorem context_failure_skips_the_handler (b : CallBehaviour)
    (st : ServerState) (err : JsValue) :
  guard_free st ->
  readable err = true ->
  ensureBrowser_result b = Throw err
  \/ (exists br,
        ensureBrowser_result b = Normal br
        /\ browser_differs (context st) br = true
        /\ McpContext_from_result b = Throw err) ->
  let r := fst (toolCallback config logFile tool call params b st) in
  let st' := snd (toolCallback config logFile tool call params b st) in
  r = Throw err
  /\ guard_free st'
  /\ context st' = context st
  /\ next_object_id st' = next_object_id st
  /\ Logged (name tool +:+ " error: "
             +:+ match err with
                 | JsError _ message => message
                 | _ => "undefined"
                 end) ∈ events_since st st'
  /\ count is_inspector_check (events_since st st') = 0
  /\ count is_handler_call (events_since st st') = 0
  /\ count is_finalization (events_since st st') = 0.
Proof.
  intros Hfree Hread Hfail r st'. subst r st'.
  destruct Hfail as [Hens|(br & Hens & Hd & Hfrom)];
    enter_callback Hfree; rewrite Hens; simpl;
    rewrite ?Hd, ?Hfrom; simpl;
    destruct err; try discriminate Hread; simpl; since_start;
    repeat split; in_events.
Qed.

(** X5: a call that finds the guard free hangs only if a collaborator
    does: when the five awaited promises settle the call returns or throws,
    and leaves the guard free. *)
Theorem call_settles_when_collaborators_settle (b : CallBehaviour)
    (st : ServerState) :
  guard_free st ->
  settles (ensureBrowser_result b) = true ->
  settles (McpContext_from_result b) = true ->
  settles (detectOpenDevToolsWindows_result b) = true ->
  settles (handler_result b) = true ->
  settles (response_handle_result b) = true ->
  settles (fst (toolCallback config logFile tool call params b st)) = true
  /\ guard_free (snd (toolCallback config logFile tool call params b st)).
Proof.
  intros Hfree H1 H2 H3 H4 H5.
  enter_callback Hfree;
    destruct (context st) as [c|] eqn:Hctx;
    repeat (case_outcome; simpl; try discriminate); done.
Qed.

(** X17: a rejection without a readable reason is replaced.  When the
    driver, the context build, the inspector check or the handler fails
    with [undefined] or [null], the call fails with the [TypeError] of
    reading [message] and not with that value; no error line is logged,
    the finalization is not reached, and the guard is free again. *)
Theorem unreadable_failure_becomes_a_TypeError (b : CallBehaviour)
    (st : ServerState) (err : JsValue) :
  guard_free st ->
  readable err = false ->
  ensureBrowser_result b = Throw err
  \/ (exists br,
        ensureBrowser_result b = Normal br
        /\ browser_differs (context st) br = true
        /\ McpContext_from_result b = Throw err)
  \/ (exists br,
        ensureBrowser_result b = Normal br
        /\ (browser_differs (context st) br = true ->
            McpContext_from_result b = Normal tt)
        /\ (detectOpenDevToolsWindows_result b = Throw err
            \/ (detectOpenDevToolsWindows_result b = Normal tt
                /\ handler_result b = Throw err))) ->
  let r := fst (toolCallback config logFile tool call params b st) in
  let st' := snd (toolCallback config logFile tool call params b st) in
  r = Throw (JsError "TypeError"
               ("Cannot read properties of " +:+ ToString err
                +:+ " (reading 'message')"))
  /\ r <> Throw err
  /\ guard_free st'
  /\ Forall (fun ev => ~ is_error_log ev tool) (events_since st st')
  /\ count is_finalization (events_since st st') = 0.
Proof.
  intros Hfree Hread Hfail r st'. subst r st'.
  destruct Hfail
    as [Hens|[(br & Hens & Hd & Hfrom)|(br & Hens & Hfrom & Hrest)]].
  1,2: enter_callback Hfree; rewrite Hens; simpl;
       rewrite ?Hd, ?Hfrom; simpl;
       destruct err; try discriminate Hread; simpl; since_start;
       repeat split; try done; repeat constructor; auto with error_log.
  destruct Hrest as [Hdet|[Hdet Hh]];
    enter_callback Hfree; rewrite Hens; simpl;
    (destruct (browser_differs (context st) br) eqn:Hd;
     [rewrite (Hfrom eq_refl)
     |unfold browser_differs in Hd; destruct (context st) as [c|]; [|done]]);
    simpl; rewrite Hdet, ?Hh; simpl;
    destruct err; try discriminate Hread; simpl; since_start;
    repeat split; try done; repeat constructor; auto with error_log.
Qed.

End CallProperties.

(** ** Calls in a row *)

Section CallsInARow.

Variable config : Config.
Variable logFile : option WriteStream.

(** After a call in which the driver resolved to [br] and the context was
    built if it had to be, the memoized context holds [br], whatever became
    of the rest of the call; and the guard is free if the rest came to an
    end. *)
Lemma context_after_a_call (tool : ToolDefinition) (call : nat)
    (params : Params) (b : CallBehaviour) (st : ServerState) (br : Browser) :
  guard_free st ->
  ensureBrowser_result b = Normal br ->
  (browser_differs (context st) br = true ->
   McpContext_from_result b = Normal tt) ->
  (exists c,
     context (snd (toolCallback config logFile tool call params b st))
     = Some c
     /\ browser c = br)
  /\ (settles (detectOpenDevToolsWindows_result b) = true ->
      settles (handler_result b) = true ->
      settles (response_handle_result b) = true ->
      guard_free (snd (toolCallback config logFile tool call params b st))).
Proof.
  intros Hfree Hbr Hfrom. unfold guard_free in *. unfold_callback.
  rewrite Hfree. simpl. rewrite getContext_cases, Hbr. simpl.
  destruct (browser_differs (context st) br) eqn:Hd.
  - rewrite (Hfrom eq_refl). simpl.
    repeat (case_outcome; simpl);
      (split; [eexists; split; reflexivity|done]).
  - unfold browser_differs in Hd.
    destruct (context st) as [c|] eqn:Hctx; [|done]. simpl.
    destruct (Nat.eqb_spec (browser c) br) as [Heq|]; [|done].
    repeat (case_outcome; simpl); (split; [by exists c|done]).
Qed.

(** A call that finds the driver resolving to the browser of the memoized
    context keeps that context, builds none, and hands it to every
    collaborator it reaches. *)
Lemma call_reuses_the_context (tool : ToolDefinition) (call : nat)
    (params : Params) (b : CallBehaviour) (st : ServerState)
    (c : McpContext) :
  guard_free st ->
  context st = Some c ->
  ensureBrowser_result b = Normal (browser c) ->
  let st' := snd (toolCallback config logFile tool call params b st) in
  context st' = Some c
  /\ next_object_id st' = next_object_id st
  /\ count is_context_build (events_since st st') = 0
  /\ Forall (uses_context c) (events_since st st').
Proof.
  intros Hfree Hctx Hbr st'. subst st'. unfold guard_free in *.
  unfold_callback. unfold count. rewrite Hfree. simpl.
  rewrite getContext_cases, Hbr. unfold browser_differs, ensureBrowser_call.
  rewrite Hctx. simpl. rewrite Nat.eqb_refl. simpl.
  destruct (truthy (browserUrl config) || truthy (wsEndpoint config));
    repeat (case_outcome; simpl);
    rewrite <- ?app_assoc, ?drop_app_length; simpl;
    repeat split; try done; repeat constructor.
Qed.

(** X6: the browser context outlives a failed call.  When two calls in a
    row find the driver resolving to the same browser handle, and the first
    one gets its context and comes to an end, the second call, whatever its
    tool and however the first one ended (result, error result or throw),
    builds no context: its collaborators are handed the context object
    memoized by the first call, which stays memoized. *)
Theorem context_outlives_a_failed_call
    (tool1 tool2 : ToolDefinition) (call1 call2 : nat)
    (params1 params2 : Params) (b1 b2 : CallBehaviour) (st : ServerState)
    (br : Browser) :
  guard_free st ->
  ensureBrowser_result b1 = Normal br ->
  ensureBrowser_result b2 = Normal br ->
  (browser_differs (context st) br = true ->
   McpContext_from_result b1 = Normal tt) ->
  settles (detectOpenDevToolsWindows_result b1) = true ->
  settles (handler_result b1) = true ->
  settles (response_handle_result b1) = true ->
  let st1 := snd (toolCallback config logFile tool1 call1 params1 b1 st) in
  let st2 := snd (toolCallback config logFile tool2 call2 params2 b2 st1) in
  exists c,
    context st1 = Some c /\ browser c = br
    /\ context st2 = Some c
    /\ next_object_id st2 = next_object_id st1
    /\ count is_context_build (events_since st1 st2) = 0
    /\ Forall (uses_context c) (events_since st1 st2).
Proof.
  intros Hfree Hbr1 Hbr2 Hfrom S1 S2 S3 st1 st2.
  destruct (context_after_a_call tool1 call1 params1 b1 st br Hfree Hbr1 Hfrom)
    as [(c & Hc & Hb) Hfree1].
  specialize (Hfree1 S1 S2 S3). fold st1 in Hc, Hfree1.
  exists c. split; [done|]. split; [done|].
  subst br.
  exact (call_reuses_the_context tool2 call2 params2 b2 st1 c Hfree1 Hc Hbr2).
Qed.

End CallsInARow.

(** ** The context resolver and the catalogue, once more *)

Section ResolverProperties.

Variable config : Config.
Variable logFile : option WriteStream.

(** X7: every call of [getContext] asks the driver exactly once.  It
    connects when [browserUrl] or [wsEndpoint] is a non-empty string and
    launches otherwise, never both; and what it launches gets the log file
    stream and, as arguments, the [chromeArg] list followed by the
    [--proxy-server] flag when [proxyServer] is a non-empty string: a
    connection is never handed the proxy. *)
Theorem getContext_asks_the_driver_once (b : CallBehaviour)
    (st : ServerState) :
  let evs := events_since st (snd (getContext config logFile b st)) in
  count is_driver_call evs = 1
  /\ count is_connect evs =
     (if truthy (browserUrl config) || truthy (wsEndpoint config)
      then 1 else 0)
  /\ (forall options,
        EnsureBrowserConnected options ∈ evs ->
        connect_browserURL options = browserUrl config
        /\ connect_wsEndpoint options = wsEndpoint config
        /\ connect_wsHeaders options = wsHeaders config)
  /\ (forall options,
        EnsureBrowserLaunched options ∈ evs ->
        launch_logFile options = logFile
        /\ launch_args options =
           nullish (chromeArg config) []
           ++ match proxyServer config with
              | Some proxy =>
                  if String.eqb proxy "" then []
                  else ["--proxy-server=" +:+ proxy]
              | None => []
              end).
Proof.
  cbv zeta. rewrite getContext_cases. unfold ensureBrowser_call, count.
  assert (extraArgs config =
          nullish (chromeArg config) []
          ++ match proxyServer config with
             | Some proxy =>
                 if String.eqb proxy "" then []
                 else ["--proxy-server=" +:+ proxy]
             | None => []
             end) as Hargs.
  { unfold extraArgs. destruct (proxyServer config) as [proxy|]; [|done].
    simpl. by destruct (String.eqb proxy ""). }
  destruct (truthy (browserUrl config) || truthy (wsEndpoint config));
    repeat (case_outcome; simpl); unfold events_since; simpl;
    rewrite <- ?app_assoc, ?drop_app_length; simpl;
    (split; [done|]); (split; [done|]);
    split; intros options Hin;
    repeat (apply elem_of_cons in Hin as [Hin|Hin];
            [try discriminate Hin; injection Hin as ->; simpl; by rewrite ?Hargs|]);
    by apply elem_of_nil in Hin.
Qed.

End ResolverProperties.

Section CatalogueProperties.

Variable localeCompare : string -> string -> Z.

Lemma strict_registerTool_enabled (config : Config) (tool : ToolDefinition)
    (srv : McpServer) :
  Strict.registerTool config tool srv =
  if category_enabled config (category (annotations tool))
  then Strict.server_registerTool tool srv else Normal srv.
Proof.
  unfold Strict.registerTool, category_enabled.
  by destruct (category (annotations tool)), (categoryEmulation config),
    (categoryPerformance config), (categoryNetwork config).
Qed.

Lemma strict_register_all_cons (config : Config) (tool : ToolDefinition)
    (l : list ToolDefinition) (srv : McpServer) :
  Strict.register_all config (tool :: l) srv =
  match Strict.registerTool config tool srv with
  | Normal srv' => Strict.register_all config l srv'
  | other => other
  end.
Proof.
  unfold Strict.register_all. cbn [foldl].
  destruct (Strict.registerTool config tool srv) as [srv'|e|]; [done|..];
    by induction l.
Qed.

(** With distinct names the SDK refuses nothing. *)
Lemma strict_register_all_distinct (config : Config)
    (l : list ToolDefinition) (srv : McpServer) :
  NoDup (name <$> registeredTools srv ++ filter (tool_enabled config) l) ->
  Strict.register_all config l srv =
  Normal (foldl (fun s t => registerTool config t s) srv l).
Proof.
  revert srv. induction l as [|t l IH]; intros srv Hnd; [done|].
  rewrite strict_register_all_cons, strict_registerTool_enabled.
  cbn [foldl]. rewrite registerTool_enabled.
  rewrite filter_cons in Hnd.
  destruct (decide (tool_enabled config t)) as [Hen|Hen].
  - assert (category_enabled config (category (annotations t)) = true)
      as -> by exact Hen.
    unfold Strict.server_registerTool.
    rewrite decide_False.
    + apply IH. unfold server_registerTool. cbn [registeredTools].
      by rewrite <- app_assoc.
    + rewrite fmap_app, fmap_cons in Hnd.
      apply NoDup_app in Hnd as (_ & Hnd & _).
      intros Hin. apply (Hnd _ Hin). apply list_elem_of_here.
  - assert (category_enabled config (category (annotations t)) = false)
      as ->.
    { unfold tool_enabled in Hen. by destruct (category_enabled _ _). }
    by apply IH.
Qed.

(** With a name that comes twice the SDK refuses the second tool of that
    name, and nothing is registered after it. *)
Lemma strict_register_all_duplicate (config : Config)
    (l : list ToolDefinition) (srv : McpServer) :
  NoDup (name <$> registeredTools srv) ->
  ~ NoDup (name <$> registeredTools srv ++ filter (tool_enabled config) l) ->
  exists tool,
    tool ∈ l /\ tool_enabled config tool
    /\ Strict.register_all config l srv =
       Throw (JsError "Error"
                ("Tool " +:+ name tool +:+ " is already registered")).
Proof.
  revert srv. induction l as [|t l IH]; intros srv Hreg Hdup.
  { exfalso. apply Hdup. by rewrite filter_nil, app_nil_r. }
  rewrite strict_register_all_cons, strict_registerTool_enabled.
  rewrite filter_cons in Hdup.
  destruct (decide (tool_enabled config t)) as [Hen'|Hen'].
  - assert (category_enabled config (category (annotations t)) = true)
      as -> by exact Hen'.
    unfold Strict.server_registerTool.
    destruct (decide (name t ∈ name <$> registeredTools srv)) as [Hin|Hnin].
    + exists t. split; [apply list_elem_of_here|]. by split.
    + destruct (IH {| serverVersion := serverVersion srv;
                      registeredTools := registeredTools srv ++ [t] |})
        as (tool & Hin & Hen & Hthrow).
      * cbn [registeredTools]. rewrite fmap_app. apply NoDup_app.
        split; [done|]. split; [|apply NoDup_singleton].
        intros x Hx Hx'. simpl in Hx'.
        apply list_elem_of_singleton in Hx' as ->. done.
      * cbn [registeredTools]. by rewrite <- app_assoc.
      * exists tool. split; [by apply list_elem_of_further|]. by split.
  - assert (category_enabled config (category (annotations t)) = false)
      as ->.
    { unfold tool_enabled in Hen'. by destruct (category_enabled _ _). }
    destruct (IH srv Hreg Hdup) as (tool & Hin & Hen & Hthrow).
    exists tool. split; [by apply list_elem_of_further|]. by split.
Qed.

(** X8: [createServer] and the SDK's refusal of a name that is taken.  When
    the tools of the enabled categories have distinct names, whatever the
    comparator, [createServer] returns, and has registered each of them
    once and nothing else.  When two of them share a name it throws
    [Tool <name> is already registered] for one of them.  With distinct
    names and the three switches on, every tool is registered, and so it is
    with the configuration [loadConfig] makes of arguments that switch no
    category off. *)
Theorem catalogue_holds_each_enabled_tool_once (config : Config)
    (logFile : option WriteStream) (tools : list ToolDefinition) :
  (NoDup (name <$> filter (tool_enabled config) tools) ->
   Strict.createServer localeCompare config logFile tools =
   Normal (createServer localeCompare config logFile tools)
   /\ registeredTools (createServer localeCompare config logFile tools)
      ≡ₚ filter (tool_enabled config) tools
   /\ NoDup (tool_names (createServer localeCompare config logFile tools)))
  /\ (~ NoDup (name <$> filter (tool_enabled config) tools) ->
      exists tool,
        tool ∈ tools /\ tool_enabled config tool
        /\ Strict.createServer localeCompare config logFile tools =
           Throw (JsError "Error"
                    ("Tool " +:+ name tool +:+ " is already registered")))
  /\ (NoDup (name <$> tools) ->
      categoryEmulation config = true -> categoryPerformance config = true ->
      categoryNetwork config = true ->
      exists server,
        Strict.createServer localeCompare config logFile tools = Normal server
        /\ registeredTools server ≡ₚ tools)
  /\ (forall NODE_ENV args version,
        NoDup (name <$> tools) ->
        arg_categoryEmulation args <> JsBoolean false ->
        arg_categoryPerformance args <> JsBoolean false ->
        arg_categoryNetwork args <> JsBoolean false ->
        exists server,
          Strict.createServer localeCompare (loadConfig NODE_ENV args version)
            logFile tools = Normal server
          /\ registeredTools server ≡ₚ tools).
Proof.
  set (sorted := array_sort (fun a b => localeCompare (name a) (name b))
                   tools).
  assert (sorted ≡ₚ tools) as Hsorted by apply array_sort_perm.
  assert (forall cfg,
            name <$> filter (tool_enabled cfg) sorted
            ≡ₚ name <$> filter (tool_enabled cfg) tools) as Hnames.
  { intros cfg. by apply fmap_Permutation, filter_Permutation. }
  assert (forall cfg,
            registeredTools (createServer localeCompare cfg logFile tools)
            ≡ₚ filter (tool_enabled cfg) tools) as Hperm.
  { intros cfg. rewrite createServer_registered.
    apply filter_Permutation, array_sort_perm. }
  assert (forall cfg,
            NoDup (name <$> filter (tool_enabled cfg) tools) ->
            Strict.createServer localeCompare cfg logFile tools =
            Normal (createServer localeCompare cfg logFile tools)) as Hstrict.
  { intros cfg Hnd. unfold Strict.createServer, createServer. cbv zeta.
    fold sorted. apply strict_register_all_distinct.
    cbn [registeredTools app]. by rewrite Hnames. }
  assert (forall cfg (l : list ToolDefinition),
            categoryEmulation cfg = true -> categoryPerformance cfg = true ->
            categoryNetwork cfg = true ->
            filter (tool_enabled cfg) l = l) as Hall.
  { intros cfg l He Hp Hn. induction l as [|t l IH]; [done|].
    rewrite filter_cons. rewrite decide_True; [by rewrite IH|].
    unfold tool_enabled, category_enabled.
    by destruct (category (annotations t)). }
  split; [|split; [|split]].
  - intros Hnd. split; [by apply Hstrict|]. split; [apply Hperm|].
    unfold tool_names. by rewrite (fmap_Permutation name _ _ (Hperm config)).
  - intros Hdup.
    destruct (strict_register_all_duplicate config sorted
                {| serverVersion := version config; registeredTools := [] |})
      as (tool & Hin & Hen & Hthrow).
    + apply NoDup_nil_2.
    + cbn [registeredTools app]. by rewrite Hnames.
    + exists tool. split; [by rewrite <- Hsorted|]. by split.
  - intros Hnd He Hp Hn.
    exists (createServer localeCompare config logFile tools). split.
    + apply Hstrict. by rewrite Hall.
    + by rewrite Hperm, Hall.
  - intros NODE_ENV args version Hnd He Hp Hn.
    assert (filter (tool_enabled (loadConfig NODE_ENV args version)) tools
            = tools) as Hfilter.
    { apply Hall; simpl; unfold strict_neq_false.
      - by destruct (arg_categoryEmulation args) as [| |[]| |].
      - by destruct (arg_categoryPerformance args) as [| |[]| |].
      - by destruct (arg_categoryNetwork args) as [| |[]| |]. }
    exists (createServer localeCompare (loadConfig NODE_ENV args version)
              logFile tools). split.
    + apply Hstrict. by rewrite Hfilter.
    + by rewrite Hperm, Hfilter.
Qed.

(** X18: switching categories off removes tools and moves none.  When
    every category switch that is on in one configuration is on in a
    second one, the catalogue of the first is the catalogue of the second
    without the tools the first switches off, in the same order; and the
    catalogue does not depend on the log file stream. *)
Theorem switching_off_keeps_the_order (config1 config2 : Config)
    (logFile1 logFile2 : option WriteStream) (tools : list ToolDefinition) :
  (categoryEmulation config1 = true -> categoryEmulation config2 = true) ->
  (categoryPerformance config1 = true ->
   categoryPerformance config2 = true) ->
  (categoryNetwork config1 = true -> categoryNetwork config2 = true) ->
  registeredTools (createServer localeCompare config1 logFile1 tools) =
  filter (tool_enabled config1)
    (registeredTools (createServer localeCompare config2 logFile2 tools))
  /\ tool_names (createServer localeCompare config1 logFile1 tools)
     `sublist_of` tool_names (createServer localeCompare config2 logFile2 tools).
Proof.
  intros He Hp Hn.
  assert (registeredTools (createServer localeCompare config1 logFile1 tools)
          = filter (tool_enabled config1)
              (registeredTools
                 (createServer localeCompare config2 logFile2 tools))) as Heq.
  { rewrite !createServer_registered, list_filter_filter.
    apply list_filter_iff. intros t. split; [|tauto].
    intros H1. split; [done|]. revert H1.
    unfold tool_enabled, category_enabled.
    destruct (category (annotations t)); auto. }
  split; [exact Heq|].
  unfold tool_names. rewrite Heq. apply fmap_sublist, sublist_filter.
Qed.

End CatalogueProperties.

Lemma switching_off_keeps_the_order_witness :
  tool_names
    (createServer codeunit_compare Example.no_emulation_config None
       Example.static_tools)
  `sublist_of`
  tool_names
    (createServer codeunit_compare Example.default_config None
       Example.static_tools).
Proof.
  exact (proj2 (switching_off_keeps_the_order codeunit_compare
                  Example.no_emulation_config Example.default_config
                  None None Example.static_tools
                  (fun _ => eq_refl) (fun _ => eq_refl) (fun _ => eq_refl))).
Defined.

(** ** Routing and the life of a session *)

Section RoutingProperties.

Import Http HttpRuns.

(** X9: a request whose URL has a path, [url.pathname], that is neither
    [/mcp] nor [/health] (so [/mcp/] or [/Health] too) is answered 404
    [Not Found] as plain text, whatever its method and its session header;
    the SDK is not called and the module state is left as it was. *)
Theorem unrouted_paths_get_404 (req : IncomingMessage) (now : string)
    (sdk : SdkBehaviour) (w : World) :
  pathname req <> "/mcp" ->
  pathname req <> "/health" ->
  onRequest req now sdk w =
  (Normal tt,
   {| statusCode := 404;
      sent := Some (404%Z, [("Content-Type", "text/plain")]);
      body := [TextBody "Not Found"];
      writableEnded := true |},
   w).
Proof.
  intros H1%String.eqb_neq H2%String.eqb_neq. unfold onRequest.
  by rewrite H1, H2.
Qed.

Lemma unrouted_paths_get_404_witness :
  status_sent
    (snd (fst (onRequest
                 {| method := "POST";
                    pathname := "/mcp/";
                    mcp_session_id := None |}
                 Example.noon Example.sdk_quiet Example.empty_world))) =
  Some 404%Z.
Proof.
  pose proof (unrouted_paths_get_404
                {| method := "POST";
                   pathname := "/mcp/";
                   mcp_session_id := None |}
                Example.noon Example.sdk_quiet Example.empty_world) as H.
  simpl in H. by rewrite H.
Defined.

(** X10: a request to [/mcp] that names a registered session is handed to
    that session's transport, whatever its method: no server instance and no
    transport is built, and the request ends as [handleRequest] does.  A
    failure of [handleRequest] is not caught here: it is thrown to the
    listener's caller, and the handler itself writes nothing to the
    response: it is ended only if the SDK ends it, and nothing is sent
    unless the SDK sends it. *)
Theorem known_session_is_forwarded (req : IncomingMessage) (now : string)
    (sdk : SdkBehaviour) (w : World) (id : string) (s : Session) :
  pathname req = "/mcp" ->
  mcp_session_id req = Some id ->
  id <> "" ->
  sessions w !! id = Some s ->
  let out := onRequest req now sdk w in
  out = sdk_call (transport s) (on_handleRequest sdk) fresh_response w
  /\ fst (fst out) = outcome (on_handleRequest sdk)
  /\ servers_created (snd out) = servers_created w
  /\ next_transport (snd out) = next_transport w
  /\ (forallb (fun a => negb (ends_response a)) (actions (on_handleRequest sdk))
      = true ->
      writableEnded (snd (fst out)) = false)
  /\ (forallb (fun a => negb (sends_head a)) (actions (on_handleRequest sdk))
      = true ->
      sent (snd (fst out)) = None /\ body (snd (fst out)) = []).
Proof.
  intros Hpath Hid Hne%String.eqb_neq Hs out.
  assert (out = sdk_call (transport s) (on_handleRequest sdk) fresh_response w)
    as ->.
  { subst out. unfold onRequest, handleMcpRequest.
    rewrite Hpath, Hid. simpl. rewrite Hne. simpl. by rewrite Hs. }
  split; [done|]. split; [apply sdk_call_outcome|].
  destruct (sdk_call_frame (transport s) (on_handleRequest sdk)
              fresh_response w) as (F1 & F2 & _).
  split; [done|]. split; [done|]. split.
  - intros Hw.
    by rewrite (sdk_call_without_end (transport s) (on_handleRequest sdk)
                  fresh_response w Hw).
  - intros Hw.
    destruct (sdk_call_without_head (transport s) (on_handleRequest sdk)
                fresh_response w Hw) as (S1 & S2 & _).
    by rewrite S1, S2.
Qed.

Lemma known_session_is_forwarded_witness :
  let w :=
    snd (onRequest Example.post_mcp Example.noon
           (Example.sdk_initializes Example.session_a) Example.empty_world) in
  sessions w !! Example.session_a = Some {| transport := 0; server := 0 |}
  /\ servers_created
       (snd (onRequest (Example.request_in_session "GET" Example.session_a)
               Example.noon Example.sdk_quiet w)) = 1.
Proof.
  cbv zeta. split; [reflexivity|].
  assert (Example.session_a <> "") as Hne by discriminate.
  pose proof (known_session_is_forwarded
           (Example.request_in_session "GET" Example.session_a) Example.noon
           Example.sdk_quiet
           (snd (onRequest Example.post_mcp Example.noon
                   (Example.sdk_initializes Example.session_a)
                   Example.empty_world))
           Example.session_a
           {| transport := 0; server := 0 |} eq_refl eq_refl Hne eq_refl)
    as (_ & _ & H & _).
  exact H.
Defined.

(** Writes of the SDK to the response leave the module state alone. *)
Lemma sdk_call_only_writes (t : nat) (c : SdkCall) (res : ServerResponse)
    (w : World) :
  forallb only_writes (actions c) = true -> snd (sdk_call t c res w) = w.
Proof.
  destruct c as [l o]. revert res w.
  induction l as [|a l IH]; intros res w; [done|].
  cbn [actions forallb]. intros [Ha Hl]%andb_prop.
  rewrite sdk_call_cons.
  assert (snd (run_action t a (res, w)) = w) as ->.
  { destruct a as [id| |code|code headers| |data|data]; simpl; try done.
    by destruct (writeHead code headers res). }
  by apply IH.
Qed.

(** X11: a session-less POST during which the SDK initializes the session
    [id] (and otherwise only writes its answer) leaves exactly one new
    entry in the registry, [id], paired with the transport and the server
    instance just built, and logs it, however [handleRequest] ends
    afterwards.  From then on a request to [/mcp] that names [id] is handed
    to that transport. *)
Theorem initialized_session_is_routable (req : IncomingMessage)
    (now : string) (sdk : SdkBehaviour) (w : World) (id : string)
    (writes : list SdkAction) :
  pathname req = "/mcp" ->
  truthy (mcp_session_id req) = false ->
  method req = "POST" ->
  outcome (on_connect sdk) = Normal tt ->
  forallb only_writes (actions (on_connect sdk)) = true ->
  actions (on_handleRequest sdk) = InitializeSession id :: writes ->
  forallb only_writes writes = true ->
  id <> "" ->
  let w1 := snd (onRequest req now sdk w) in
  sessions w1 =
  <[id := {| transport := next_transport w; server := servers_created w |}]>
    (sessions w)
  /\ "New session created: " +:+ id ∈ logged w1
  /\ (forall req2 now2 sdk2,
        pathname req2 = "/mcp" -> mcp_session_id req2 = Some id ->
        onRequest req2 now2 sdk2 w1 =
        sdk_call (next_transport w) (on_handleRequest sdk2) fresh_response w1).
Proof.
  intros Hpath Hsid Hpost Hconn Hcw Hact Hw Hne w1.
  assert (w1 = snd (createNewSession req fresh_response sdk w)) as Hw1.
  { subst w1. unfold onRequest, handleMcpRequest.
    by rewrite Hpath, Hsid, Hpost. }
  assert (sessions w1 =
          <[id := {| transport := next_transport w;
                     server := servers_created w |}]> (sessions w)
          /\ "New session created: " +:+ id ∈ logged w1) as [Hs Hl].
  { rewrite Hw1. rewrite createNewSession_cases. cbv zeta. rewrite Hconn.
    rewrite (sdk_call_only_writes _ (on_connect sdk) _ _ Hcw).
    destruct (on_handleRequest sdk) as [l o]. simpl in Hact. subst l.
    rewrite sdk_call_cons.
    set (r1 := fst (sdk_call (next_transport w) (on_connect sdk)
                      fresh_response (snd (build_session w)))).
    assert (snd (run_action (next_transport w) (InitializeSession id)
                   (snd r1, snd (build_session w))) =
            onsessioninitialized (next_transport w) (servers_created w) id
              (set_sessionId (next_transport w) id (snd (build_session w))))
      as ->.
    { simpl. rewrite lookup_alter_eq, lookup_insert_eq. done. }
    rewrite (sdk_call_only_writes _ {| actions := writes; outcome := o |});
      [|done].
    simpl. destruct o; simpl; split; try done;
      rewrite ?elem_of_app, ?list_elem_of_singleton; auto. }
  split; [done|]. split; [done|].
  intros req2 now2 sdk2 Hpath2 Hid2. unfold onRequest, handleMcpRequest.
  rewrite Hpath2, Hid2. simpl.
  apply String.eqb_neq in Hne. rewrite Hne. simpl.
  by rewrite Hs, lookup_insert_eq.
Qed.

Lemma initialized_session_is_routable_witness :
  sessions
    (snd (onRequest Example.post_mcp Example.noon
            (Example.sdk_initializes Example.session_a) Example.empty_world))
  = <[Example.session_a := {| transport := 0; server := 0 |}]> ∅.
Proof.
  refine (proj1 (initialized_session_is_routable Example.post_mcp Example.noon
                   (Example.sdk_initializes Example.session_a)
                   Example.empty_world Example.session_a
                   [End (TextBody "event: message")]
                   eq_refl eq_refl eq_refl eq_refl eq_refl eq_refl eq_refl _)).
  discriminate.
Defined.

(** What closing does to the registry when the transport carries the
    session identifier [id] and the SDK initializes nothing anew. *)
Lemma sdk_call_closing (t : nat) (c : SdkCall) (res : ServerResponse)
    (w : World) (id : string) :
  forallb (fun a => negb (initializes a)) (actions c) = true ->
  (sessionId <$> transports w !! t) = Some (Some id) ->
  id <> "" ->
  let w' := snd (sdk_call t c res w) in
  sessions w' =
  (if existsb closes (actions c) then delete id (sessions w) else sessions w)
  /\ exists more,
       logged w' = logged w ++ more
       /\ (existsb closes (actions c) = true ->
           "Session closed: " +:+ id ∈ more).
Proof.
  intros Hni Hsid Hne. destruct c as [l o]. revert res w Hni Hsid.
  induction l as [|a l IH]; intros res w Hni Hsid.
  - cbv zeta. simpl. split; [done|]. exists []. by rewrite app_nil_r.
  - cbn [actions forallb] in Hni. apply andb_prop in Hni as [Ha Hl].
    cbv zeta. rewrite sdk_call_cons. cbn [actions existsb].
    destruct (transports w !! t) as [tr|] eqn:Et; [|done].
    simpl in Hsid. injection Hsid as Hsid.
    assert (truthy (sessionId tr) = true) as Htr.
    { rewrite Hsid. simpl. by apply negb_true_iff, String.eqb_neq. }
    destruct (closes a) eqn:Hc.
    + destruct a; try discriminate Hc.
      assert (run_action t Close (res, w) =
              (res, log ("Session closed: " +:+ id)
                      (with_sessions (delete id (sessions w)) w))) as Hw.
      { simpl. unfold onclose. by rewrite Et, Htr, Hsid. }
      rewrite Hw. cbn [fst snd orb].
      destruct (IH res
                  (log ("Session closed: " +:+ id)
                     (with_sessions (delete id (sessions w)) w)) Hl)
        as (I1 & more & I2 & _).
      { simpl. by rewrite Et; simpl; rewrite Hsid. }
      split.
      * rewrite I1. simpl.
        destruct (existsb closes l); [|done]. apply delete_delete_eq.
      * exists (("Session closed: " +:+ id) :: more).
        rewrite I2. simpl. rewrite <- app_assoc. split; [done|].
        intros _. apply list_elem_of_here.
    + assert (snd (run_action t a (res, w)) = w) as Hw.
      { destruct a as [id'| |code|code headers| |data|data]; simpl;
          try done.
        by destruct (writeHead code headers res). }
      rewrite Hw. cbn [orb].
      destruct (IH (fst (run_action t a (res, w))) w Hl)
        as (I1 & more & I2 & I3); [by rewrite Et; simpl; rewrite Hsid|].
      split; [done|]. by exists more.
Qed.

(** X12: when the SDK closes the transport of a registered session while
    it handles a request of that session (as it does for a DELETE), the
    session leaves the registry, the other sessions stay, and the closure is
    logged; a later request that names the session is answered 404. *)
Theorem closed_session_is_forgotten (req : IncomingMessage) (now : string)
    (sdk : SdkBehaviour) (w : World) (id : string) (s : Session)
    (tr : Transport) :
  pathname req = "/mcp" ->
  mcp_session_id req = Some id ->
  id <> "" ->
  sessions w !! id = Some s ->
  transports w !! transport s = Some tr ->
  sessionId tr = Some id ->
  forallb (fun a => negb (initializes a)) (actions (on_handleRequest sdk))
  = true ->
  existsb closes (actions (on_handleRequest sdk)) = true ->
  let w1 := snd (onRequest req now sdk w) in
  sessions w1 = delete id (sessions w)
  /\ "Session closed: " +:+ id ∈ logged w1
  /\ (forall req2 now2 sdk2,
        pathname req2 = "/mcp" -> mcp_session_id req2 = Some id ->
        onRequest req2 now2 sdk2 w1 =
        (Normal tt,
         {| statusCode := 404;
            sent := Some (404%Z, []);
            body := [TextBody "Session not found"];
            writableEnded := true |},
         w1)).
Proof.
  intros Hpath Hid Hne Hs Htr Hsid Hni Hcl w1.
  assert (w1 = snd (sdk_call (transport s) (on_handleRequest sdk)
                      fresh_response w)) as Hw1.
  { subst w1. unfold onRequest, handleMcpRequest.
    rewrite Hpath, Hid. simpl.
    apply String.eqb_neq in Hne. rewrite Hne. simpl. by rewrite Hs. }
  destruct (sdk_call_closing (transport s) (on_handleRequest sdk)
              fresh_response w id Hni) as (C1 & more & C2 & C3);
    [by rewrite Htr; simpl; rewrite Hsid|done|].
  rewrite Hcl in C1. rewrite <- Hw1 in C1, C2.
  split; [done|]. split.
  { rewrite C2. apply elem_of_app. right. by apply C3. }
  intros req2 now2 sdk2 Hpath2 Hid2. unfold onRequest, handleMcpRequest.
  rewrite Hpath2, Hid2. simpl.
  apply String.eqb_neq in Hne. rewrite Hne. simpl.
  by rewrite C1, lookup_delete_eq.
Qed.

Lemma closed_session_is_forgotten_witness :
  let w :=
    snd (onRequest Example.post_mcp Example.noon
           (Example.sdk_initializes Example.session_a) Example.empty_world) in
  sessions w !! Example.session_a = Some {| transport := 0; server := 0 |}
  /\ sessions
       (snd (onRequest (Example.request_in_session "DELETE" Example.session_a)
               Example.noon Example.sdk_closes w)) !! Example.session_a
     = None.
Proof.
  cbv zeta. split; [reflexivity|].
  assert (Example.session_a <> "") as Hne by discriminate.
  pose proof (closed_session_is_forgotten
                (Example.request_in_session "DELETE" Example.session_a)
                Example.noon Example.sdk_closes
                (snd (onRequest Example.post_mcp Example.noon
                        (Example.sdk_initializes Example.session_a)
                        Example.empty_world))
                Example.session_a
                {| transport := 0; server := 0 |}
                {| sessionId := Some Example.session_a; owner := 0 |}
                eq_refl eq_refl Hne eq_refl eq_refl
                eq_refl eq_refl eq_refl) as (H & _).
  rewrite H. apply lookup_delete_eq.
Defined.

End RoutingProperties.

(** ** The registry of sessions over the life of the server *)

Section RegistryProperties.

Import Http HttpRuns.

Lemma registry_ok_initial : registry_ok initial_world.
Proof. by split. Qed.

Lemma registry_ok_log (line : string) (w : World) :
  registry_ok w -> registry_ok (log line w).
Proof. by intros [H1 H2 H3]. Qed.

Lemma registry_ok_build (w : World) :
  registry_ok w -> registry_ok (snd (build_session w)).
Proof.
  intros [H1 H2 H3]. split; simpl.
  - intros t tr [[<- <-]|[Hne Ht]]%lookup_insert_Some; simpl; [lia|].
    apply H1 in Ht. lia.
  - intros t1 t2 tr1 tr2 [[<- <-]|[Hne1 Ht1]]%lookup_insert_Some
                         [[<- <-]|[Hne2 Ht2]]%lookup_insert_Some; simpl;
      intros Ho; try done.
    + apply H1 in Ht2. lia.
    + apply H1 in Ht1. lia.
    + by apply (H2 t1 t2 tr1 tr2).
  - intros id s Hs. pose proof (H3 id s Hs) as Hp.
    destruct (transports w !! transport s) as [tr|] eqn:Et; [|done].
    rewrite lookup_insert_ne; [by rewrite Et|].
    apply H1 in Et. lia.
Qed.

Lemma registry_ok_set_sessionId (t : nat) (id : string) (w : World) :
  registry_ok w -> registry_ok (set_sessionId t id w).
Proof.
  intros [H1 H2 H3].
  assert (forall k tr',
            transports (set_sessionId t id w) !! k = Some tr' ->
            exists tr, transports w !! k = Some tr /\ owner tr = owner tr')
    as Hback.
  { intros k tr'. simpl. destruct (decide (t = k)) as [->|Hne].
    - rewrite lookup_alter_eq.
      destruct (transports w !! k) as [tr|]; [|done].
      simpl. intros [= <-]. by exists tr.
    - rewrite lookup_alter_ne by done. intros Hk. by exists tr'. }
  split.
  - intros k tr' (tr & Hk & Ho)%Hback. rewrite <- Ho. by apply H1.
  - intros t1 t2 tr1 tr2 (a1 & K1 & O1)%Hback (a2 & K2 & O2)%Hback Ho.
    apply (H2 t1 t2 a1 a2); [done|done|congruence].
  - intros sid s Hs. pose proof (H3 sid s Hs) as Hp. simpl in *.
    destruct (decide (t = transport s)) as [->|Hne].
    + rewrite lookup_alter_eq.
      by destruct (transports w !! transport s).
    + by rewrite lookup_alter_ne.
Qed.

Lemma registry_ok_action (t : nat) (a : SdkAction) (res : ServerResponse)
    (w : World) :
  registry_ok w -> registry_ok (snd (run_action t a (res, w))).
Proof.
  intros Hok.
  destruct a as [id| |code|code headers| |data|data]; cbn [run_action];
    try done; [| |by destruct (writeHead code headers res)].
  - pose proof (registry_ok_set_sessionId t id w Hok) as Hok'.
    destruct (transports (set_sessionId t id w) !! t) as [tr|] eqn:Et;
      [|done].
    destruct Hok' as [H1 H2 H3].
    simpl. split; simpl; [done|done|].
    intros sid s [[<- <-]|[Hne Hs]]%lookup_insert_Some.
    + simpl in Et |- *. by rewrite Et.
    + by apply (H3 sid).
  - unfold onclose. destruct (transports w !! t) as [tr|]; [|done].
    destruct (truthy (sessionId tr)); [|done].
    destruct Hok as [H1 H2 H3]. split; simpl; [done|done|].
    intros sid s [_ Hs]%lookup_delete_Some. by apply (H3 sid).
Qed.

Lemma registry_ok_step (w w' : World) :
  world_step w w' -> registry_ok w -> registry_ok w'.
Proof.
  intros [w0|w0 t a res|w0 line];
    auto using registry_ok_build, registry_ok_action, registry_ok_log.
Qed.

Lemma registry_ok_reachable (w w' : World) :
  rtc world_step w w' -> registry_ok w -> registry_ok w'.
Proof. induction 1; eauto using registry_ok_step. Qed.

(** A call into the SDK proceeds by the steps of its actions. *)
Lemma sdk_call_steps (t : nat) (c : SdkCall) (res : ServerResponse)
    (w : World) :
  rtc world_step w (snd (sdk_call t c res w)).
Proof.
  destruct c as [l o]. revert res w.
  induction l as [|a l IH]; intros res w; [done|].
  rewrite sdk_call_cons.
  eapply rtc_l; [apply (step_action w t a res)|apply IH].
Qed.

Lemma createNewSession_steps (req : IncomingMessage) (res : ServerResponse)
    (sdk : SdkBehaviour) (w : World) :
  rtc world_step w (snd (createNewSession req res sdk w)).
Proof.
  rewrite createNewSession_cases. cbv zeta.
  set (t := next_transport w).
  set (w0 := snd (build_session w)).
  set (c1 := sdk_call t (on_connect sdk) res w0).
  set (c2 := sdk_call t (on_handleRequest sdk) (snd (fst c1)) (snd c1)).
  assert (rtc world_step w (snd c1)) as R1.
  { eapply rtc_l; [apply step_build|apply sdk_call_steps]. }
  assert (rtc world_step w (snd c2)) as R2.
  { etrans; [exact R1|apply sdk_call_steps]. }
  destruct (outcome (on_connect sdk)); simpl; try done.
  - destruct (outcome (on_handleRequest sdk)); simpl; try done.
    eapply rtc_r; [exact R2|apply step_log].
  - eapply rtc_r; [exact R1|apply step_log].
Qed.

(** The listener changes the module state by these steps only. *)
Lemma onRequest_steps (req : IncomingMessage) (now : string)
    (sdk : SdkBehaviour) (w : World) :
  rtc world_step w (snd (onRequest req now sdk w)).
Proof.
  unfold onRequest, handleMcpRequest.
  destruct (String.eqb (pathname req) "/mcp").
  - destruct (truthy (mcp_session_id req)).
    + destruct (sessions w !! _); [apply sdk_call_steps|done].
    + destruct (String.eqb (method req) "POST");
        [apply createNewSession_steps|done].
  - by destruct (String.eqb (pathname req) "/health").
Qed.

Lemma serve_steps (l : list Exchange) (w : World) :
  rtc world_step w (serve l w).
Proof.
  revert w. induction l as [|x l IH]; intros w; [done|].
  simpl. etrans; [apply onRequest_steps|apply IH].
Qed.

(** X13: at any moment of the life of the server, also when the handlers
    of several requests interleave at their awaits, and after any further
    requests served from there, two entries of the registry hold the same
    transport exactly when they hold the same server instance: no server
    instance is shared between two transports.  Every entry holds a
    transport and a server instance that were built before. *)
Theorem sessions_never_share_a_server_instance (w : World)
    (l : list Exchange) (id1 id2 : string) (s1 s2 : Session) :
  rtc world_step initial_world w ->
  let w' := serve l w in
  sessions w' !! id1 = Some s1 ->
  sessions w' !! id2 = Some s2 ->
  (transport s1 = transport s2 <-> server s1 = server s2)
  /\ transport s1 < next_transport w'
  /\ server s1 < servers_created w'.
Proof.
  intros Hr w' E1 E2.
  assert (registry_ok w') as [H1 H2 H3].
  { apply (registry_ok_reachable initial_world);
      [|apply registry_ok_initial].
    etrans; [exact Hr|apply serve_steps]. }
  pose proof (H3 id1 s1 E1) as P1. pose proof (H3 id2 s2 E2) as P2.
  destruct (transports w' !! transport s1) as [tr1|] eqn:T1; [|done].
  destruct (transports w' !! transport s2) as [tr2|] eqn:T2; [|done].
  simpl in P1, P2. injection P1 as P1. injection P2 as P2.
  split; [split|].
  - intros Ht. rewrite Ht in T1. congruence.
  - intros Hs. apply (H2 _ _ tr1 tr2 T1 T2). congruence.
  - rewrite <- P1. by apply H1.
Qed.

Lemma sessions_never_share_a_server_instance_witness :
  (transport {| transport := 0; server := 0 |}
   = transport {| transport := 1; server := 1 |}
   <-> server {| transport := 0; server := 0 |}
       = server {| transport := 1; server := 1 |})
  /\ 0 < 2 /\ 0 < 2.
Proof.
  exact (sessions_never_share_a_server_instance initial_world
           Example.two_sessions Example.session_a Example.session_b
           {| transport := 0; server := 0 |}
           {| transport := 1; server := 1 |}
           (rtc_refl _ _) eq_refl eq_refl).
Defined.

End RegistryProperties.

(** ** The start of the process *)

Section StartupProperties.

Import Startup.

(** The host [startHttpTransport] listens on, from [NODE_ENV]. *)
Lemma listen_host_loadConfig (NODE_ENV : option string) (args : Args)
    (v : string) :
  listen_host (loadConfig NODE_ENV args v) =
  if decide (NODE_ENV = Some "production") then "0.0.0.0" else "localhost".
Proof.
  unfold listen_host. simpl. destruct NODE_ENV as [s|]; [|done].
  destruct (String.eqb_spec s "production") as [->|Hne]; [done|].
  destruct (decide _) as [[= ->]|]; done.
Qed.

Lemma truthy_number_loadConfig (NODE_ENV : option string) (args : Args)
    (v : string) :
  truthy_number (port (loadConfig NODE_ENV args v))
  = truthy_number (arg_port args).
Proof.
  cbn [port loadConfig]. destruct (arg_port args) as [p|]; [|done].
  cbn [truthy_number]. by destruct (p =? 0)%Z eqn:Hp; cbn; rewrite ?Hp.
Qed.

(** X14: the variable [PORT] selects the HTTP transport but not the port.
    When the arguments are parsed, carry no port (or the port 0), the log
    file, if they name one, is opened, and [PORT] is set to a non-empty
    text, whatever it is, [main] starts the HTTP transport on port 3000, on
    all interfaces exactly when [NODE_ENV] is [production]; it connects no
    stdio transport, writes nothing of its own and does not exit. *)
Theorem PORT_variable_selects_http_on_3000 (env : Environment)
    (args : Args) (stream : option WriteStream) :
  parseArguments_result env = Normal args ->
  truthy_number (arg_port args) = false ->
  truthy (env_PORT env) = true ->
  open_log (loadConfig (env_NODE_ENV env) args VERSION)
    (saveLogsToFile_result env) = Normal stream ->
  main env =
  {| exit_code := None;
     output := [];
     started :=
       Some (HttpTransport 3000
               (if decide (env_NODE_ENV env = Some "production")
                then "0.0.0.0" else "localhost"));
     log_stream := stream |}.
Proof.
  intros Hargs Hport Henv Hlog. unfold main. rewrite Hargs, Hlog.
  rewrite truthy_number_loadConfig, Hport, Henv. cbn [orb].
  unfold startHttpTransport, listen_port.
  rewrite truthy_number_loadConfig, Hport. cbn [valid_port].
  change (valid_port 3000) with true. cbv iota.
  by rewrite listen_host_loadConfig.
Qed.

Lemma PORT_variable_selects_http_on_3000_witness :
  main Example.port_in_environment =
  {| exit_code := None;
     output := [];
     started := Some (HttpTransport 3000 "localhost");
     log_stream := None |}.
Proof.
  exact (PORT_variable_selects_http_on_3000 Example.port_in_environment
           Example.no_args None eq_refl eq_refl eq_refl eq_refl).
Defined.

(** X15: when the arguments are parsed and the log file, if they name
    one, is opened, a port among the arguments, an integer between 1 and
    65535, makes [main] listen on that port, whatever [PORT] holds and
    however a stdio connection would have ended. *)
Theorem port_argument_selects_http (env : Environment) (args : Args)
    (p : Z) (stream : option WriteStream) :
  parseArguments_result env = Normal args ->
  arg_port args = Some p ->
  (0 < p < 65536)%Z ->
  open_log (loadConfig (env_NODE_ENV env) args VERSION)
    (saveLogsToFile_result env) = Normal stream ->
  main env =
  {| exit_code := None;
     output := [];
     started :=
       Some (HttpTransport p
               (if decide (env_NODE_ENV env = Some "production")
                then "0.0.0.0" else "localhost"));
     log_stream := stream |}.
Proof.
  intros Hargs Hport Hp Hlog. unfold main. rewrite Hargs, Hlog.
  assert (truthy_number (arg_port args) = true) as Ht.
  { rewrite Hport. simpl. apply negb_true_iff, Z.eqb_neq. lia. }
  rewrite truthy_number_loadConfig, Ht. cbn [orb].
  assert (listen_port (loadConfig (env_NODE_ENV env) args VERSION) = p)
    as Hlp.
  { unfold listen_port. rewrite truthy_number_loadConfig, Ht.
    simpl. rewrite Hport. by destruct (Z.eqb_spec p 0); [lia|]. }
  unfold startHttpTransport. rewrite Hlp.
  assert (valid_port p = true) as ->.
  { unfold valid_port. apply andb_true_intro. split; lia. }
  by rewrite listen_host_loadConfig.
Qed.

Lemma port_argument_selects_http_witness :
  main Example.production_on_8080 =
  {| exit_code := None;
     output := [];
     started := Some (HttpTransport 8080 "0.0.0.0");
     log_stream := None |}.
Proof.
  assert (0 < 8080 < 65536)%Z as Hp by lia.
  exact (port_argument_selects_http Example.production_on_8080
           _ 8080%Z None eq_refl eq_refl Hp eq_refl).
Defined.

Local Ltac settle_run :=
  cbn [runStdioTransport fatal hangs exit_code output started log_stream app
       last];
  repeat split;
  repeat match goal with
         | |- _ \/ _ => first [by left|by right]
         | |- _ -> _ => intro
         | H : ex _ |- _ => destruct H
         | H : _ ∈ [] |- _ => by apply elem_of_nil in H
         | H : _ ∈ [_] |- _ => apply list_elem_of_singleton in H
         | H : Some _ = Some _ |- _ => injection H as H; subst
         | |- _ ∈ _ :: _ => first [apply list_elem_of_here
                                  |apply list_elem_of_further]
         end;
  try done; eauto.

(** X16: [main] exits, with code 1, only through its [catch] clause: then
    the report of the fatal error is the last thing written and no
    transport serves.  A run in which a transport serves has not exited and
    reports no fatal error; the disclaimer is printed exactly when the
    stdio transport serves; and a log file is opened only after the
    arguments were parsed and name one. *)
Theorem main_exits_only_on_a_fault (env : Environment) :
  let run := main env in
  (exit_code run = None \/ exit_code run = Some 1%Z)
  /\ (exit_code run = Some 1%Z <->
      exists error, last (output run) = Some (FatalError error))
  /\ (exit_code run = Some 1%Z -> started run = None)
  /\ (ConsoleError disclaimer ∈ output run <->
      started run = Some StdioTransport)
  /\ (forall stream,
        log_stream run = Some stream ->
        saveLogsToFile_result env = Normal stream
        /\ exists args,
             parseArguments_result env = Normal args
             /\ truthy (arg_logFile args) = true).
Proof.
  cbv zeta. unfold main.
  destruct (parseArguments_result env) as [args|e|] eqn:Hargs;
    [|settle_run..].
  unfold open_log. cbn [logFile loadConfig].
  destruct (truthy (arg_logFile args)) eqn:Hlf;
    [destruct (saveLogsToFile_result env) as [st|e|] eqn:Hsave;
       [|settle_run..]|];
    (destruct (_ || _);
     [destruct (startHttpTransport _) as [[p h]|e|]
     |destruct (connect_result env) as [[]|e|]]; settle_run).
Qed.

(** X19: stdio is the default.  When the arguments are parsed and the log
    file, if they name one, is opened, then without a port among the
    arguments (or with the port 0) and without [PORT] (or with an empty
    one), [main] starts no HTTP server.  When the connection over stdio is
    made, it logs it and prints the disclaimer, in that order; when the
    connection fails, neither is written, the failure is reported and the
    exit code is 1; while the connection is pending nothing is written. *)
Theorem stdio_is_the_default (env : Environment) (args : Args)
    (stream : option WriteStream) :
  parseArguments_result env = Normal args ->
  truthy_number (arg_port args) = false ->
  truthy (env_PORT env) = false ->
  open_log (loadConfig (env_NODE_ENV env) args VERSION)
    (saveLogsToFile_result env) = Normal stream ->
  main env =
  match connect_result env with
  | Normal _ =>
      {| exit_code := None;
         output := [LoggerLine "Chrome DevTools MCP Server connected via STDIO";
                    ConsoleError disclaimer];
         started := Some StdioTransport;
         log_stream := stream |}
  | Throw error =>
      {| exit_code := Some 1%Z;
         output := [FatalError error];
         started := None;
         log_stream := stream |}
  | Pending =>
      {| exit_code := None;
         output := [];
         started := None;
         log_stream := stream |}
  end.
Proof.
  intros Hargs Hport Henv Hlog. unfold main. rewrite Hargs, Hlog.
  rewrite truthy_number_loadConfig, Hport, Henv. cbn [orb].
  by destruct (connect_result env) as [[]|e|].
Qed.

Lemma stdio_is_the_default_witness :
  started (main Example.plain_start) = Some StdioTransport.
Proof.
  by rewrite (stdio_is_the_default Example.plain_start Example.no_args None
                eq_refl eq_refl eq_refl eq_refl).
Defined.

(** X20: what [loadConfig] makes of its inputs.  The configuration is in
    production exactly when [NODE_ENV] is the text [production], as
    written; [nodeEnv] and [isProduction] agree; a port argument that is an
    integer below 10^21 in magnitude is the port of the configuration,
    except that 0, like an absent port, leaves the port undefined; and a
    category switch is off exactly when the argument is the boolean
    [false]. *)
Theorem loadConfig_normalizes (NODE_ENV : option string) (args : Args)
    (v : string) :
  let config := loadConfig NODE_ENV args v in
  (isProduction config = true <-> NODE_ENV = Some "production")
  /\ (isProduction config = true <-> nodeEnv config = production)
  /\ (forall p,
        arg_port args = Some p -> (Z.abs p < 10 ^ 21)%Z ->
        port config = if (p =? 0)%Z then None else Some p)
  /\ (arg_port args = None -> port config = None)
  /\ (categoryEmulation config = false <->
      arg_categoryEmulation args = JsBoolean false)
  /\ (categoryPerformance config = false <->
      arg_categoryPerformance args = JsBoolean false)
  /\ (categoryNetwork config = false <->
      arg_categoryNetwork args = JsBoolean false).
Proof.
  cbv zeta.
  assert (forall x, strict_neq_false x = false <-> x = JsBoolean false)
    as Hsw by (by intros [| |[]| |]).
  cbn [loadConfig isProduction nodeEnv port categoryEmulation
       categoryPerformance categoryNetwork].
  repeat split; try apply Hsw.
  - destruct NODE_ENV as [s|]; [|done].
    by destruct (String.eqb_spec s "production") as [->|].
  - intros [= ->]. done.
  - destruct NODE_ENV as [s|]; [|done].
    by destruct (String.eqb s "production").
  - destruct NODE_ENV as [s|]; [|done].
    by destruct (String.eqb s "production").
  - by intros p -> _.
  - by intros ->.
Qed.

End StartupProperties.

(** ** The properties of a call, on the sample data *)

Lemma successful_call_returns_the_content_witness :
  fst (toolCallback Example.default_config None Example.click 0 "{}"
         Example.all_answer initial_state) =
  Normal {| content := [TextContent "# click response"]; isError := None |}.
Proof.
  pose proof (successful_call_returns_the_content Example.default_config None
                Example.click 0 "{}" Example.all_answer initial_state 7
                [TextContent "# click response"]
                eq_refl eq_refl (fun _ => eq_refl) eq_refl eq_refl eq_refl)
    as H.
  cbv zeta in H. exact (proj1 H).
Defined.

Lemma finalization_failure_is_an_error_result_witness :
  fst (toolCallback Example.default_config None Example.click 0 "{}"
         Example.finalization_fails initial_state) =
  Normal {| content := [TextContent "No page selected"];
            isError := Some true |}.
Proof.
  pose proof (finalization_failure_is_an_error_result Example.default_config
                None Example.click 0 "{}" Example.finalization_fails
                initial_state 7 (JsError "Error" "No page selected")
                eq_refl eq_refl (fun _ => eq_refl) eq_refl eq_refl eq_refl)
    as H.
  cbv zeta in H. exact (proj1 H).
Defined.

Lemma handler_failure_is_logged_and_thrown_again_witness :
  fst (toolCallback Example.default_config None Example.click 0 "{}"
         Example.handler_throws_error initial_state) =
  Throw (JsError "Error" "Element not found").
Proof.
  pose proof (handler_failure_is_logged_and_thrown_again
                Example.default_config None Example.click 0 "{}"
                Example.handler_throws_error initial_state 7
                (JsError "Error" "Element not found")
                eq_refl eq_refl (fun _ => eq_refl) eq_refl eq_refl eq_refl)
    as H.
  cbv zeta in H. exact (proj1 H).
Defined.

Lemma context_failure_skips_the_handler_witness :
  count is_handler_call
    (events_since initial_state
       (snd (toolCallback Example.default_config None Example.click 0 "{}"
               Example.launch_fails initial_state))) = 0.
Proof.
  pose proof (context_failure_skips_the_handler Example.default_config None
                Example.click 0 "{}" Example.launch_fails initial_state
                (JsError "Error" "Could not find Chrome")
                eq_refl eq_refl (or_introl eq_refl)) as H.
  cbv zeta in H. exact (proj1 (proj2 (proj2 (proj2 (proj2 (proj2 (proj2 H))))))).
Defined.

Lemma call_settles_when_collaborators_settle_witness :
  settles (fst (toolCallback Example.default_config None Example.click 0 "{}"
                  Example.handler_throws_error initial_state)) = true
  /\ guard_free (snd (toolCallback Example.default_config None Example.click
                        0 "{}" Example.handler_throws_error initial_state)).
Proof.
  exact (call_settles_when_collaborators_settle Example.default_config None
           Example.click 0 "{}" Example.handler_throws_error initial_state
           eq_refl eq_refl eq_refl eq_refl eq_refl eq_refl).
Defined.

Lemma context_outlives_a_failed_call_witness :
  let st1 :=
    snd (toolCallback Example.default_config None Example.click 0 "{}"
           Example.handler_throws_error initial_state) in
  let st2 :=
    snd (toolCallback Example.default_config None Example.emulate_cpu 1 "{}"
           Example.all_answer st1) in
  count is_context_build (events_since st1 st2) = 0
  /\ context st2 = context st1.
Proof.
  cbv zeta.
  pose proof (context_outlives_a_failed_call Example.default_config None
                Example.click Example.emulate_cpu 0 1 "{}" "{}"
                Example.handler_throws_error Example.all_answer
                initial_state 7
                eq_refl eq_refl eq_refl (fun _ => eq_refl)
                eq_refl eq_refl eq_refl) as H.
  cbv zeta in H. destruct H as (c & H1 & _ & H2 & _ & H3 & _).
  split; [exact H3|]. by rewrite H1, H2.
Defined.

Lemma unreadable_failure_becomes_a_TypeError_witness :
  fst (toolCallback Example.default_config None Example.click 0 "{}"
         Example.handler_rejects_with_undefined initial_state) =
  Throw (JsError "TypeError"
           "Cannot read properties of undefined (reading 'message')").
Proof.
  pose proof (unreadable_failure_becomes_a_TypeError Example.default_config
                None Example.click 0 "{}"
                Example.handler_rejects_with_undefined initial_state
                JsUndefined eq_refl eq_refl
                (or_intror (or_intror
                   (ex_intro _ 7
                      (conj eq_refl
                         (conj (fun _ => eq_refl)
                            (or_intror (conj eq_refl eq_refl))))))))
    as H.
  cbv zeta in H. exact (proj1 H).
Defined.

Lemma phases_agree_with_callback_witness :
  phase
    (fst (run_alone Example.default_config None 7 0
            {| tool := Example.click;
               params := "{}";
               behaviour := Example.finalization_fails;
               phase := Queued |} initial_state)) =
  Done {| content := [TextContent "No page selected"];
          isError := Some true |}.
Proof.
  pose proof (phases_agree_with_callback Example.default_config None
                Example.click 0 "{}" Example.finalization_fails
                initial_state eq_refl) as H.
  cbv zeta in H. exact (proj2 H).
Defined.
